(** * affordance_gym: the perception-policy training script

    A shallow embedding of [scripts/perception_policy_train.py] and of the
    helpers of [src/affordance_gym/utils.py] it calls.

    - Python floats are IEEE binary64 values ([spec_float] with the
      operations of [SpecFloat] at precision 53).
    - Exceptions are values of [exn]; a computation is a function from the
      state of the disk to the new state and either a value or an exception.
    - numpy arrays and torch tensors are nested lists; an index outside an
      array raises [IndexError] as numpy does.
    - The third-party models, the optimiser, the random generators and the
      pickled file are fields of a record [World]: the script is glue around
      them, and the theorems hold for every world.
    - So are the calls that touch the file system or draw a figure
      ([os.makedirs], [open], [torch.save], [plt.scatter], [ax.hist],
      [plt.plot], [plt.savefig]): each may raise, and a file is on the disk
      only after the call that writes it has returned.
    - [print] calls and the choice of device do not touch any value the
      properties speak about and are left out.
    - A loader over an empty set is built without complaint and yields no
      batch (some versions of the library refuse it when it is built). *)

From Stdlib Require Import ZArith Ascii Floats.SpecFloat.
From stdpp Require Import gmap strings list.

Local Open Scope Z_scope.

(** ** Exceptions and the state-and-exception monad *)

(** The class of a Python exception. *)
Inductive pyexc :=
  | AssertionError
  | IndexError
  | ValueError
  | TypeError
  | OtherError (msg : string).

(** Who raised it: a statement of the script, or code of a library. *)
Inductive origin := Script | Library.

Record exn := Exn { exn_origin : origin; exn_class : pyexc }.

Inductive result (A : Type) :=
  | Ok (a : A)
  | Raise (e : exn).
Arguments Ok {A} a.
Arguments Raise {A} e.

(** The content of a file the script writes. *)
Inductive argval :=
  | VInt (z : Z)
  | VFloat (f : spec_float)
  | VStr (s : string)
  | VBool (b : bool).

Section Disk.
(** [weights] is what [policy.state_dict()] returns, [num] the type of a
    tensor element. *)
Context {weights num : Type}.

Inductive file :=
  | ArgumentsTxt (lines : list (string * argval))
  | Checkpoint (state_dict : weights)
  | ScatterPng (constructed targets : list (list num))
  | LatentsPng (columns : list (list num))
  | LossPng (title : string) (train val : list spec_float).

(** The disk: the files by path, and the paths written so far, the most
    recent first. *)
Record disk := Disk { files : gmap string file; written : list string }.

Definition M (A : Type) : Type := disk → disk * result A.

Definition ret {A} (a : A) : M A := λ d, (d, Ok a).
Definition raise {A} (e : exn) : M A := λ d, (d, Raise e).
Definition bind {A B} (m : M A) (k : A → M B) : M B :=
  λ d, match m d with
       | (d', Ok a) => k a d'
       | (d', Raise e) => (d', Raise e)
       end.
Definition lift {A} (r : result A) : M A := λ d, (d, r).
Definition write_file (path : string) (f : file) : M unit :=
  λ d, (Disk (<[path := f]> (files d)) (path :: written d), Ok tt).
End Disk.
Arguments file : clear implicits.
Arguments disk : clear implicits.
Arguments M : clear implicits.

Notation "'let*' x ':=' c 'in' k" := (bind c (λ x, k))
  (at level 10, x pattern, c at level 100, k at level 200, only parsing).
Notation "c ';;;' k" := (bind c (λ _, k))
  (at level 100, k at level 200, right associativity, only parsing).

(** ** Python floats *)

Definition float := spec_float.
Definition f64_mul : float → float → float := SFmul 53 1024.
Definition f64_ltb : float → float → bool := SFltb.
Definition np_inf : float := S754_infinity false.
Definition np_nan : float := S754_nan.

(** [float(n)] for a Python int. *)
Definition float_of_int (n : Z) : float := binary_normalize 53 1024 n 0 false.

(** [int(x)] truncates towards zero and raises on infinities and NaN. *)
Definition int_of_float (x : float) : result Z :=
  match x with
  | S754_zero _ => Ok 0
  | S754_finite s m e =>
      let a := match e with
               | Zneg p => Z.shiftr (Zpos m) (Zpos p)
               | _ => Z.shiftl (Zpos m) e
               end in
      Ok (if s then - a else a)
  | S754_infinity _ => Raise (Exn Library (OtherError "OverflowError"))
  | S754_nan => Raise (Exn Library ValueError)
  end.

(** The literal [0.7]: the binary64 value nearest to 7/10. *)
Definition lit_0_7 : float := S754_finite false 6305039478318694 (-53).

(** [int(len * 0.7)], the size [main] gives the training set. *)
Definition train_size_of (len : Z) : result Z :=
  int_of_float (f64_mul (float_of_int len) lit_0_7).

(** ** os.path.join (posixpath) *)

Definition starts_with_sep (s : string) : bool :=
  match s with
  | String c _ => bool_decide (c = "/"%char)
  | EmptyString => false
  end.

Fixpoint ends_with_sep (s : string) : bool :=
  match s with
  | EmptyString => false
  | String c EmptyString => bool_decide (c = "/"%char)
  | String _ rest => ends_with_sep rest
  end.

Definition join_step (path b : string) : string :=
  if starts_with_sep b then b
  else if bool_decide (path = EmptyString) || ends_with_sep path then path +:+ b
  else path +:+ "/" +:+ b.

Definition os_path_join (a : string) (p : list string) : string :=
  fold_left join_step p a.

(** ** Results without state *)

Definition rbind {A B} (r : result A) (k : A → result B) : result B :=
  match r with
  | Ok a => k a
  | Raise e => Raise e
  end.

Fixpoint mapR {A B} (f : A → result B) (l : list A) : result (list B) :=
  match l with
  | [] => Ok []
  | x :: rest =>
      rbind (f x) (λ y, rbind (mapR f rest) (λ ys, Ok (y :: ys)))
  end.

Definition lib_error {A} (c : pyexc) : result A := Raise (Exn Library c).

(** ** numpy arrays as lists *)

Section Arrays.
Context {A : Type}.

(** [a[i]] for an integer index: a negative index counts from the end. *)
Definition np_index (a : list A) (i : Z) : result A :=
  let len := Z.of_nat (length a) in
  let j := if i <? 0 then i + len else i in
  if (j <? 0) || (len <=? j) then lib_error IndexError
  else match a !! Z.to_nat j with
       | Some x => Ok x
       | None => lib_error IndexError
       end.

(** [a[indices]] for an array of integer indices. *)
Definition np_take (a : list A) (indices : list Z) : result (list A) :=
  mapR (np_index a) indices.

(** [a[:, 0, :]] *)
Definition first_of_axis1 (a : list (list A)) : result (list A) :=
  mapR (λ row, np_index row 0) a.

(** [a[:, :, -1]] *)
Definition last_of_axis2 (a : list (list (list A))) : result (list (list A)) :=
  mapR (mapR (λ steps, np_index steps (-1))) a.

(** [np.concatenate(arrays)]: an empty list of arrays is refused. *)
Definition np_concatenate (arrays : list (list A)) : result (list A) :=
  match arrays with
  | [] => lib_error ValueError
  | _ :: _ => Ok (concat arrays)
  end.

(** A slice [a[lo:hi]] with Python's clamping of the bounds. *)
Definition clamp_bound (len i : Z) : nat :=
  Z.to_nat (if i <? 0 then Z.max (i + len) 0 else Z.min i len).

Definition py_slice (a : list A) (lo hi : Z) : list A :=
  let len := Z.of_nat (length a) in
  let l := clamp_bound len lo in
  let h := clamp_bound len hi in
  take (h - l)%nat (drop l a).

(** Consecutive chunks of [k] elements, the last one possibly shorter. *)
Fixpoint chunks_fuel (fuel k : nat) (l : list A) : list (list A) :=
  match fuel, l with
  | S fuel', _ :: _ => take k l :: chunks_fuel fuel' k (drop k l)
  | _, _ => []
  end.

Definition chunks (k : nat) (l : list A) : list (list A) :=
  chunks_fuel (length l) k l.
End Arrays.

(** ** The world outside the script *)

Definition tensor1 (num : Type) := list num.
Definition tensor2 (num : Type) := list (list num).
Definition tensor3 (num : Type) := list (list (list num)).

(** What [ROSTrajectoryVAE(...)] gives the script: [model.decoder] and
    [model.to_trajectory]. *)
Record TrajectoryVAE (num : Type) := {
  vae_decoder : tensor2 num → result (tensor2 num);
  vae_to_trajectory : tensor2 num → result (tensor3 num)
}.
Arguments vae_decoder {num} _ _.
Arguments vae_to_trajectory {num} _ _.

Record World := {
  (** the element type of torch tensors, the type of [MIN_ANGLE] and
      [MAX_ANGLE], the policy's [state_dict] and the optimiser's state *)
  num : Type;
  angle : Type;
  weights : Type;
  ostate : Type;
  (** constants of [motion_planning.utils] and [behavioural_vae.utils] *)
  GIBSON_ROOT : string;
  BEHAVIOUR_ROOT : string;
  MIN_ANGLE : angle;
  MAX_ANGLE : angle;
  angle_sub : angle → angle → angle;
  (** [s * t] and [t + s] for a scalar [s] and a tensor element [t] *)
  scale : angle → num → num;
  shift : num → angle → num;
  (** numpy *)
  np_load : string → result (list (list (list float)) * list (list float));
  random_integers : Z → Z → nat → list Z;
  np_mean : list float → float;
  np_log : float → float;
  (** torch *)
  torch_Tensor : float → num;
  randperm : nat → list nat;
  (** the order in which the shuffling loader visits a set of [n]
      elements in a given epoch *)
  sampler_order : nat → nat → list nat;
  (** [torch.load(path)] and [model.load_state_dict(state)] *)
  torch_load : string → result weights;
  load_state_dict : weights → weights → result weights;
  Adam : weights → float → result ostate;
  (** [loss.backward(); optimizer.step(); optimizer.zero_grad()], for the
      loss as a function of the policy's weights *)
  backward_step : (weights → result num) → weights → ostate → weights * ostate;
  mse_loss : tensor2 num → tensor2 num → result num;
  item : num → float;
  (** the models *)
  ROSTrajectoryVAE : string → Z → Z → Z → Z → string → result (TrajectoryVAE num);
  Predictor : Z → Z → result weights;
  (** [policy(x)] in training mode ([true]) or evaluation mode *)
  policy_forward : bool → weights → tensor2 num → result (tensor2 num);
  end_effector_pose : tensor2 num → result (tensor2 num);
  (** the file system and matplotlib, each call of which may raise:
      [os.makedirs(path)] when the path is missing, [open(path, 'w')] with
      the lines written, [torch.save(state, path)], [plt.scatter(x, y)],
      [ax.hist(batch, bins=100)], [plt.plot(steps, values)] and
      [plt.savefig(path)] *)
  os_makedirs : string → result unit;
  open_write : string → result unit;
  torch_save : weights → string → result unit;
  plt_scatter : tensor1 num → tensor1 num → result unit;
  plt_hist : tensor1 num → result unit;
  plt_plot : list float → result unit;
  plt_savefig : string → result unit
}.

(** The contract of the random sources. *)
Record random_ok (W : World) : Prop := {
  random_integers_len : ∀ lo hi n, length (random_integers W lo hi n) = n;
  random_integers_range : ∀ lo hi n x,
    lo ≤ hi → x ∈ random_integers W lo hi n → lo ≤ x ≤ hi;
  randperm_perm : ∀ n, randperm W n ≡ₚ seq 0 n;
  sampler_order_perm : ∀ epoch n, sampler_order W epoch n ≡ₚ seq 0 n
}.

(** ** Command-line arguments *)

Record Args := {
  vae_name : string;
  latent_dim : Z;
  num_joints : Z;
  num_actions : Z;
  duration : argval;
  conv : bool;
  conv_channel : Z;
  kernel_row : Z;
  model_index : Z;
  policy_name : string;
  num_epoch : Z;
  num_params : Z;
  batch_size : Z;
  lr : float;
  train : bool;
  num_processes : Z;
  fixed_camera : bool;
  g_name : string;
  g_latent : Z;
  cup_id : Z;
  clutter_env : bool;
  two_cups : bool;
  debug : bool
}.

(** [parse_arguments(behavioural_vae=True, policy=True, gibson=True)] with
    no flag on the command line. *)
Definition default_args : Args := {|
  vae_name := "model_v1"; latent_dim := 5; num_joints := 7;
  num_actions := 24; duration := VInt 10; conv := false;
  conv_channel := 2; kernel_row := 4; model_index := -1;
  policy_name := "model_v1"; num_epoch := 1000; num_params := 128;
  batch_size := 124;
  lr := S754_finite false 4611686018427388 (-62);
  train := true; num_processes := 16; fixed_camera := false;
  g_name := "rgb_model_v1"; g_latent := 10; cup_id := 1;
  clutter_env := false; two_cups := false; debug := false
|}.

(** [vars(args).items()] *)
Definition vars (a : Args) : list (string * argval) :=
  [ ("vae_name", VStr (vae_name a)); ("latent_dim", VInt (latent_dim a));
    ("num_joints", VInt (num_joints a)); ("num_actions", VInt (num_actions a));
    ("duration", duration a); ("conv", VBool (conv a));
    ("conv_channel", VInt (conv_channel a)); ("kernel_row", VInt (kernel_row a));
    ("model_index", VInt (model_index a)); ("policy_name", VStr (policy_name a));
    ("num_epoch", VInt (num_epoch a)); ("num_params", VInt (num_params a));
    ("batch_size", VInt (batch_size a)); ("lr", VFloat (lr a));
    ("train", VBool (train a)); ("num_processes", VInt (num_processes a));
    ("fixed_camera", VBool (fixed_camera a)); ("g_name", VStr (g_name a));
    ("g_latent", VInt (g_latent a)); ("cup_id", VInt (cup_id a));
    ("clutter_env", VBool (clutter_env a)); ("two_cups", VBool (two_cups a));
    ("debug", VBool (debug a)) ].

(** ** Loops *)

Fixpoint foldR {A S} (f : S → A → result S) (l : list A) (s : S) : result S :=
  match l with
  | [] => Ok s
  | x :: rest => rbind (f s x) (foldR f rest)
  end.

Fixpoint foldM {weights num A S}
    (f : S → A → M weights num S) (l : list A) (s : S) : M weights num S :=
  match l with
  | [] => ret s
  | x :: rest => let* s' := f s x in foldM f rest s'
  end.

Section Script.
Variable W : World.

Abbreviation tensor := (tensor2 (num W)).
Abbreviation MW := (M (weights W) (num W)).

(** ** torch.utils.data *)

(** A [TensorDataset] of two tensors: element [i] is the pair of their
    rows [i]. *)
Definition dataset := list (tensor1 (num W) * tensor1 (num W)).

Definition TensorDataset (a b : tensor) : result dataset :=
  if bool_decide (length a = length b) then Ok (zip a b)
  else lib_error AssertionError.

Record Subset := { sub_dataset : dataset; sub_indices : list nat }.

Definition subset_len (s : Subset) : nat := length (sub_indices s).

Definition subset_get (s : Subset) (i : nat) :
    result (tensor1 (num W) * tensor1 (num W)) :=
  rbind (np_index (sub_indices s) (Z.of_nat i))
        (λ j, np_index (sub_dataset s) (Z.of_nat j)).

(** [random_split(dataset, (a, b))] *)
Definition random_split (d : dataset) (a b : Z) : result (Subset * Subset) :=
  if bool_decide (a + b = Z.of_nat (length d)) then
    let indices := randperm W (Z.to_nat (a + b)) in
    Ok ({| sub_dataset := d; sub_indices := py_slice indices (a - a) a |},
        {| sub_dataset := d; sub_indices := py_slice indices (a + b - b) (a + b) |})
  else lib_error ValueError.

Record DataLoader := {
  dl_subset : Subset;
  dl_batch_size : nat;
  dl_shuffle : bool
}.

Definition new_DataLoader (s : Subset) (batch_size : Z) (shuffle : bool)
    (num_workers : Z) : result DataLoader :=
  if num_workers <? 0 then lib_error ValueError
  else if batch_size <=? 0 then lib_error ValueError
  else Ok {| dl_subset := s; dl_batch_size := Z.to_nat batch_size;
             dl_shuffle := shuffle |}.

(** The batches of positions the loader visits in an epoch. *)
Definition loader_batches (epoch : nat) (dl : DataLoader) : list (list nat) :=
  let n := subset_len (dl_subset dl) in
  let order := if dl_shuffle dl then sampler_order W epoch n else seq 0 n in
  chunks (dl_batch_size dl) order.

(** Fetching and collating one batch. *)
Definition fetch_batch (dl : DataLoader) (positions : list nat) :
    result (tensor * tensor) :=
  rbind (mapR (subset_get (dl_subset dl)) positions)
        (λ elems, Ok (elems.*1, elems.*2)).

(** ** load_dataset *)

Definition load_dataset (perception_name : string) (debug : bool) :
    result dataset :=
  let data_path :=
    os_path_join (GIBSON_ROOT W)
      ["log"; perception_name; "mujoco_latents/latents.pkl"] in
  rbind (np_load W data_path) (λ '(latents, target_coord),
  rbind (first_of_axis1 latents) (λ latents,
  rbind (if debug then
           let indices :=
             random_integers W 0 (Z.of_nat (length latents)) 10 in
           rbind (np_take latents indices) (λ latents,
           rbind (np_take target_coord indices) (λ target_coord,
           Ok (latents, target_coord)))
         else Ok (latents, target_coord)) (λ '(latents, target_coord),
  let latents := map (map (torch_Tensor W)) latents in
  let target_coord := map (map (torch_Tensor W)) target_coord in
  TensorDataset latents target_coord))).

(** ** utils.py *)

(** [load_parameters(model, load_path, model_name)]; the result is the
    model with the loaded weights, in evaluation mode. *)
Definition load_parameters (model : weights W) (load_path model_name : string) :
    result (weights W) :=
  let model_path := os_path_join load_path [model_name +:+ ".pth.tar"] in
  rbind (torch_load W model_path) (λ state, load_state_dict W model state).

(** [save_arguments(args, save_path)]; the directory is created when it
    is missing, which the disk of this model does not record. *)
Definition save_arguments (args : Args) (save_path : string) : MW unit :=
  lift (os_makedirs W save_path) ;;;
  let path := os_path_join save_path ["arguments.txt"] in
  lift (open_write W path) ;;;
  write_file path (ArgumentsTxt (vars args)).

Definition column (a : tensor) (i : Z) : result (tensor1 (num W)) :=
  mapR (λ row, np_index row i) a.

Definition plot_scatter (constructed targets : tensor) (save_to : string) :
    MW unit :=
  let* x := lift (column targets 0) in
  let* y := lift (column targets 1) in
  lift (plt_scatter W x y) ;;;
  let* x := lift (column constructed 0) in
  let* y := lift (column constructed 1) in
  lift (plt_scatter W x y) ;;;
  lift (plt_savefig W save_to) ;;;
  write_file save_to (ScatterPng constructed targets).

(** [latents.shape[1]] *)
Definition shape1 (a : tensor) : nat :=
  match a with
  | [] => 0
  | row :: _ => length row
  end.

(** [plt.subplots(k, 1)] gives an array of axes only for [k >= 2]: it
    refuses [k = 0], and for [k = 1] returns a single axes object, which
    [axes[i]] cannot index. *)
Definition plot_latent_distributions (latents : tensor) (save_to : string) :
    MW unit :=
  let k := shape1 latents in
  match k with
  | O => lift (lib_error ValueError)
  | S O => lift (lib_error TypeError)
  | _ =>
      let* columns :=
        lift (mapR (λ i, rbind (column latents (Z.of_nat i)) (λ batch,
                         rbind (plt_hist W batch) (λ _, Ok batch)))
                   (seq 0 k)) in
      lift (plt_savefig W save_to) ;;;
      write_file save_to (LatentsPng columns)
  end.

(** [plt.plot(steps, val)] refuses values that are not as many as the
    steps, of which there are as many as training values. *)
Definition plot_loss (train val : list float) (title save_to : string) :
    MW unit :=
  lift (plt_plot W train) ;;;
  (if bool_decide (length val = length train) then lift (plt_plot W val)
   else lift (lib_error ValueError)) ;;;
  lift (plt_savefig W save_to) ;;;
  write_file save_to (LossPng title train val).

(** ** main: one epoch *)

(** [(MAX_ANGLE - MIN_ANGLE) * x + MIN_ANGLE] on every element *)
Definition unnormalize (t : tensor) : tensor :=
  map (map (λ x, shift W (scale W (angle_sub W (MAX_ANGLE W) (MIN_ANGLE W)) x)
                       (MIN_ANGLE W))) t.

(** The variables of the training pass. *)
Record TrainVars := {
  tv_weights : weights W;
  tv_ostate : ostate W;
  tv_train_losses : list float;
  tv_end_poses : list tensor;
  tv_target_poses : list tensor;
  tv_latents : list tensor
}.

(** The body of [for latent_1, target_pose in train_loader]. *)
Definition train_batch (action_vae : TrajectoryVAE (num W))
    (train_loader : DataLoader) (v : TrainVars) (positions : list nat) :
    result TrainVars :=
  rbind (fetch_batch train_loader positions) (λ '(latent_1, target_pose),
  let graph (w : weights W) : result (tensor * tensor * num W) :=
    rbind (policy_forward W true w latent_1) (λ latent_2,
    rbind (vae_decoder action_vae latent_2) (λ trajectories,
    rbind (vae_to_trajectory action_vae trajectories) (λ trajectories,
    rbind (last_of_axis2 trajectories) (λ end_joint_pose,
    let end_joint_pose := unnormalize end_joint_pose in
    rbind (end_effector_pose W end_joint_pose) (λ end_pose,
    rbind (mse_loss W end_pose target_pose) (λ loss,
    Ok (latent_2, end_pose, loss))))))) in
  rbind (graph (tv_weights v)) (λ '(latent_2, end_pose, loss),
  let '(w', o') :=
    backward_step W (λ w, rbind (graph w) (λ r, Ok r.2))
                  (tv_weights v) (tv_ostate v) in
  Ok {| tv_weights := w'; tv_ostate := o';
        tv_train_losses := tv_train_losses v ++ [item W loss];
        tv_end_poses := tv_end_poses v ++ [end_pose];
        tv_target_poses := tv_target_poses v ++ [target_pose];
        tv_latents := tv_latents v ++ [latent_2] |})).

(** The variables of the validation pass. *)
Record ValVars := {
  vv_val_losses : list float;
  vv_end_poses : list tensor;
  vv_target_poses : list tensor;
  vv_latents : list tensor
}.

(** The body of [for latent_1, target_pose in test_loader]. *)
Definition val_batch (action_vae : TrajectoryVAE (num W)) (w : weights W)
    (test_loader : DataLoader) (v : ValVars) (positions : list nat) :
    result ValVars :=
  rbind (fetch_batch test_loader positions) (λ '(latent_1, target_pose),
  rbind (policy_forward W false w latent_1) (λ latent_2,
  rbind (vae_decoder action_vae latent_2) (λ trajectories,
  rbind (vae_to_trajectory action_vae trajectories) (λ trajectories,
  rbind (last_of_axis2 trajectories) (λ end_joint_pose,
  let end_joint_pose := unnormalize end_joint_pose in
  rbind (end_effector_pose W end_joint_pose) (λ end_pose,
  rbind (mse_loss W end_pose target_pose) (λ loss,
  let end_poses := vv_end_poses v ++ [end_pose] in
  Ok {| vv_val_losses := vv_val_losses v ++ [item W loss];
        vv_end_poses := end_poses ++ [end_pose];
        vv_target_poses := vv_target_poses v ++ [target_pose];
        vv_latents := vv_latents v ++ [latent_2] |}))))))).

(** What [main] has built when the loop starts. *)
Record Setup := {
  su_save_path : string;
  su_action_vae : TrajectoryVAE (num W);
  su_train_loader : DataLoader;
  su_test_loader : DataLoader
}.

(** The variables that live across epochs. *)
Record LoopVars := {
  lv_weights : weights W;
  lv_ostate : ostate W;
  lv_best_val : float;
  lv_avg_train_losses : list float;
  lv_avg_val_losses : list float
}.

Definition checkpoint_path (save_path : string) : string :=
  os_path_join save_path ["model.pth.tar"].

(** The loop [for latent_1, target_pose in train_loader] of an epoch,
    from the lists set empty before it. *)
Definition train_pass (su : Setup) (lv : LoopVars) (epoch : nat) :
    result TrainVars :=
  foldR (train_batch (su_action_vae su) (su_train_loader su))
        (loader_batches epoch (su_train_loader su))
        {| tv_weights := lv_weights lv; tv_ostate := lv_ostate lv;
           tv_train_losses := []; tv_end_poses := [];
           tv_target_poses := []; tv_latents := [] |}.

(** The loop [for latent_1, target_pose in test_loader] of an epoch; the
    list of latents is the one the training pass has filled. *)
Definition val_pass (su : Setup) (tv : TrainVars) (epoch : nat) :
    result ValVars :=
  foldR (val_batch (su_action_vae su) (tv_weights tv) (su_test_loader su))
        (loader_batches epoch (su_test_loader su))
        {| vv_val_losses := []; vv_end_poses := [];
           vv_target_poses := []; vv_latents := tv_latents tv |}.

(** The body of [for epoch in range(args.num_epoch)]. *)
Definition epoch_body (su : Setup) (lv : LoopVars) (epoch : nat) : MW LoopVars :=
  let save_path := su_save_path su in
  (* Training *)
  let* tv := lift (train_pass su lv epoch) in
  let avg_loss := np_mean W (tv_train_losses tv) in
  let avg_train_losses := lv_avg_train_losses lv ++ [avg_loss] in
  let* train_poses := lift (np_concatenate (tv_end_poses tv)) in
  let* train_targets := lift (np_concatenate (tv_target_poses tv)) in
  (* Validation *)
  let* vv := lift (val_pass su tv epoch) in
  let avg_loss := np_mean W (vv_val_losses vv) in
  let* val_poses := lift (np_concatenate (vv_end_poses vv)) in
  let* val_targets := lift (np_concatenate (vv_target_poses vv)) in
  let* latents := lift (np_concatenate (vv_latents vv)) in
  let avg_val_losses := lv_avg_val_losses lv ++ [avg_loss] in
  let* best_val :=
    if f64_ltb avg_loss (lv_best_val lv) then
      lift (torch_save W (tv_weights tv) (checkpoint_path save_path)) ;;;
      write_file (checkpoint_path save_path) (Checkpoint (tv_weights tv)) ;;;
      ret avg_loss
    else ret (lv_best_val lv) in
  plot_scatter train_poses train_targets
               (os_path_join save_path ["train_scatter.png"]) ;;;
  plot_scatter val_poses val_targets
               (os_path_join save_path ["val_scatter.png"]) ;;;
  let* poses := lift (np_concatenate [train_poses; val_poses]) in
  let* targets := lift (np_concatenate [train_targets; val_targets]) in
  plot_scatter poses targets (os_path_join save_path ["full_scatter.png"]) ;;;
  plot_latent_distributions latents
               (os_path_join save_path ["latents_distribution.png"]) ;;;
  plot_loss avg_train_losses avg_val_losses "Avg mse"
            (os_path_join save_path ["avg_mse.png"]) ;;;
  plot_loss (map (np_log W) avg_train_losses) (map (np_log W) avg_val_losses)
            "Avg mse in log scale"
            (os_path_join save_path ["avg_log_mse.png"]) ;;;
  ret {| lv_weights := tv_weights tv; lv_ostate := tv_ostate tv;
         lv_best_val := best_val;
         lv_avg_train_losses := avg_train_losses;
         lv_avg_val_losses := avg_val_losses |}.

(** The first [n] iterations of the loop. *)
Definition run_epochs (su : Setup) (n : nat) (lv : LoopVars) : MW LoopVars :=
  foldM (epoch_body su) (seq 0 n) lv.

(** ** main *)

(** Everything [main] does before the loop. *)
Definition setup (args : Args) : MW (Setup * LoopVars) :=
  let save_path := os_path_join "../policy_log" [policy_name args] in
  save_arguments args save_path ;;;
  (if 0 <? model_index args then ret tt
   else raise (Exn Script AssertionError)) ;;;
  let* action_vae :=
    lift (ROSTrajectoryVAE W (vae_name args) (latent_dim args)
            (num_actions args) (model_index args) (num_joints args)
            (BEHAVIOUR_ROOT W)) in
  let* policy := lift (Predictor W (g_latent args) (latent_dim args)) in
  let* optimizer := lift (Adam W policy (lr args)) in
  let* dataset := lift (load_dataset (g_name args) (debug args)) in
  let len := Z.of_nat (length dataset) in
  let* train_size := lift (train_size_of len) in
  let test_size := len - train_size in
  let* (trainset, testset) := lift (random_split dataset train_size test_size) in
  let* train_loader :=
    lift (new_DataLoader trainset (batch_size args) true (num_processes args)) in
  let* test_loader :=
    lift (new_DataLoader testset (Z.of_nat (subset_len testset)) false 0) in
  ret ({| su_save_path := save_path; su_action_vae := action_vae;
          su_train_loader := train_loader; su_test_loader := test_loader |},
       {| lv_weights := policy; lv_ostate := optimizer;
          lv_best_val := np_inf;
          lv_avg_train_losses := []; lv_avg_val_losses := [] |}).

(** [main(args)]; the result is the value of the loop's variables when it
    ends, which Python drops. *)
Definition main (args : Args) : MW LoopVars :=
  let* (su, lv) := setup args in
  run_epochs su (Z.to_nat (num_epoch args)) lv.

End Script.

(** ** A small concrete world, for running the script *)

Module Toy.

Definition f64_add : float → float → float := SFadd 53 1024.
Definition f64_div : float → float → float := SFdiv 53 1024.

Definition mean (l : list float) : float :=
  f64_div (fold_left f64_add l (S754_zero false))
          (float_of_int (Z.of_nat (length l))).

Definition to_int (x : float) : Z :=
  match int_of_float x with
  | Ok z => z
  | Raise _ => 0
  end.

Definition sum_sq (a b : list (list Z)) : Z :=
  foldr Z.add 0
    (zip_with (λ x y, (x - y) * (x - y)) (concat a) (concat b)).

(** What the models raise on a tensor of the wrong shape. *)
Definition runtime_error : exn := Exn Library (OtherError "RuntimeError").

Definition rows_of (k : nat) (t : list (list Z)) : bool :=
  forallb (λ r, Nat.eqb (length r) k) t.

Definition same_shape (a b : list (list Z)) : bool :=
  Nat.eqb (length a) (length b)
  && forallb (λ ab, Nat.eqb (length ab.1) (length ab.2)) (zip a b).

(** A policy of two outputs: the first two inputs, shifted by the weight. *)
Definition policy (w : Z) (t : list (list Z)) : list (list Z) :=
  map (λ row, match row with
              | a :: b :: _ => [w + a; w + b]
              | _ => [w; w]
              end) t.

Definition vae : TrajectoryVAE Z := {|
  vae_decoder := λ t, Ok t;
  vae_to_trajectory := λ t, Ok (map (map (λ x, [x; x + 1])) t)
|}.

(** A world around the outcome [load] of reading the stored file and the
    outcome [vae_load] of loading the trajectory model. The integers drawn
    in debug mode are given by [draws], the float of a loss by [item_of].
    The policy takes latents of two components and the loss takes poses
    and targets of one shape; both raise on anything else. *)
Definition world
    (load : result (list (list (list float)) * list (list float)))
    (vae_load : result (TrajectoryVAE Z)) (draws : Z → Z → nat → list Z)
    (item_of : Z → float) : World := {|
  num := Z; angle := Z; weights := Z; ostate := nat;
  GIBSON_ROOT := "/gibson"; BEHAVIOUR_ROOT := "/behaviour";
  MIN_ANGLE := 0; MAX_ANGLE := 1;
  angle_sub := Z.sub; scale := Z.mul; shift := Z.add;
  np_load := λ _, load;
  random_integers := draws;
  np_mean := mean;
  np_log := λ x, x;
  torch_Tensor := to_int;
  randperm := λ n, seq 0 n;
  sampler_order := λ _ n, seq 0 n;
  torch_load := λ _, Ok 0;
  load_state_dict := λ _ state, Ok state;
  Adam := λ _ _, Ok O;
  backward_step := λ _ w o, (w + 1, S o);
  mse_loss := λ a b, if same_shape a b then Ok (sum_sq a b)
                     else Raise runtime_error;
  item := item_of;
  ROSTrajectoryVAE := λ _ _ _ _ _ _, vae_load;
  Predictor := λ _ _, Ok 0;
  policy_forward := λ _ w t, if rows_of 2 t then Ok (policy w t)
                             else Raise runtime_error;
  end_effector_pose := λ t, Ok (map (λ row, [foldr Z.add 0 row; 0; 1]) t);
  os_makedirs := λ _, Ok tt;
  open_write := λ _, Ok tt;
  torch_save := λ _ _, Ok tt;
  plt_scatter := λ x y, if Nat.eqb (length x) (length y) then Ok tt
                        else lib_error ValueError;
  plt_hist := λ _, Ok tt;
  plt_plot := λ _, Ok tt;
  plt_savefig := λ _, Ok tt
|}.

(** A stored file of [n] samples: latents of shape (n, 1, 2) and
    targets of shape (n, 3). *)
Definition stored_latents (n : nat) : list (list (list float)) :=
  map (λ i, [[float_of_int (Z.of_nat i); float_of_int 1]]) (seq 0 n).
Definition stored_targets (n : nat) : list (list float) :=
  map (λ i, [float_of_int (Z.of_nat i); float_of_int 0; float_of_int 1])
      (seq 0 n).

Definition args (epochs index : Z) (dbg : bool) : Args := {|
  vae_name := "model_v1"; latent_dim := 2; num_joints := 2;
  num_actions := 2; duration := VInt 10; conv := false;
  conv_channel := 2; kernel_row := 4; model_index := index;
  policy_name := "toy"; num_epoch := epochs; num_params := 128;
  batch_size := 2;
  lr := S754_finite false 4611686018427388 (-62);
  train := true; num_processes := 0; fixed_camera := false;
  g_name := "rgb_model_v1"; g_latent := 2; cup_id := 1;
  clutter_env := false; two_cups := false; debug := dbg
|}.

Definition empty_disk : disk Z Z := Disk ∅ [].

(** The tensors [load_dataset] makes of the stored samples. *)
Definition dataset_of (n : nat) : list (list Z * list Z) :=
  zip (map (λ i, [Z.of_nat i; 1]) (seq 0 n))
      (map (λ i, [Z.of_nat i; 0; 1]) (seq 0 n)).

(** Random integers that are all the lower, or all the upper bound. *)
Definition draw_low (lo hi : Z) (n : nat) : list Z := replicate n lo.
Definition draw_high (lo hi : Z) (n : nat) : list Z := replicate n hi.

(** The float of a loss, and the same with one value made NaN. *)
Definition item_plain (z : Z) : float := float_of_int z.
Definition item_nan_at (bad z : Z) : float :=
  if z =? bad then np_nan else float_of_int z.

(** A world with [n] stored samples. *)
Definition world_of (n : nat) : World :=
  world (Ok (stored_latents n, stored_targets n)) (Ok vae) draw_low item_plain.

(** The same, with other integers drawn in debug mode. *)
Definition world_drawing (n : nat) (draws : Z → Z → nat → list Z) : World :=
  world (Ok (stored_latents n, stored_targets n)) (Ok vae) draws item_plain.

(** The same, with NaN for the loss [bad]. *)
Definition world_nan (n : nat) (bad : Z) : World :=
  world (Ok (stored_latents n, stored_targets n)) (Ok vae) draw_low
        (item_nan_at bad).

(** A world with [n] stored samples whose latents have [g] components and
    whose targets have [c] coordinates. *)
Definition world_shaped (n g c : nat) : World :=
  world (Ok (map (λ i, [replicate g (float_of_int (Z.of_nat i))]) (seq 0 n),
             map (λ i, replicate c (float_of_int (Z.of_nat i))) (seq 0 n)))
        (Ok vae) draw_low item_plain.

(** What [main] has built in that world for four samples of two
    components whose targets have two coordinates. *)
Definition dataset_shaped : list (list Z * list Z) :=
  zip (map (λ i, replicate 2 (Z.of_nat i)) (seq 0 4))
      (map (λ i, replicate 2 (Z.of_nat i)) (seq 0 4)).

Definition setup_shaped : Setup (world_shaped 4 2 2) :=
  Build_Setup (world_shaped 4 2 2) "../policy_log/toy" vae
    (Build_DataLoader (world_shaped 4 2 2)
       (Build_Subset (world_shaped 4 2 2) dataset_shaped [0; 1]%nat) 2 true)
    (Build_DataLoader (world_shaped 4 2 2)
       (Build_Subset (world_shaped 4 2 2) dataset_shaped [2; 3]%nat) 2 false).

Definition loop_vars_shaped : LoopVars (world_shaped 4 2 2) :=
  Build_LoopVars (world_shaped 4 2 2) 0 O np_inf [] [].

(** A loader over the first two of four samples, and the variables of a
    training pass and of a validation pass before their first batch. *)
Definition loader : DataLoader (world_of 4) :=
  Build_DataLoader (world_of 4)
    (Build_Subset (world_of 4) (dataset_of 4) [0; 1]%nat) 2 true.

Definition train_vars : TrainVars (world_of 4) :=
  Build_TrainVars (world_of 4) 0 O [] [] [] [].

Definition val_vars : ValVars (world_of 4) :=
  Build_ValVars (world_of 4) [] [] [] [].

(** What [main] has built for four samples when its loop starts. *)
Definition test_loader : DataLoader (world_of 4) :=
  Build_DataLoader (world_of 4)
    (Build_Subset (world_of 4) (dataset_of 4) [2; 3]%nat) 2 false.

Definition setup_of : Setup (world_of 4) :=
  Build_Setup (world_of 4) "../policy_log/toy" vae loader test_loader.

Definition loop_vars : LoopVars (world_of 4) :=
  Build_LoopVars (world_of 4) 0 O np_inf [] [].

(** A world in which neither the dataset nor the model file exists. *)
Definition file_not_found : exn := Exn Library (OtherError "FileNotFoundError").
Definition world_missing : World :=
  world (Raise file_not_found) (Raise file_not_found) draw_low item_plain.

(** A world in which only the dataset is missing. *)
Definition world_no_data : World :=
  world (Raise file_not_found) (Ok vae) draw_low item_plain.

End Toy.

(** ** Notions the properties are stated with *)

(** What a record of the rounding shifter stands for after shifting the
    integer [M] by [j] bits: the quotient, the bit below it, and whether
    anything is left under that bit. *)
Definition shifted (j : Z) (M : Z) (mrs : shr_record) : Prop :=
  ∃ low, M = shr_m mrs * 2 ^ j + (if shr_r mrs then 2 ^ (j - 1) else 0) + low
         ∧ 0 ≤ low < 2 ^ (j - 1)
         ∧ (shr_s mrs = true ↔ 0 < low)
         ∧ 0 ≤ shr_m mrs.

Section Notions.
Context {weights num : Type}.

(** The paths written between two states of the disk. *)
Definition writes_between (d d' : disk weights num) : list string :=
  take (length (written d') - length (written d))%nat (written d').

Definition saved_in (d d' : disk weights num) (path : string) : Prop :=
  path ∈ writes_between d d'.

Definition has_file (d : disk weights num) (path : string) : Prop :=
  is_Some (files d !! path).

(** Every exception of a computation satisfies [P]. *)
Definition raises_only {A} (P : exn → Prop) (m : M weights num A) : Prop :=
  ∀ d d' e, m d = (d', Raise e) → P e.

(** The disk [d'] is [d] after writes to [paths] only: the paths written
    since are among them, every other file is as it was, and no file is
    gone. *)
Definition extends_within (paths : list string) (d d' : disk weights num) : Prop :=
  (∃ ws, written d' = ws ++ written d ∧ Forall (λ p, p ∈ paths) ws)
  ∧ (∀ p, p ∉ paths → files d' !! p = files d !! p)
  ∧ (∀ p, has_file d p → has_file d' p).

(** A computation that writes to [paths] only, whatever it returns. *)
Definition touches_only {A} (paths : list string) (m : M weights num A) : Prop :=
  ∀ d, extends_within paths d (m d).1.
End Notions.

(** The files of an epoch, and all the files of a run, in a directory. *)
Definition epoch_files (dir : string) : list string :=
  map (λ name, os_path_join dir [name])
    [ "model.pth.tar"; "train_scatter.png"; "val_scatter.png";
      "full_scatter.png"; "latents_distribution.png"; "avg_mse.png";
      "avg_log_mse.png" ].

Definition output_files (dir : string) : list string :=
  os_path_join dir ["arguments.txt"] :: epoch_files dir.

(** The disk after a file is written. *)
Definition with_file {weights num} (path : string) (f : file weights num)
    (d : disk weights num) : disk weights num :=
  Disk (<[path := f]> (files d)) (path :: written d).

(** The directory and the files [main] works with. *)
Definition save_dir (args : Args) : string :=
  os_path_join "../policy_log" [policy_name args].

Definition arguments_path (args : Args) : string :=
  os_path_join (save_dir args) ["arguments.txt"].

Definition dataset_path (W : World) (args : Args) : string :=
  os_path_join (GIBSON_ROOT W) ["log"; g_name args; "mujoco_latents/latents.pkl"].

Definition vae_of (W : World) (args : Args) : result (TrajectoryVAE (num W)) :=
  ROSTrajectoryVAE W (vae_name args) (latent_dim args) (num_actions args)
    (model_index args) (num_joints args) (BEHAVIOUR_ROOT W).

(** The least of the losses seen so far, as [best_val] keeps it: a loss
    replaces it only when the comparison [<] says so. *)
Definition running_best (losses : list float) : float :=
  fold_left (λ best l, if f64_ltb l best then l else best) losses np_inf.

(** Floats that are numbers, ranked so that [<] on floats is the
    lexicographic order of the ranks; NaN has no rank. *)
Definition rank (x : float) : option (Z * Z * Z) :=
  match x with
  | S754_nan => None
  | S754_zero _ => Some (0, 0, 0)
  | S754_infinity false => Some (2, 0, 0)
  | S754_infinity true => Some (-2, 0, 0)
  | S754_finite false m e => Some (1, e, Zpos m)
  | S754_finite true m e => Some (-1, - e, - Zpos m)
  end.

Definition lex_lt (a b : Z * Z * Z) : Prop :=
  a.1.1 < b.1.1
  ∨ (a.1.1 = b.1.1 ∧ (a.1.2 < b.1.2 ∨ (a.1.2 = b.1.2 ∧ a.2 < b.2))).

(** What can be seen of a result: its exception, and the validation
    losses the loop has recorded. *)
Definition exception_of {A} (r : result A) : option exn :=
  match r with
  | Ok _ => None
  | Raise e => Some e
  end.

Definition val_losses_of {W : World} (r : result (LoopVars W)) : option (list float) :=
  match r with
  | Ok lv => Some (lv_avg_val_losses W lv)
  | Raise _ => None
  end.

(** A result whose exception, if any, comes from a library. *)
Definition from_library {A} (r : result A) : Prop :=
  ∀ e, r = Raise e → exn_origin e = Library.

Section Contracts.
Variable W : World.

(** The loss as the specification words it: the policy output is decoded
    to a trajectory, its last joint pose is taken and unnormalised by
    [(MAX_ANGLE - MIN_ANGLE) * x + MIN_ANGLE], forward kinematics gives
    the end-effector position, and the loss is the mean-squared error
    between that position and the target. *)
Definition decoded_position (vae : TrajectoryVAE (num W)) (training : bool)
    (w : weights W) (latent_1 : tensor2 (num W)) : result (tensor2 (num W)) :=
  rbind (policy_forward W training w latent_1) (λ latent_2,
  rbind (vae_decoder vae latent_2) (λ decoded,
  rbind (vae_to_trajectory vae decoded) (λ trajectory,
  rbind (mapR (mapR (λ steps, np_index steps (-1))) trajectory) (λ last_pose,
  end_effector_pose W
    (map (map (λ x, shift W (scale W (angle_sub W (MAX_ANGLE W) (MIN_ANGLE W)) x)
                      (MIN_ANGLE W))) last_pose))))).

Definition position_loss (vae : TrajectoryVAE (num W)) (training : bool)
    (w : weights W) (latent_1 target : tensor2 (num W)) : result (num W) :=
  rbind (decoded_position vae training w latent_1) (λ position,
  mse_loss W position target).

(** The loss of one batch of positions of the loader [dl] under the
    weights [w], in training mode or not, as a float. *)
Definition batch_loss_of (vae : TrajectoryVAE (num W)) (training : bool)
    (w : weights W) (dl : DataLoader W) (positions : list nat) : result float :=
  rbind (fetch_batch W dl positions) (λ b,
  rbind (position_loss vae training w b.1 b.2) (λ loss, Ok (item W loss))).

(** The average validation loss of an epoch under the weights [w]: the
    mean of the losses of the batches the test loader yields in it. *)
Definition avg_val_loss (su : Setup W) (w : weights W) (epoch : nat) :
    result float :=
  rbind (mapR (batch_loss_of (su_action_vae W su) false w (su_test_loader W su))
              (loader_batches W epoch (su_test_loader W su)))
        (λ losses, Ok (np_mean W losses)).

(** What is predicted for one batch of positions of the loader [dl] under
    the weights [w]: the positions decoded from the batch's latents, beside
    the batch's targets. *)
Definition prediction_of (vae : TrajectoryVAE (num W)) (w : weights W)
    (dl : DataLoader W) (positions : list nat) :
    result (tensor2 (num W) * tensor2 (num W)) :=
  rbind (fetch_batch W dl positions) (λ b,
  rbind (decoded_position vae false w b.1) (λ end_pose, Ok (end_pose, b.2))).

(** The arguments file of a run can be written. *)
Definition arguments_writable (args : Args) : Prop :=
  os_makedirs W (save_dir args) = Ok tt
  ∧ open_write W (arguments_path args) = Ok tt.

Definition vae_raises_library (vae : TrajectoryVAE (num W)) : Prop :=
  ∀ x, from_library (vae_decoder vae x) ∧ from_library (vae_to_trajectory vae x).

(** The shape of a stored file: latents of [dim] components in the first
    slice of the middle axis, and targets of three coordinates. *)
Definition stored_shape (dim : nat) (latents : list (list (list float)))
    (targets : list (list float)) : Prop :=
  Forall (λ s, ∃ first rest, s = first :: rest ∧ length first = dim) latents
  ∧ Forall (λ t, length t = 3%nat) targets.

Definition element_shape (dim : nat) (e : tensor1 (num W) * tensor1 (num W)) : Prop :=
  length e.1 = dim ∧ length e.2 = 3%nat.

(** The element made of a stored sample and its target: the first slice
    of the sample along its middle axis and the target, as tensors. *)
Definition element_of (s : list (list float)) (t : list float) :
    option (tensor1 (num W) * tensor1 (num W)) :=
  match s with
  | first :: _ => Some (map (torch_Tensor W) first, map (torch_Tensor W) t)
  | [] => None
  end.

(** Libraries raise their own exceptions. *)
Record library_raises : Prop := {
  lr_np_load : ∀ p, from_library (np_load W p);
  lr_torch_load : ∀ p, from_library (torch_load W p);
  lr_load_state_dict : ∀ m st, from_library (load_state_dict W m st);
  lr_Adam : ∀ w l, from_library (Adam W w l);
  lr_mse_loss : ∀ a b, from_library (mse_loss W a b);
  lr_vae : ∀ a b c d e f, from_library (ROSTrajectoryVAE W a b c d e f);
  lr_vae_model : ∀ a b c d e f vae, ROSTrajectoryVAE W a b c d e f = Ok vae →
    vae_raises_library vae;
  lr_Predictor : ∀ a b, from_library (Predictor W a b);
  lr_policy : ∀ b w x, from_library (policy_forward W b w x);
  lr_fk : ∀ x, from_library (end_effector_pose W x);
  lr_makedirs : ∀ p, from_library (os_makedirs W p);
  lr_open : ∀ p, from_library (open_write W p);
  lr_torch_save : ∀ w p, from_library (torch_save W w p);
  lr_scatter : ∀ x y, from_library (plt_scatter W x y);
  lr_hist : ∀ x, from_library (plt_hist W x);
  lr_plot : ∀ x, from_library (plt_plot W x);
  lr_savefig : ∀ p, from_library (plt_savefig W p)
}.

(** An array whose rows have [k] entries each. *)
Definition rows (k : nat) (a : tensor2 (num W)) : Prop :=
  Forall (λ r, length r = k) a.

(** Models that accept the batches of a run and keep their shape. A batch
    is a non-empty array of latents of [G] components. Of such a batch the
    policy gives one latent of [L] components per sample, of values that
    satisfy [P]; the decoding gives one pose of three coordinates per
    sample; and the loss takes poses and targets of one shape. Nothing is
    asked of the models on tensors of another shape. *)
Record models_ok (vae : TrajectoryVAE (num W)) (G L : nat) (P : num W → Prop) :
    Prop := {
  mo_policy : ∀ b w x, x ≠ [] → rows G x →
    ∃ y, policy_forward W b w x = Ok y
         ∧ length y = length x ∧ rows L y ∧ Forall (Forall P) y;
  mo_pose : ∀ b w x, x ≠ [] → rows G x →
    ∃ p, decoded_position vae b w x = Ok p ∧ length p = length x ∧ rows 3 p;
  mo_mse : ∀ p t, p ≠ [] → length p = length t → rows 3 p → rows 3 t →
    ∃ l, mse_loss W p t = Ok l
}.

(** The directory [dir] can be written, and matplotlib takes what the
    script gives it: two columns of one length to [scatter], a non-empty
    column of values that satisfy [P] to [hist] (it refuses infinite
    values), any list of values to [plot]. *)
Record output_ok (dir : string) (P : num W → Prop) : Prop := {
  oo_makedirs : os_makedirs W dir = Ok tt;
  oo_open : open_write W (os_path_join dir ["arguments.txt"]) = Ok tt;
  oo_torch_save : ∀ w, torch_save W w (os_path_join dir ["model.pth.tar"]) = Ok tt;
  oo_scatter : ∀ x y, length x = length y → plt_scatter W x y = Ok tt;
  oo_hist : ∀ x, x ≠ [] → Forall P x → plt_hist W x = Ok tt;
  oo_plot : ∀ x, plt_plot W x = Ok tt;
  oo_savefig : ∀ name, plt_savefig W (os_path_join dir [name]) = Ok tt
}.

(** Models that give one row per sample of the batch. *)
Record rows_kept (vae : TrajectoryVAE (num W)) : Prop := {
  rk_policy : ∀ b w x y, policy_forward W b w x = Ok y → length y = length x;
  rk_decoder : ∀ x y, vae_decoder vae x = Ok y → length y = length x;
  rk_to_trajectory : ∀ x y, vae_to_trajectory vae x = Ok y → length y = length x;
  rk_fk : ∀ x y, end_effector_pose W x = Ok y → length y = length x
}.

(** A batch of positions the loader can fetch: it is not empty, its
    latents have [G] components and its targets three coordinates. *)
Definition batch_ok (G : nat) (dl : DataLoader W) (positions : list nat) : Prop :=
  ∃ latent_1 target,
    fetch_batch W dl positions = Ok (latent_1, target)
    ∧ latent_1 ≠ [] ∧ rows G latent_1
    ∧ length target = length latent_1 ∧ rows 3 target.

(** A loader that yields at least one batch in every epoch, all of them
    fetchable. *)
Definition loader_ok (G : nat) (dl : DataLoader W) : Prop :=
  ∀ epoch, loader_batches W epoch dl ≠ []
           ∧ Forall (batch_ok G dl) (loader_batches W epoch dl).

(** What the loop needs of what [main] has built. *)
Record loop_ready (su : Setup W) (G L : nat) (P : num W → Prop) : Prop := {
  rd_width : (2 ≤ L)%nat;
  rd_models : models_ok (su_action_vae W su) G L P;
  rd_output : output_ok (su_save_path W su) P;
  rd_train : loader_ok G (su_train_loader W su);
  rd_test : loader_ok G (su_test_loader W su)
}.

(** Arrays of poses, of targets and of latents as the plots need them. *)
Definition wide (a : tensor2 (num W)) : Prop := Forall (λ r, (2 ≤ length r)%nat) a.
Definition latent_rows (L : nat) (P : num W → Prop) (a : tensor2 (num W)) : Prop :=
  a ≠ [] ∧ rows L a ∧ Forall (Forall P) a.

(** The lists a pass collects are fit for concatenation and plotting, and
    hold at least [n] arrays each. *)
Definition collected (L : nat) (P : num W → Prop)
    (end_poses target_poses latents : list (tensor2 (num W))) (n : nat) : Prop :=
  Forall (rows 3) end_poses ∧ Forall (rows 3) target_poses
  ∧ Forall (latent_rows L P) latents
  ∧ (n ≤ length end_poses)%nat ∧ (n ≤ length target_poses)%nat
  ∧ (n ≤ length latents)%nat.

(** A fixture on which the script is meant to run. The model index and
    the batch size are positive, the number of worker processes is not
    negative and [--debug] is off. The model files load. The stored file
    loads and holds between two and 2^48 samples, one target of three
    coordinates per latent, each latent with [--g-latent] components in the
    first slice of its middle axis. The models accept batches of that
    shape, the policy giving [--latent-dim] components, at least two, of
    values the histogram accepts. The output directory can be written. *)
Record fixture_ok (args : Args) : Prop := {
  fx_random : random_ok W;
  fx_model_index : 0 < model_index args;
  fx_batch_size : 0 < batch_size args;
  fx_num_processes : 0 ≤ num_processes args;
  fx_no_debug : debug args = false;
  fx_latent_dim : 2 ≤ latent_dim args;
  fx_models : ∃ vae P,
    vae_of W args = Ok vae
    ∧ models_ok vae (Z.to_nat (g_latent args)) (Z.to_nat (latent_dim args)) P
    ∧ output_ok (save_dir args) P;
  fx_policy : ∃ w o,
    Predictor W (g_latent args) (latent_dim args) = Ok w
    ∧ Adam W w (lr args) = Ok o;
  fx_data : ∃ latents targets,
    np_load W (dataset_path W args) = Ok (latents, targets)
    ∧ length latents = length targets
    ∧ 2 ≤ Z.of_nat (length latents) < 2 ^ 48
    ∧ stored_shape (Z.to_nat (g_latent args)) latents targets
}.
End Contracts.

(** * Properties *)

(** ** Rounding in binary64 *)

Section ShiftRight.

Lemma digits2_pos_bounds (p : positive) :
  2 ^ (Zpos (digits2_pos p) - 1) ≤ Zpos p < 2 ^ Zpos (digits2_pos p).
Proof.
  induction p as [p IH|p IH|]; simpl digits2_pos.
  - rewrite Pos2Z.inj_succ. replace (Z.succ (Zpos (digits2_pos p)) - 1) with (Z.succ (Zpos (digits2_pos p) - 1)) by lia.
    rewrite !Z.pow_succ_r by lia. lia.
  - rewrite Pos2Z.inj_succ. replace (Z.succ (Zpos (digits2_pos p)) - 1) with (Z.succ (Zpos (digits2_pos p) - 1)) by lia.
    rewrite !Z.pow_succ_r by lia. lia.
  - simpl. lia.
Qed.

Lemma iter_pos_nat {A} (f : A → A) (p : positive) (x : A) :
  SpecFloat.iter_pos f p x = Nat.iter (Pos.to_nat p) f x.
Proof.
  revert x. induction p as [p IH|p IH|]; intros x; cbn [SpecFloat.iter_pos].
  - rewrite !IH. rewrite Pos2Nat.inj_xI.
    replace (S (2 * Pos.to_nat p)) with (Pos.to_nat p + S (Pos.to_nat p))%nat by lia.
    rewrite Nat.iter_add. f_equal. rewrite Nat.iter_succ_r. done.
  - rewrite !IH. rewrite Pos2Nat.inj_xO.
    replace (2 * Pos.to_nat p)%nat with (Pos.to_nat p + Pos.to_nat p)%nat by lia.
    by rewrite Nat.iter_add.
  - done.
Qed.

Lemma shr_1_halves (m : Z) (r s : bool) :
  0 ≤ m →
  ∃ m' b, shr_1 (Build_shr_record m r s) = Build_shr_record m' b (r || s)
          ∧ m = 2 * m' + (if b then 1 else 0) ∧ 0 ≤ m'.
Proof.
  intros Hm. destruct m as [|[p|p|]|]; try lia; simpl.
  - exists 0, false. repeat split; lia.
  - exists (Zpos p), true. repeat split; lia.
  - exists (Zpos p), false. repeat split; lia.
  - exists 0, true. repeat split; lia.
Qed.

Lemma pow2_step (j : Z) : 0 ≤ j → 2 ^ (j + 1) = 2 * 2 ^ j.
Proof. intros Hj. rewrite Z.pow_add_r by lia. lia. Qed.

Lemma shr_1_first (M : Z) :
  0 ≤ M → shifted 1 M (shr_1 (Build_shr_record M false false)).
Proof.
  intros HM. destruct (shr_1_halves M false false HM) as (m' & b & -> & HMeq & Hm').
  exists 0. simpl. change (2 ^ 1) with 2. change (2 ^ (1 - 1)) with 1.
  repeat split; try lia; try discriminate.
Qed.

Lemma shr_1_next (j M : Z) (mrs : shr_record) :
  1 ≤ j → shifted j M mrs → shifted (j + 1) M (shr_1 mrs).
Proof.
  intros Hj (low & HM & Hlow & Hs & Hm).
  destruct mrs as [m r s]; simpl in HM, Hs, Hm.
  destruct (shr_1_halves m r s Hm) as (m' & b & -> & Hmeq & Hm').
  pose proof (pow2_step j ltac:(lia)) as H3.
  pose proof (pow2_step (j - 1) ltac:(lia)) as H2.
  replace (j - 1 + 1) with j in H2 by lia.
  assert (Hpos : 0 < 2 ^ (j - 1)) by (apply Z.pow_pos_nonneg; lia).
  exists ((if r then 2 ^ (j - 1) else 0) + low). simpl.
  replace (j + 1 - 1) with j by lia.
  split; [|split; [|split]].
  - rewrite HM, H3, Hmeq. destruct b; lia.
  - destruct r; lia.
  - destruct r; simpl; [split; [lia|done]|].
    rewrite Hs. lia.
  - done.
Qed.

Lemma shr_iter (k : nat) (M : Z) :
  0 ≤ M →
  shifted (Z.of_nat (S k)) M (Nat.iter (S k) shr_1 (Build_shr_record M false false)).
Proof.
  intros HM. induction k as [|k IH].
  - by apply shr_1_first.
  - rewrite Nat.iter_succ. replace (Z.of_nat (S (S k))) with (Z.of_nat (S k) + 1) by lia.
    apply shr_1_next; [lia|done].
Qed.

Lemma shr_pos (p : positive) (M e : Z) :
  0 ≤ M →
  ∃ mrs, shr (Build_shr_record M false false) e (Zpos p) = (mrs, e + Zpos p)
         ∧ shifted (Zpos p) M mrs.
Proof.
  intros HM. eexists. split; [done|]. simpl.
  rewrite iter_pos_nat.
  destruct (Pos2Nat.is_succ p) as [k Hk]. rewrite Hk.
  replace (Zpos p) with (Z.of_nat (S k)) by lia.
  by apply shr_iter.
Qed.

(** Rounding to nearest moves the shifted value by at most half a unit. *)
Lemma round_nearest_even_close (j M : Z) (mrs : shr_record) :
  1 ≤ j → shifted j M mrs →
  let q := round_nearest_even (shr_m mrs) (loc_of_shr_record mrs) in
  shr_m mrs ≤ q ≤ shr_m mrs + 1 ∧
  2 * M - 2 ^ j ≤ 2 * (q * 2 ^ j) ≤ 2 * M + 2 ^ j.
Proof.
  intros Hj (low & HM & Hlow & Hs & Hm).
  assert (H2 : 2 ^ j = 2 * 2 ^ (j - 1)).
  { replace j with (Z.succ (j - 1)) at 1 by lia. rewrite Z.pow_succ_r; lia. }
  destruct mrs as [m r s]; simpl in *.
  destruct r, s; simpl.
  - lia.
  - assert (low = 0) by (destruct (Z.eq_dec low 0); [done|]; destruct Hs as [_ Hs]; assert (0 < low) by lia; specialize (Hs H); discriminate).
    destruct (Z.even m); lia.
  - lia.
  - lia.
Qed.
End ShiftRight.

Section Binary64.

Lemma digits2_pos_unique (p : positive) (k : Z) :
  2 ^ (k - 1) ≤ Zpos p < 2 ^ k → Zpos (digits2_pos p) = k.
Proof.
  intros [Hlo Hhi]. pose proof (digits2_pos_bounds p) as [Dlo Dhi].
  set (d := Zpos (digits2_pos p)) in *.
  assert (0 < d) by (subst d; lia).
  destruct (Z.lt_trichotomy d k) as [Hlt|[Heq|Hgt]]; [|done|].
  - assert (2 ^ d ≤ 2 ^ (k - 1)) by (apply Z.pow_le_mono_r; lia). lia.
  - assert (k ≤ 0 ∨ 0 < k) as [Hk|Hk] by lia.
    + assert (2 ^ k ≤ 2 ^ 0) by (apply Z.pow_le_mono_r_iff; lia).
      change (2 ^ 0) with 1 in *. lia.
    + assert (2 ^ k ≤ 2 ^ (d - 1)) by (apply Z.pow_le_mono_r; lia). lia.
Qed.

Lemma fexp_above (e : Z) : -1021 ≤ e → fexp 53 1024 e = e - 53.
Proof. intros He. unfold fexp, emin. lia. Qed.

(** A mantissa of 53 bits is left as it is. *)
Lemma binary_round_aux_canonical (sx : bool) (m : positive) (e : Z) :
  Zpos (digits2_pos m) = 53 → -1074 ≤ e ≤ 971 →
  binary_round_aux 53 1024 sx (Zpos m) e loc_Exact = S754_finite sx m e.
Proof.
  intros Hd He.
  assert (Hsh : shr_fexp 53 1024 (Zpos m) e loc_Exact
                = (Build_shr_record (Zpos m) false false, e)).
  { unfold shr_fexp. cbn [Zdigits2]. rewrite Hd, fexp_above by lia.
    replace (53 + e - 53 - e) with 0 by lia. done. }
  unfold binary_round_aux. rewrite Hsh. cbn [shr_m loc_of_shr_record round_nearest_even].
  rewrite Hsh. cbn [shr_m].
  replace (e <=? 1024 - 53) with true by (symmetry; apply Z.leb_le; lia). done.
Qed.

(** The product of two mantissas is rounded to 53 bits, to the nearest. *)
Lemma binary_round_aux_exact (P : positive) (ex : Z) :
  let D := Zpos (digits2_pos P) in
  let s := D - 53 in
  54 ≤ D → -1021 ≤ D + ex ≤ 1023 →
  ∃ m e, binary_round_aux 53 1024 false (Zpos P) ex loc_Exact
           = S754_finite false m e
         ∧ ex + s ≤ e ≤ ex + s + 1
         ∧ 2 * Zpos P - 2 ^ s ≤ 2 * (Zpos m * 2 ^ (e - ex)) ≤ 2 * Zpos P + 2 ^ s.
Proof.
  intros D s HD A.
  pose proof (digits2_pos_bounds P) as [Plo Phi]. fold D in Plo, Phi.
  assert (Hs : ∃ sp, s = Zpos sp) by (destruct s eqn:E; try lia; eauto).
  destruct Hs as [sp Hsp].
  destruct (shr_pos sp (Zpos P) ex ltac:(lia)) as (mrs & Hshr & Hshifted).
  assert (Hsh : shr_fexp 53 1024 (Zpos P) ex loc_Exact = (mrs, ex + s)).
  { unfold shr_fexp. cbn [Zdigits2 shr_record_of_loc]. fold D.
    rewrite fexp_above by lia.
    replace (D + ex - 53 - ex) with (Zpos sp) by lia. by rewrite Hshr, Hsp. }
  rewrite <- Hsp in Hshifted.
  pose proof (round_nearest_even_close s (Zpos P) mrs ltac:(lia) Hshifted) as Hq.
  cbv zeta in Hq.
  set (q := round_nearest_even (shr_m mrs) (loc_of_shr_record mrs)) in *.
  destruct Hq as [Hq1 Hq2].
  destruct Hshifted as (low & HP & Hlow & _ & Hm0).
  assert (Hpow : 0 < 2 ^ s) by (apply Z.pow_pos_nonneg; lia).
  assert (HpowD : 2 ^ D = 2 ^ 53 * 2 ^ s).
  { rewrite <- Z.pow_add_r by lia. f_equal. lia. }
  assert (HpowD1 : 2 ^ (D - 1) = 2 ^ 52 * 2 ^ s).
  { rewrite <- Z.pow_add_r by lia. f_equal. lia. }
  assert (Hhalf : 2 ^ s = 2 * 2 ^ (s - 1)).
  { rewrite <- (pow2_step (s - 1)) by lia. f_equal. lia. }
  assert (Hm0lo : 2 ^ 52 ≤ shr_m mrs).
  { apply Z.lt_succ_r. apply (Z.mul_lt_mono_pos_r (2 ^ s)); [done|].
    destruct (shr_r mrs); lia. }
  assert (Hm0hi : shr_m mrs < 2 ^ 53).
  { apply (Z.mul_lt_mono_pos_r (2 ^ s)); [done|].
    destruct (shr_r mrs); lia. }
  unfold binary_round_aux. rewrite Hsh. fold q.
  destruct q as [|qp|qp] eqn:Eq; try lia.
  assert (Zpos qp < 2 ^ 53 ∨ Zpos qp = 2 ^ 53) as [Hlt|Heq] by lia.
  - assert (Hdq : Zpos (digits2_pos qp) = 53) by (apply digits2_pos_unique; lia).
    assert (Hsh2 : shr_fexp 53 1024 (Zpos qp) (ex + s) loc_Exact
                   = (Build_shr_record (Zpos qp) false false, ex + s)).
    { unfold shr_fexp. cbn [Zdigits2]. rewrite Hdq, fexp_above by lia.
      replace (53 + (ex + s) - 53 - (ex + s)) with 0 by lia. done. }
    rewrite Hsh2. cbn [shr_m].
    replace (ex + s <=? 1024 - 53) with true by (symmetry; apply Z.leb_le; lia).
    exists qp, (ex + s). split; [done|]. split; [lia|].
    replace (ex + s - ex) with s by lia. lia.
  - assert (Hdq : Zpos (digits2_pos qp) = 54) by (apply digits2_pos_unique; lia).
    assert (Hsh2 : shr_fexp 53 1024 (Zpos qp) (ex + s) loc_Exact
                   = (Build_shr_record (2 ^ 52) false false, ex + s + 1)).
    { unfold shr_fexp. cbn [Zdigits2]. rewrite Hdq, fexp_above by lia.
      replace (54 + (ex + s) - 53 - (ex + s)) with 1 by lia.
      rewrite Heq. done. }
    rewrite Hsh2. cbn [shr_m]. change (2 ^ 52) with (Zpos 4503599627370496).
    replace (ex + s + 1 <=? 1024 - 53) with true by (symmetry; apply Z.leb_le; lia).
    eexists _, _. split; [done|]. split; [lia|].
    replace (ex + s + 1 - ex) with (s + 1) by lia.
    rewrite pow2_step by lia. change (Zpos 4503599627370496) with (2 ^ 52).
    rewrite Heq in Hq2. change (2 ^ 53) with (2 * 2 ^ 52) in Hq2. lia.
Qed.
End Binary64.

Section SplitSize.

Lemma pos_iter_xO (m k : positive) :
  Zpos (Pos.iter xO m k) = Zpos m * 2 ^ Zpos k.
Proof.
  induction k as [|k IH] using Pos.peano_ind.
  - simpl. lia.
  - rewrite Pos.iter_succ, Pos2Z.inj_xO, IH, Pos2Z.inj_succ, Z.pow_succ_r by lia. lia.
Qed.

(** [float(n)] is exact below 2^53: the mantissa is [n] shifted to 53 bits. *)
Lemma float_of_int_exact (p : positive) :
  let d := Zpos (digits2_pos p) in
  d ≤ 53 →
  ∃ mz, float_of_int (Zpos p) = S754_finite false mz (d - 53)
        ∧ Zpos mz = Zpos p * 2 ^ (53 - d)
        ∧ Zpos (digits2_pos mz) = 53.
Proof.
  intros d Hd. pose proof (digits2_pos_bounds p) as [Plo Phi]. fold d in Plo, Phi.
  assert (0 < d) by (subst d; lia).
  unfold float_of_int, binary_normalize, binary_round.
  replace (Zpos (digits2_pos p) + 0) with d by (subst d; lia).
  rewrite fexp_above by lia. unfold shl_align.
  assert (d = 53 ∨ d < 53) as [Heq|Hlt] by lia.
  - replace (d - 53 - 0) with 0 by lia.
    exists p. rewrite binary_round_aux_canonical by (fold d; lia).
    rewrite Heq. change (2 ^ (53 - 53)) with 1. split; [done|]. split; [lia|done].
  - destruct (d - 53 - 0) as [|k|k] eqn:Ek; try lia.
    assert (Hk : Zpos k = 53 - d) by lia.
    assert (Hv : Zpos (Pos.iter xO p k) = Zpos p * 2 ^ (53 - d)).
    { by rewrite pos_iter_xO, Hk. }
    assert (Hpow : 2 ^ 53 = 2 ^ d * 2 ^ (53 - d)).
    { rewrite <- Z.pow_add_r by lia. f_equal. lia. }
    assert (Hpow' : 2 ^ 52 = 2 ^ (d - 1) * 2 ^ (53 - d)).
    { rewrite <- Z.pow_add_r by lia. f_equal. lia. }
    assert (Hpos : 0 < 2 ^ (53 - d)) by (apply Z.pow_pos_nonneg; lia).
    assert (Hdig : Zpos (digits2_pos (Pos.iter xO p k)) = 53).
    { apply digits2_pos_unique. rewrite Hv. change (53 - 1) with 52.
      rewrite Hpow, Hpow'. split.
      - apply Z.mul_le_mono_nonneg_r; lia.
      - apply Z.mul_lt_mono_pos_r; lia. }
    exists (Pos.iter xO p k).
    rewrite binary_round_aux_canonical by lia.
    split; [|done]. f_equal. 
Qed.

Lemma pow2_le_exp (a b : Z) : 2 ^ a ≤ 2 ^ b → 0 ≤ b → a ≤ b.
Proof.
  intros H Hb. destruct (Z.le_gt_cases a b) as [|Hgt]; [done|].
  assert (2 ^ b < 2 ^ a) by (apply Z.pow_lt_mono_r; lia). lia.
Qed.

(** ** The size of the training set *)

(** Below 2^48 elements, [int(n * 0.7)] is the integer part of 7n/10,
    or one less when the product is rounded to just under a whole
    number, which can only happen where 7n/10 is whole. *)
Lemma train_size_bounds (n : Z) :
  1 ≤ n < 2 ^ 48 →
  ∃ k, train_size_of n = Ok k ∧ (7 * n - 1) / 10 ≤ k ≤ 7 * n / 10.
Proof.
  intros [Hn1 Hn2]. destruct n as [|p|p]; try lia.
  pose proof (digits2_pos_bounds p) as [Plo Phi].
  set (d := Zpos (digits2_pos p)) in *.
  assert (Hd0 : 0 < d) by (subst d; lia).
  assert (Hd : d ≤ 48).
  { assert (d - 1 ≤ 47); [|lia]. apply pow2_le_exp; [|lia].
    change (2 ^ 48) with (2 * 2 ^ 47) in Hn2.
    destruct (Z.le_gt_cases (2 ^ (d - 1)) (2 ^ 47)) as [|Hgt]; [done|].
    assert (2 ^ 47 < 2 ^ (d - 1)) by lia.
    assert (47 < d - 1) by (apply (Z.pow_lt_mono_r_iff 2); lia).
    assert (2 ^ 48 ≤ 2 ^ (d - 1)) by (apply Z.pow_le_mono_r; lia).
    change (2 ^ 48) with (2 * 2 ^ 47) in *. lia. }
  destruct (float_of_int_exact p ltac:(fold d; lia)) as (mz & Hf & HA & Hdz).
  fold d in Hf, HA.
  pose proof (digits2_pos_bounds mz) as [Alo Ahi]. rewrite Hdz in Alo, Ahi.
  change (53 - 1) with 52 in Alo.
  set (A := Zpos mz) in *.
  unfold train_size_of. rewrite Hf. unfold f64_mul, lit_0_7, SFmul.
  cbn [xorb].
  set (P := (mz * 6305039478318694)%positive).
  assert (HP : Zpos P = A * 6305039478318694) by (subst P A; lia).
  pose proof (digits2_pos_bounds P) as [Dlo Dhi].
  set (D := Zpos (digits2_pos P)) in *.
  assert (HD0 : 0 < D) by (subst D; lia).
  assert (HD : 105 ≤ D ≤ 106).
  { split.
    - assert (104 < D); [|lia].
      apply (Z.pow_lt_mono_r_iff 2); [lia|lia|].
      change (2 ^ 104) with (2 ^ 52 * 2 ^ 52).
      assert (2 ^ 52 * 2 ^ 52 ≤ A * 6305039478318694); [|lia].
      apply Z.mul_le_mono_nonneg; [lia|done|lia|].
      change (2 ^ 52) with 4503599627370496. lia.
    - assert (D - 1 < 106); [|lia].
      apply (Z.pow_lt_mono_r_iff 2); [lia|lia|].
      change (2 ^ 106) with (2 ^ 53 * 2 ^ 53).
      assert (A * 6305039478318694 < 2 ^ 53 * 2 ^ 53); [|lia].
      apply Z.mul_lt_mono_nonneg; [lia|done|lia|].
      change (2 ^ 53) with 9007199254740992. lia. }
  destruct (binary_round_aux_exact P (d - 53 + -53))
    as (m & e & Hr & He & Hclose); [fold D; lia|fold D; lia|].
  fold D in He, Hclose. rewrite Hr. cbn [int_of_float].
  set (s := D - 53) in *.
  set (j := e - (d - 53 + -53)) in *.
  destruct e as [|ep|ep]; try lia.
  exists (Z.shiftr (Zpos m) (Zpos ep)). split; [done|].
  rewrite Z.shiftr_div_pow2 by lia.
  set (E := Zpos ep) in *.
  set (t := Zpos m / 2 ^ E).
  assert (HEpos : 0 < 2 ^ E) by (apply Z.pow_pos_nonneg; lia).
  assert (Hjpos : 0 < 2 ^ j) by (apply Z.pow_pos_nonneg; lia).
  assert (Ht1 : t * 2 ^ E ≤ Zpos m).
  { subst t. rewrite Z.mul_comm. apply Z.mul_div_le. done. }
  assert (Ht2 : Zpos m < (t + 1) * 2 ^ E).
  { subst t. rewrite Z.mul_comm. apply Z.mul_succ_div_gt. done. }
  set (K := 2 ^ (106 - d)).
  assert (HK : K = 2 ^ j * 2 ^ E).
  { subst K. rewrite <- Z.pow_add_r by lia. f_equal. lia. }
  assert (HK58 : 2 ^ 58 ≤ K) by (apply Z.pow_le_mono_r; lia).
  assert (HnK : A * 2 ^ 53 = Zpos p * K).
  { subst K. rewrite HA. replace (106 - d) with ((53 - d) + 53) by lia.
    rewrite Z.pow_add_r by lia. lia. }
  assert (Hs53 : 2 ^ s ≤ 2 ^ 53) by (apply Z.pow_le_mono_r; lia).
  set (X := Zpos m * 2 ^ j) in *.
  assert (HX1 : t * K ≤ X).
  { subst X. rewrite HK. 
    replace (t * (2 ^ j * 2 ^ E)) with (t * 2 ^ E * 2 ^ j) by lia.
    apply Z.mul_le_mono_nonneg_r; lia. }
  assert (HX2 : X < (t + 1) * K).
  { subst X. rewrite HK.
    replace ((t + 1) * (2 ^ j * 2 ^ E)) with ((t + 1) * 2 ^ E * 2 ^ j) by lia.
    apply Z.mul_lt_mono_pos_r; lia. }
  assert (H10P : 10 * Zpos P = 7 * (Zpos p * K) - 4 * A).
  { rewrite HP, <- HnK. change (2 ^ 53) with 9007199254740992. lia. }
  change (2 ^ 58) with 288230376151711744 in HK58.
  change (2 ^ 53) with 9007199254740992 in Hs53, Ahi.
  split.
  - assert (Hlt : 7 * Zpos p - 1 < 10 * (t + 1)).
    { destruct (Z.lt_ge_cases (7 * Zpos p - 1) (10 * (t + 1))) as [|Hge]; [done|].
      exfalso.
      assert (10 * (t + 1) * K ≤ (7 * Zpos p - 1) * K)
        by (apply Z.mul_le_mono_nonneg_r; lia).
      lia. }
    assert ((7 * Zpos p - 1) / 10 < t + 1)
      by (apply Z.div_lt_upper_bound; lia).
    lia.
  - apply Z.div_le_lower_bound; [lia|].
    destruct (Z.le_gt_cases (10 * t) (7 * Zpos p)) as [|Hgt]; [done|].
    exfalso.
    assert ((7 * Zpos p + 1) * K ≤ 10 * t * K)
      by (apply Z.mul_le_mono_nonneg_r; lia).
    lia.
Qed.

End SplitSize.

(** ** Results, loops and computations *)

Section Monad.
Context {weights num : Type}.
Implicit Types d : disk weights num.

Lemma rbind_Ok_inv {A B} (r : result A) (k : A → result B) (b : B) :
  rbind r k = Ok b → ∃ a, r = Ok a ∧ k a = Ok b.
Proof. destruct r as [a|e]; simpl; [eauto|discriminate]. Qed.

Lemma mapR_Ok_inv {A B} (f : A → result B) (l : list A) (ys : list B) :
  mapR f l = Ok ys → Forall2 (λ x y, f x = Ok y) l ys.
Proof.
  revert ys. induction l as [|x l IH]; intros ys H; simpl in H.
  - injection H as <-. constructor.
  - apply rbind_Ok_inv in H as (y & Hy & H).
    apply rbind_Ok_inv in H as (ys' & Hys & H).
    injection H as <-. constructor; auto.
Qed.

Lemma mapR_Ok_intro {A B} (f : A → result B) (l : list A) (ys : list B) :
  Forall2 (λ x y, f x = Ok y) l ys → mapR f l = Ok ys.
Proof. induction 1 as [|x y l ys Hxy _ IH]; simpl; [done|]. by rewrite Hxy, IH. Qed.

Lemma mapR_total {A B} (f : A → result B) (P : B → Prop) (l : list A) :
  Forall (λ x, ∃ y, f x = Ok y ∧ P y) l →
  ∃ ys, mapR f l = Ok ys ∧ length ys = length l ∧ Forall P ys.
Proof.
  induction 1 as [|x l (y & Hy & HP) _ (ys & Hys & Hlen & HPs)]; simpl.
  - exists []. by repeat split.
  - exists (y :: ys). rewrite Hy, Hys. simpl. repeat split; [by f_equal|by constructor].
Qed.

(** An invariant kept by every step is kept by the loop. *)
Lemma foldR_invariant {A S} (f : S → A → result S) (I : S → Prop)
    (l : list A) (s s' : S) :
  (∀ s x s', x ∈ l → I s → f s x = Ok s' → I s') →
  I s → foldR f l s = Ok s' → I s'.
Proof.
  revert s. induction l as [|x l IH]; intros s Hstep Hs H; simpl in H.
  - by injection H as <-.
  - apply rbind_Ok_inv in H as (s1 & H1 & H).
    apply (IH s1); [|by eapply Hstep; [left| |]|done].
    intros ? ? ? Hin. apply Hstep. by right.
Qed.

Lemma foldR_app {A S} (f : S → A → result S) (l1 l2 : list A) (s : S) :
  foldR f (l1 ++ l2) s = rbind (foldR f l1 s) (foldR f l2).
Proof.
  revert s. induction l1 as [|x l1 IH]; intros s; simpl; [done|].
  destruct (f s x) as [s1|e]; simpl; [apply IH|done].
Qed.

Lemma bind_Ok_inv {A B} (m : M weights num A) (k : A → M weights num B) d d' b :
  bind m k d = (d', Ok b) → ∃ a d1, m d = (d1, Ok a) ∧ k a d1 = (d', Ok b).
Proof.
  unfold bind. destruct (m d) as [d1 [a|e]]; [eauto|discriminate].
Qed.

Lemma bind_Raise_inv {A B} (m : M weights num A) (k : A → M weights num B) d d' e :
  bind m k d = (d', Raise e) →
  m d = (d', Raise e) ∨ ∃ a d1, m d = (d1, Ok a) ∧ k a d1 = (d', Raise e).
Proof.
  unfold bind. destruct (m d) as [d1 [a|e1]]; [eauto|].
  intros [= <- <-]. by left.
Qed.

Lemma bind_Ok {A B} (m : M weights num A) (k : A → M weights num B) d d1 a :
  m d = (d1, Ok a) → bind m k d = k a d1.
Proof. unfold bind. by intros ->. Qed.

Lemma bind_Raise {A B} (m : M weights num A) (k : A → M weights num B) d d1 e :
  m d = (d1, Raise e) → bind m k d = (d1, Raise e).
Proof. unfold bind. by intros ->. Qed.

Lemma lift_Ok_inv {A} (r : result A) d d' (a : A) :
  lift r d = (d', Ok a) → r = Ok a ∧ d' = d.
Proof. unfold lift. by intros [= -> ->]. Qed.

Lemma foldM_app {A S} (f : S → A → M weights num S) (l1 l2 : list A) (s : S) d :
  foldM f (l1 ++ l2) s d = bind (foldM f l1 s) (foldM f l2) d.
Proof.
  revert s d. induction l1 as [|x l1 IH]; intros s d; simpl.
  - unfold bind, ret. done.
  - unfold bind. destruct (f s x d) as [d1 [s1|e]]; [|done].
    rewrite IH. done.
Qed.

(** ** Where exceptions come from *)

Lemma raises_only_ret {A} P (a : A) :
  raises_only P (ret a : M weights num A).
Proof. intros d d' e. discriminate. Qed.

Lemma raises_only_write P path (f : file weights num) :
  raises_only P (write_file path f).
Proof. intros d d' e. discriminate. Qed.

Lemma raises_only_lift {A} (P : exn → Prop) (r : result A) :
  (∀ e, r = Raise e → P e) → raises_only P (lift r : M weights num A).
Proof. intros H d d' e [= <- ->]. by apply H. Qed.

Lemma only_library_lift {A} (r : result A) :
  from_library r →
  raises_only (λ e, exn_origin e = Library) (lift r : M weights num A).
Proof. intros H. by apply raises_only_lift. Qed.

Lemma raises_only_bind {A B} P (m : M weights num A) (k : A → M weights num B) :
  raises_only P m → (∀ a, raises_only P (k a)) → raises_only P (bind m k).
Proof.
  intros Hm Hk d d' e H. apply bind_Raise_inv in H as [H|(a & d1 & _ & H)].
  - by eapply Hm.
  - by eapply Hk.
Qed.

Lemma raises_only_foldM {A S} P (f : S → A → M weights num S) (l : list A) (s : S) :
  (∀ s x, raises_only P (f s x)) → raises_only P (foldM f l s).
Proof.
  intros Hf. revert s. induction l as [|x l IH]; intros s; simpl.
  - apply raises_only_ret.
  - apply raises_only_bind; [apply Hf|apply IH].
Qed.

Lemma from_library_lib_error {A} (c : pyexc) : from_library (@lib_error A c).
Proof. by intros e [= <-]. Qed.

Lemma from_library_Ok {A} (a : A) : from_library (Ok a).
Proof. intros e. discriminate. Qed.

Lemma from_library_rbind {A B} (r : result A) (k : A → result B) :
  from_library r → (∀ a, r = Ok a → from_library (k a)) → from_library (rbind r k).
Proof.
  intros Hr Hk e. destruct r as [a|e']; simpl.
  - by apply Hk.
  - intros [= ->]. by apply Hr.
Qed.

Lemma from_library_mapR {A B} (f : A → result B) (l : list A) :
  (∀ x, from_library (f x)) → from_library (mapR f l).
Proof.
  intros Hf. induction l as [|x l IH]; simpl.
  - apply from_library_Ok.
  - apply from_library_rbind; [apply Hf|]. intros y _.
    apply from_library_rbind; [apply IH|]. intros ys _. apply from_library_Ok.
Qed.

Lemma from_library_foldR {A S} (f : S → A → result S) (l : list A) (s : S) :
  (∀ s x, from_library (f s x)) → from_library (foldR f l s).
Proof.
  intros Hf. revert s. induction l as [|x l IH]; intros s; simpl.
  - apply from_library_Ok.
  - apply from_library_rbind; [apply Hf|]. intros s' _. apply IH.
Qed.

Lemma from_library_np_index {A} (a : list A) (i : Z) : from_library (np_index a i).
Proof.
  unfold np_index. destruct (_ || _); [apply from_library_lib_error|].
  destruct (_ !! _); [apply from_library_Ok|apply from_library_lib_error].
Qed.

Lemma from_library_np_concatenate {A} (l : list (list A)) :
  from_library (np_concatenate l).
Proof. destruct l; [apply from_library_lib_error|apply from_library_Ok]. Qed.

End Monad.

Create HintDb lib.
#[local] Hint Resolve from_library_lib_error from_library_Ok from_library_np_index
  from_library_np_concatenate : lib.

(** One step of showing that a result only raises library exceptions. *)
Ltac lib_step :=
  match goal with
  | |- from_library (rbind _ _) => apply from_library_rbind; [|intros ? ?]
  | |- from_library (mapR _ _) => apply from_library_mapR; intros ?
  | |- from_library (foldR _ _ _) => apply from_library_foldR; intros ? ?
  | |- from_library (if ?b then _ else _) => destruct b
  | |- from_library (match ?x with _ => _ end) => destruct x
  | |- from_library _ => solve [auto with lib]
  end.

Ltac raises_step :=
  match goal with
  | |- raises_only _ (bind _ _) => apply raises_only_bind; [|intros ?]
  | |- raises_only _ (lift _) => apply only_library_lift
  | |- raises_only _ (ret _) => apply raises_only_ret
  | |- raises_only _ (write_file _ _) => apply raises_only_write
  | |- raises_only _ (if ?b then _ else _) => destruct b
  | |- raises_only _ (match ?x with _ => _ end) => destruct x
  end.

Section Origins.
Variable W : World.
Hypothesis HW : library_raises W.

#[local] Hint Resolve lr_np_load lr_Adam lr_mse_loss lr_vae lr_Predictor
  lr_policy lr_fk lr_makedirs lr_open lr_torch_save lr_scatter lr_hist
  lr_plot lr_savefig : lib.

Lemma from_library_int_of_float (x : float) : from_library (int_of_float x).
Proof. destruct x as [?|?| |[] ? ?]; simpl; intros err [= <-]; done. Qed.

Lemma from_library_load_dataset (name : string) (dbg : bool) :
  from_library (load_dataset W name dbg).
Proof.
  unfold load_dataset, first_of_axis1, np_take, TensorDataset.
  repeat lib_step.
Qed.

Lemma from_library_fetch_batch (dl : DataLoader W) (positions : list nat) :
  from_library (fetch_batch W dl positions).
Proof. unfold fetch_batch, subset_get. repeat lib_step. Qed.

Lemma from_library_train_batch vae dl v positions :
  vae_raises_library W vae → from_library (train_batch W vae dl v positions).
Proof.
  intros Hvae. unfold train_batch, last_of_axis2.
  pose proof (from_library_fetch_batch dl positions).
  assert (∀ x, from_library (vae_decoder vae x)) by (intros x; apply Hvae).
  assert (∀ x, from_library (vae_to_trajectory vae x)) by (intros x; apply Hvae).
  repeat lib_step.
Qed.

Lemma from_library_val_batch vae w dl v positions :
  vae_raises_library W vae → from_library (val_batch W vae w dl v positions).
Proof.
  intros Hvae. unfold val_batch, last_of_axis2.
  pose proof (from_library_fetch_batch dl positions).
  assert (∀ x, from_library (vae_decoder vae x)) by (intros x; apply Hvae).
  assert (∀ x, from_library (vae_to_trajectory vae x)) by (intros x; apply Hvae).
  repeat lib_step.
Qed.

Abbreviation only_library := (raises_only (λ e, exn_origin e = Library)).

Lemma only_library_plot_scatter (a b : tensor2 (num W)) (path : string) :
  only_library (plot_scatter W a b path).
Proof. unfold plot_scatter, column. repeat raises_step; repeat lib_step. Qed.

Lemma only_library_plot_latents (a : tensor2 (num W)) (path : string) :
  only_library (plot_latent_distributions W a path).
Proof.
  unfold plot_latent_distributions, column.
  repeat raises_step; repeat lib_step.
Qed.

Lemma only_library_plot_loss (a b : list float) (title path : string) :
  only_library (plot_loss W a b title path).
Proof. unfold plot_loss. case_bool_decide; repeat raises_step; repeat lib_step. Qed.

Lemma only_library_epoch_body su lv epoch :
  vae_raises_library W (su_action_vae W su) → only_library (epoch_body W su lv epoch).
Proof.
  intros Hvae. unfold epoch_body, train_pass, val_pass.
  pose proof (λ dl v p, from_library_train_batch _ dl v p Hvae).
  pose proof (λ w dl v p, from_library_val_batch _ w dl v p Hvae).
  repeat first
    [ apply only_library_plot_scatter | apply only_library_plot_latents
    | apply only_library_plot_loss | raises_step ];
    repeat lib_step.
Qed.

Lemma only_library_run_epochs su n lv :
  vae_raises_library W (su_action_vae W su) → only_library (run_epochs W su n lv).
Proof.
  intros Hvae. apply raises_only_foldM. intros. by apply only_library_epoch_body.
Qed.

End Origins.

(** ** What [setup] leaves behind *)

Tactic Notation "inv_bind" hyp(H) "as" ident(a) ident(d) ident(H1) :=
  apply bind_Ok_inv in H as (a & d & H1 & H).

Tactic Notation "inv_lift" hyp(H) "as" ident(E) :=
  apply lift_Ok_inv in H as [E ->].

(** Inverts [let* x := lift r in k]. *)
Tactic Notation "inv_step" hyp(H) "as" ident(a) ident(E) :=
  let d1 := fresh "d" in
  let H1 := fresh "Hstep" in
  apply bind_Ok_inv in H as (a & d1 & H1 & H);
  apply lift_Ok_inv in H1 as [E ->].

Section Setup.
Variable W : World.

Lemma save_arguments_inv (args : Args) (path : string) d d' u :
  save_arguments W args path d = (d', Ok u) →
  os_makedirs W path = Ok tt
  ∧ open_write W (os_path_join path ["arguments.txt"]) = Ok tt
  ∧ d' = with_file (os_path_join path ["arguments.txt"]) (ArgumentsTxt (vars args)) d.
Proof.
  unfold save_arguments. intros H.
  inv_step H as u0 E0. inv_step H as u1 E1.
  unfold write_file in H. destruct u0, u1. by simplify_eq.
Qed.

Lemma save_arguments_Ok (args : Args) (path : string) d :
  os_makedirs W path = Ok tt →
  open_write W (os_path_join path ["arguments.txt"]) = Ok tt →
  save_arguments W args path d
  = (with_file (os_path_join path ["arguments.txt"]) (ArgumentsTxt (vars args)) d,
     Ok tt).
Proof. intros H1 H2. unfold save_arguments, bind, lift. by rewrite H1, H2. Qed.

Lemma setup_inv (args : Args) d d' su lv :
  setup W args d = (d', Ok (su, lv)) →
  0 < model_index args
  ∧ d' = Disk (<[arguments_path args := ArgumentsTxt (vars args)]> (files d))
              (arguments_path args :: written d)
  ∧ su_save_path W su = save_dir args
  ∧ vae_of W args = Ok (su_action_vae W su)
  ∧ Predictor W (g_latent args) (latent_dim args) = Ok (lv_weights W lv)
  ∧ Adam W (lv_weights W lv) (lr args) = Ok (lv_ostate W lv)
  ∧ lv_best_val W lv = np_inf
  ∧ lv_avg_train_losses W lv = [] ∧ lv_avg_val_losses W lv = []
  ∧ ∃ ds k trainset testset,
      load_dataset W (g_name args) (debug args) = Ok ds
      ∧ train_size_of (Z.of_nat (length ds)) = Ok k
      ∧ random_split W ds k (Z.of_nat (length ds) - k) = Ok (trainset, testset)
      ∧ new_DataLoader W trainset (batch_size args) true (num_processes args)
        = Ok (su_train_loader W su)
      ∧ new_DataLoader W testset (Z.of_nat (subset_len W testset)) false 0
        = Ok (su_test_loader W su).
Proof.
  intros H. unfold setup in H.
  inv_bind H as u0 d1 H0. apply save_arguments_inv in H0 as (_ & _ & ->).
  inv_bind H as u1 d1 H0.
  destruct (0 <? model_index args) eqn:Hidx; [|discriminate].
  unfold ret in H0. simplify_eq.
  inv_step H as vae Evae. inv_step H as w Ew. inv_step H as o Eo.
  inv_step H as ds Eds. inv_step H as k Ek.
  inv_step H as split Esplit. destruct split as [trainset testset].
  inv_step H as tl Etl. inv_step H as sl Esl.
  unfold ret in H. simplify_eq. simpl.
  split; [lia|]. do 8 (split; [done|]).
  by exists ds, k, trainset, testset.
Qed.

Lemma setup_assertion (args : Args) d :
  arguments_writable W args →
  model_index args ≤ 0 →
  setup W args d
  = (Disk (<[arguments_path args := ArgumentsTxt (vars args)]> (files d))
          (arguments_path args :: written d),
     Raise (Exn Script AssertionError)).
Proof.
  intros [H1 H2] Hidx. unfold setup, arguments_path, save_dir in *.
  unfold bind at 1. rewrite (save_arguments_Ok args _ d H1 H2).
  unfold bind at 1. replace (0 <? model_index args) with false
    by (symmetry; apply Z.ltb_ge; lia).
  done.
Qed.

Lemma only_library_save_arguments (args : Args) (path : string) :
  library_raises W →
  raises_only (λ e, exn_origin e = Library) (save_arguments W args path).
Proof.
  intros HW. unfold save_arguments.
  repeat raises_step; solve [apply HW].
Qed.

Lemma only_library_setup (args : Args) :
  library_raises W → 0 < model_index args →
  raises_only (λ e, exn_origin e = Library) (setup W args).
Proof.
  intros HW Hidx. unfold setup.
  replace (0 <? model_index args) with true by (symmetry; apply Z.ltb_lt; lia).
  pose proof (from_library_load_dataset W HW).
  pose proof from_library_int_of_float.
  pose proof (only_library_save_arguments args) as Hsave.
  repeat first [apply Hsave; done | raises_step];
    try solve [auto with lib | apply HW].
  - unfold train_size_of. auto.
  - unfold random_split. repeat lib_step.
  - unfold new_DataLoader. repeat lib_step.
  - unfold new_DataLoader. repeat lib_step.
Qed.

End Setup.

Lemma toy_library_raises load vae_load draws item_of :
  from_library load → from_library vae_load →
  (∀ v, vae_load = Ok v → vae_raises_library (Toy.world load vae_load draws item_of) v) →
  library_raises (Toy.world load vae_load draws item_of).
Proof.
  intros Hl Hv Hm.
  split; simpl; try done; intros;
    repeat match goal with
           | |- from_library (if ?b then _ else _) => destruct b
           end;
    first [apply from_library_Ok | by intros ? [= <-]].
Qed.

Lemma toy_vae_raises_library load vae_load draws item_of :
  vae_raises_library (Toy.world load vae_load draws item_of) Toy.vae.
Proof. intros x. split; apply from_library_Ok. Qed.

(** ** Splitting the dataset *)

Section Split.
Variable W : World.
Hypothesis Hrand : random_ok W.

Lemma py_slice_take {A} (a : list A) (k : Z) :
  0 ≤ k ≤ Z.of_nat (length a) → py_slice a (k - k) k = take (Z.to_nat k) a.
Proof.
  intros Hk. unfold py_slice, clamp_bound.
  replace (k - k) with 0 by lia. simpl.
  replace (k <? 0) with false by (symmetry; apply Z.ltb_ge; lia).
  rewrite !Z.min_l by lia. simpl. rewrite drop_0. f_equal. lia.
Qed.

Lemma py_slice_drop {A} (a : list A) (lo hi : Z) :
  0 ≤ lo ≤ hi → hi = Z.of_nat (length a) →
  py_slice a lo hi = drop (Z.to_nat lo) a.
Proof.
  intros Hlo ->. unfold py_slice, clamp_bound.
  replace (lo <? 0) with false by (symmetry; apply Z.ltb_ge; lia).
  replace (Z.of_nat (length a) <? 0) with false by (symmetry; apply Z.ltb_ge; lia).
  rewrite !Z.min_l by lia. rewrite Nat2Z.id.
  apply take_ge. rewrite length_drop. lia.
Qed.

Lemma random_split_spec (ds : dataset W) (k : Z) :
  0 ≤ k ≤ Z.of_nat (length ds) →
  random_split W ds k (Z.of_nat (length ds) - k)
  = Ok ({| sub_dataset := ds;
           sub_indices := take (Z.to_nat k) (randperm W (length ds)) |},
        {| sub_dataset := ds;
           sub_indices := drop (Z.to_nat k) (randperm W (length ds)) |}).
Proof.
  intros Hk. unfold random_split.
  rewrite bool_decide_true by lia.
  replace (k + (Z.of_nat (length ds) - k)) with (Z.of_nat (length ds)) by lia.
  rewrite Nat2Z.id.
  assert (Hlen : length (randperm W (length ds)) = length ds).
  { rewrite (randperm_perm W Hrand). apply length_seq. }
  rewrite py_slice_take by lia.
  rewrite py_slice_drop by lia.
  replace (Z.of_nat (length ds) - (Z.of_nat (length ds) - k)) with k by lia.
  done.
Qed.

Lemma new_DataLoader_subset s bs sh nw dl :
  new_DataLoader W s bs sh nw = Ok dl →
  dl_subset W dl = s ∧ dl_shuffle W dl = sh
  ∧ dl_batch_size W dl = Z.to_nat bs ∧ 0 < bs.
Proof.
  unfold new_DataLoader. destruct (nw <? 0); [discriminate|].
  destruct (bs <=? 0) eqn:Hbs; [discriminate|].
  intros [= <-]. simpl. repeat split. by apply Z.leb_gt.
Qed.

(** C7 (as the code has it): a dataset of [n] elements (fewer than 2^48)
    is split into a training set of [int(n * 0.7)] elements, the product
    being taken in double precision. That is the integer part of 7n/10,
    or one less where 7n/10 is a whole number and the product is rounded
    to just under it. The test set has the other [n - int(n * 0.7)]
    elements. The two sets partition the dataset: every index below [n]
    is in exactly one of them. These are the sets [main] gives its two
    loaders. *)
Theorem dataset_split (ds : dataset W) :
  let n := Z.of_nat (length ds) in
  n < 2 ^ 48 →
  ∃ k trainset testset,
    train_size_of n = Ok k
    ∧ (7 * n - 1) / 10 ≤ k ≤ 7 * n / 10
    ∧ random_split W ds k (n - k) = Ok (trainset, testset)
    ∧ sub_dataset W trainset = ds ∧ sub_dataset W testset = ds
    ∧ Z.of_nat (subset_len W trainset) = k
    ∧ Z.of_nat (subset_len W testset) = n - k
    ∧ (sub_indices W trainset ++ sub_indices W testset) ≡ₚ seq 0 (length ds)
    ∧ (∀ i, (i < length ds)%nat →
         (i ∈ sub_indices W trainset ∧ (i ∉ sub_indices W testset))
         ∨ ((i ∉ sub_indices W trainset) ∧ i ∈ sub_indices W testset))
    ∧ (∀ args d d' su lv,
         setup W args d = (d', Ok (su, lv)) →
         load_dataset W (g_name args) (debug args) = Ok ds →
         dl_subset W (su_train_loader W su) = trainset
         ∧ dl_subset W (su_test_loader W su) = testset).
Proof.
  intros n Hn.
  assert (Hk : ∃ k, train_size_of n = Ok k
                    ∧ (7 * n - 1) / 10 ≤ k ≤ 7 * n / 10 ∧ 0 ≤ k).
  { destruct (Z.eq_dec n 0) as [->|Hn0].
    - exists 0. split; [done|]. split; [|done]. by vm_compute.
    - destruct (train_size_bounds n) as (k & Hk & Hlo & Hhi); [lia|].
      exists k. split; [done|]. split; [done|].
      etrans; [|exact Hlo]. apply Z.div_le_lower_bound; lia. }
  destruct Hk as (k & Hts & [Hlo Hhi] & Hk00).
  assert (Hk0 : 0 ≤ k ≤ n).
  { split; [done|].
    etrans; [exact Hhi|]. apply Z.div_le_upper_bound; lia. }
  pose proof (random_split_spec ds k Hk0) as Hsplit. fold n in Hsplit.
  assert (Hlen : length (randperm W (length ds)) = length ds).
  { rewrite (randperm_perm W Hrand). apply length_seq. }
  assert (Hperm : take (Z.to_nat k) (randperm W (length ds))
                  ++ drop (Z.to_nat k) (randperm W (length ds))
                  ≡ₚ seq 0 (length ds)).
  { rewrite take_drop. apply (randperm_perm W Hrand). }
  eexists k, _, _. split; [done|]. split; [done|]. split; [exact Hsplit|].
  simpl. split; [done|]. split; [done|].
  unfold subset_len; simpl. split; [rewrite length_take; lia|].
  split; [rewrite length_drop; lia|]. split; [done|]. split.
  - intros i Hi.
    assert (Hin : i ∈ take (Z.to_nat k) (randperm W (length ds))
                      ++ drop (Z.to_nat k) (randperm W (length ds))).
    { rewrite Hperm. apply elem_of_seq. lia. }
    assert (Hnd : NoDup (take (Z.to_nat k) (randperm W (length ds))
                         ++ drop (Z.to_nat k) (randperm W (length ds)))).
    { rewrite Hperm. apply NoDup_seq. }
    apply NoDup_app in Hnd as (_ & Hdisj & _).
    apply elem_of_app in Hin as [Hin|Hin].
    + left. split; [done|]. by apply Hdisj.
    + right. split; [|done]. intros Hin'. by apply (Hdisj i).
  - intros args d d' su lv Hsetup Hload.
    apply setup_inv in Hsetup
      as (_ & _ & _ & _ & _ & _ & _ & _ & _ & ds' & k' & tr & te
          & Hload' & Hts' & Hsplit' & Htl & Hsl).
    rewrite Hload in Hload'. injection Hload' as <-.
    fold n in Hts'. rewrite Hts in Hts'. injection Hts' as <-.
    fold n in Hsplit'. rewrite Hsplit in Hsplit'. injection Hsplit' as <- <-.
    apply new_DataLoader_subset in Htl as (-> & _).
    apply new_DataLoader_subset in Hsl as (-> & _). done.
Qed.

End Split.

Lemma toy_random_ok load vae_load item_of :
  random_ok (Toy.world load vae_load Toy.draw_low item_of).
Proof.
  split; simpl; try done.
  - intros lo hi n. apply length_replicate.
  - intros lo hi n x Hle Hin. apply elem_of_replicate in Hin as [-> _]. lia.
Qed.

(** A dataset of ninety samples is split as the theorem says. *)
Lemma dataset_split_witness :
  Z.of_nat (length (replicate 90 ([0; 1], [0; 0; 1]))) < 2 ^ 48
  ∧ ∃ k trainset testset,
      train_size_of 90 = Ok k
      ∧ Z.of_nat (subset_len (Toy.world_of 90) trainset) = k
      ∧ Z.of_nat (subset_len (Toy.world_of 90) testset) = 90 - k
      ∧ (sub_indices _ trainset ++ sub_indices _ testset) ≡ₚ seq 0 90.
Proof.
  split; [reflexivity|].
  destruct (dataset_split (Toy.world_of 90) (toy_random_ok _ _ _)
              (replicate 90 ([0; 1], [0; 0; 1])))
    as (k & tr & te & Hk & _ & _ & _ & _ & Htr & Hte & Hperm & _);
    [reflexivity|].
  exists k, tr, te. auto.
Defined.

(** C7 (as stated) fails: of ninety samples, [main] puts 62 in the
    training set and 28 in the test set, although 0.7 * 90 is 63: in
    double precision [90 * 0.7] is just under 63. *)
Lemma split_of_ninety :
  match (setup (Toy.world_of 90) (Toy.args 1 1 false) Toy.empty_disk).2 with
  | Ok (su, _) =>
      subset_len _ (dl_subset _ (su_train_loader _ su)) = 62%nat
      ∧ subset_len _ (dl_subset _ (su_test_loader _ su)) = 28%nat
  | Raise _ => False
  end
  ∧ train_size_of 90 = Ok 62
  ∧ 7 * 90 / 10 = 63.
Proof. by vm_compute. Qed.

(** ** load_dataset *)

Section LoadDataset.
Variable W : World.

Lemma np_index_nat_Ok {A} (a : list A) (i : nat) (x : A) :
  np_index a (Z.of_nat i) = Ok x ↔ a !! i = Some x.
Proof.
  unfold np_index, lib_error. cbv zeta.
  assert (H0 : (Z.of_nat i <? 0) = false) by (apply Z.ltb_ge; lia).
  rewrite !H0. cbn [orb]. rewrite Nat2Z.id.
  destruct (Z.leb_spec (Z.of_nat (length a)) (Z.of_nat i)) as [Hlen|Hlen].
  - rewrite lookup_ge_None_2 by lia. split; intros; discriminate.
  - destruct (a !! i); split; intros H; by simplify_eq.
Qed.

Lemma np_index_elem {A} (a : list A) (i : Z) (x : A) :
  np_index a i = Ok x → x ∈ a.
Proof.
  unfold np_index. destruct (_ || _); [discriminate|].
  destruct (a !! _) eqn:E; [|discriminate]. intros [= <-].
  by eapply list_elem_of_lookup_2.
Qed.

Lemma np_index_last {A} (a : list A) :
  a ≠ [] → ∃ x, np_index a (-1) = Ok x.
Proof.
  intros Ha. unfold np_index. simpl.
  assert (0 < length a)%nat by (destruct a; simpl; [done|lia]).
  replace (-1 + Z.of_nat (length a) <? 0) with false
    by (symmetry; apply Z.ltb_ge; lia).
  replace (Z.of_nat (length a) <=? -1 + Z.of_nat (length a)) with false
    by (symmetry; apply Z.leb_gt; lia).
  simpl. destruct (a !! _) eqn:E; [eauto|].
  apply lookup_ge_None in E. lia.
Qed.

Lemma np_take_elems {A} (a : list A) (indices : list Z) (ys : list A) :
  np_take a indices = Ok ys → Forall (λ y, y ∈ a) ys.
Proof.
  intros H. apply mapR_Ok_inv in H.
  induction H as [|i y is' ys' Hi _ IH]; constructor; [|done].
  by eapply np_index_elem.
Qed.

Lemma first_of_axis1_Ok {A} (a : list (list A)) (firsts : list A) :
  first_of_axis1 a = Ok firsts ↔ Forall2 (λ s f, head s = Some f) a firsts.
Proof.
  unfold first_of_axis1. split.
  - intros H. apply mapR_Ok_inv in H.
    eapply Forall2_impl; [exact H|]. intros s f Hs. simpl in Hs.
    change 0 with (Z.of_nat 0) in Hs. apply np_index_nat_Ok in Hs.
    by destruct s.
  - intros H. apply mapR_Ok_intro.
    eapply Forall2_impl; [exact H|]. intros s f Hs. simpl.
    change 0 with (Z.of_nat 0). apply np_index_nat_Ok. by destruct s.
Qed.

Lemma first_of_axis1_nonempty {A} (a : list (list (list A))) :
  Forall (λ s, s ≠ []) a →
  first_of_axis1 a = Ok (map (λ s, default [] (head s)) a).
Proof.
  intros H. apply first_of_axis1_Ok.
  induction H as [|s a Hs _ IH]; simpl; constructor; [|done].
  by destruct s.
Qed.

Lemma TensorDataset_Ok (a b : tensor2 (num W)) ds :
  TensorDataset W a b = Ok ds ↔ length a = length b ∧ ds = zip a b.
Proof.
  unfold TensorDataset. case_bool_decide; split.
  - by intros [= <-].
  - by intros [_ ->].
  - discriminate.
  - by intros [? _].
Qed.

Lemma zip_shape (dim : nat) (a b : tensor2 (num W)) :
  Forall (λ l, length l = dim) a → Forall (λ t, length t = 3%nat) b →
  Forall (element_shape W dim) (zip a b).
Proof.
  intros Ha. revert b. induction Ha as [|x a Hx _ IH]; intros b Hb; simpl; [done|].
  destruct Hb as [|y b Hy Hb]; [done|]. constructor; [done|]. by apply IH.
Qed.

Lemma np_index_Forall2 {A B} (R : A → B → Prop) (a : list A) (b : list B) x y :
  Forall2 R a b → np_index b x = Ok y → ∃ z, np_index a x = Ok z ∧ R z y.
Proof.
  intros HR. unfold np_index. cbv zeta. rewrite (Forall2_length _ _ _ HR).
  destruct (_ || _); [discriminate|].
  destruct (b !! _) as [y'|] eqn:Eb; [|discriminate]. intros [= <-].
  destruct (Forall2_lookup_r _ _ _ _ _ HR Eb) as (z & Ez & Hz).
  rewrite Ez. eauto.
Qed.

(** What [load_dataset] has done when it returns: the first slices were
    taken, with [--debug] the drawn indices were picked from them and from
    the targets, and the two arrays, of one length, were paired. *)
Lemma load_dataset_inv (name : string) (dbg : bool) latents targets ds :
  np_load W (os_path_join (GIBSON_ROOT W)
               ["log"; name; "mujoco_latents/latents.pkl"])
    = Ok (latents, targets) →
  load_dataset W name dbg = Ok ds →
  ∃ firsts ls ts,
    Forall2 (λ s f, head s = Some f) latents firsts
    ∧ (if dbg
       then let indices := random_integers W 0 (Z.of_nat (length latents)) 10 in
            np_take firsts indices = Ok ls ∧ np_take targets indices = Ok ts
       else ls = firsts ∧ ts = targets)
    ∧ length ls = length ts
    ∧ ds = zip (map (map (torch_Tensor W)) ls) (map (map (torch_Tensor W)) ts).
Proof.
  intros Hload Hds. unfold load_dataset in Hds. rewrite Hload in Hds. simpl in Hds.
  apply rbind_Ok_inv in Hds as (firsts & Hf & Hds).
  apply first_of_axis1_Ok in Hf.
  apply rbind_Ok_inv in Hds as ([ls ts] & Hpick & Hds).
  apply TensorDataset_Ok in Hds as [Hlen ->]. rewrite !length_map in Hlen.
  exists firsts, ls, ts. split; [done|]. split; [|done].
  destruct dbg.
  - apply rbind_Ok_inv in Hpick as (ls' & Hls & Hpick).
    apply rbind_Ok_inv in Hpick as (ts' & Hts & Hpick).
    injection Hpick as <- <-. cbv zeta.
    by rewrite (Forall2_length _ _ _ Hf).
  - by injection Hpick as <- <-.
Qed.

Lemma element_of_head (s : list (list float)) (f t : list float) :
  head s = Some f →
  element_of W s t = Some (map (torch_Tensor W) f, map (torch_Tensor W) t).
Proof. destruct s; [discriminate|]. by intros [= ->]. Qed.

(** C6 (as the code has it): for a stored file that loads, [load_dataset]
    without [--debug] returns if and only if there are as many targets as
    latents and no latent has an empty middle axis; it then returns one
    element per stored sample, in order, the pair of the first slice of
    the sample along its middle axis and of the sample's target, as
    tensors. With [--debug] the element at each position is such a pair of
    the latent and the target at the index drawn for the position. In both
    cases the sizes of an element are those found in the file, whatever
    they are: nothing compares them with the policy's input size or with
    three. *)
Theorem load_dataset_elements (name : string) latents targets :
  np_load W (os_path_join (GIBSON_ROOT W)
               ["log"; name; "mujoco_latents/latents.pkl"])
    = Ok (latents, targets) →
  ((∃ ds, load_dataset W name false = Ok ds)
   ↔ length latents = length targets ∧ Forall (λ s, s ≠ []) latents)
  ∧ (∀ ds, load_dataset W name false = Ok ds →
       length ds = length latents
       ∧ ∀ i s t, latents !! i = Some s → targets !! i = Some t →
           ds !! i = element_of W s t)
  ∧ (∀ ds, load_dataset W name true = Ok ds →
       let indices := random_integers W 0 (Z.of_nat (length latents)) 10 in
       length ds = length indices
       ∧ ∀ j x, indices !! j = Some x →
           ∃ s t, np_index latents x = Ok s ∧ np_index targets x = Ok t
                  ∧ ds !! j = element_of W s t)
  ∧ (∀ dbg ds e, load_dataset W name dbg = Ok ds → e ∈ ds →
       ∃ first rest t,
         first :: rest ∈ latents ∧ t ∈ targets
         ∧ length e.1 = length first ∧ length e.2 = length t).
Proof.
  intros Hload. split; [|split; [|split]].
  - split.
    + intros [ds Hds].
      apply (load_dataset_inv _ _ _ _ _ Hload) in Hds
        as (firsts & ls & ts & Hf & [-> ->] & Hlen & _).
      split; [by rewrite (Forall2_length _ _ _ Hf)|].
      apply Forall_forall. intros s [i Hi]%list_elem_of_lookup_1.
      destruct (Forall2_lookup_l _ _ _ _ _ Hf Hi) as (f & _ & Hh).
      by destruct s.
    + intros [Hlen Hne]. eexists. unfold load_dataset. rewrite Hload. simpl.
      rewrite (first_of_axis1_nonempty _ Hne). simpl.
      unfold TensorDataset. by rewrite bool_decide_true by (by rewrite !length_map).
  - intros ds Hds.
    apply (load_dataset_inv _ _ _ _ _ Hload) in Hds
      as (firsts & ls & ts & Hf & [-> ->] & Hlen & ->).
    pose proof (Forall2_length _ _ _ Hf) as Hlf. split.
    + rewrite length_zip, !length_map. lia.
    + intros i s t Hs Ht.
      destruct (Forall2_lookup_l _ _ _ _ _ Hf Hs) as (f & Hfi & Hh).
      rewrite (element_of_head _ _ _ Hh). apply lookup_zip_with_Some.
      eexists _, _. split; [done|].
      by rewrite !list_lookup_fmap, Hfi, Ht.
  - intros ds Hds indices.
    apply (load_dataset_inv _ _ _ _ _ Hload) in Hds
      as (firsts & ls & ts & Hf & [Hls Hts] & Hlen & ->).
    cbv zeta in Hls, Hts. fold indices in Hls, Hts.
    apply mapR_Ok_inv in Hls, Hts. split.
    + rewrite length_zip, !length_map, <- Hlen, Nat.min_id.
      symmetry. by eapply Forall2_length.
    + intros j x Hx.
      destruct (Forall2_lookup_l _ _ _ _ _ Hls Hx) as (f & Hfj & Hfx).
      destruct (Forall2_lookup_l _ _ _ _ _ Hts Hx) as (t & Htj & Htx).
      destruct (np_index_Forall2 _ _ _ _ _ Hf Hfx) as (s & Hsx & Hh).
      exists s, t. split; [done|]. split; [done|].
      rewrite (element_of_head _ _ _ Hh). apply lookup_zip_with_Some.
      eexists _, _. split; [done|].
      by rewrite !list_lookup_fmap, Hfj, Htj.
  - intros dbg ds e Hds He.
    apply (load_dataset_inv _ _ _ _ _ Hload) in Hds
      as (firsts & ls & ts & Hf & Hpick & Hlen & ->).
    apply list_elem_of_lookup_1 in He as [j Hj].
    apply lookup_zip_with_Some in Hj as (l & t & -> & Hl & Ht).
    rewrite list_lookup_fmap in Hl, Ht.
    destruct (ls !! j) as [f|] eqn:Hfj; [|discriminate].
    destruct (ts !! j) as [t'|] eqn:Htj; [|discriminate].
    simpl in Hl, Ht. simplify_eq. simpl. rewrite !length_map.
    assert (Hin : f ∈ firsts ∧ t' ∈ targets).
    { destruct dbg.
      - destruct Hpick as [Hls Hts].
        apply np_take_elems in Hls, Hts.
        split; [eapply (proj1 (Forall_forall _ _) Hls)
               |eapply (proj1 (Forall_forall _ _) Hts)];
          by eapply list_elem_of_lookup_2.
      - destruct Hpick as [-> ->]. split; by eapply list_elem_of_lookup_2. }
    destruct Hin as [Hfin Htin].
    apply list_elem_of_lookup_1 in Hfin as [i Hi].
    destruct (Forall2_lookup_r _ _ _ _ _ Hf Hi) as (s & Hs & Hh).
    destruct s as [|first rest]; [discriminate|]. injection Hh as ->.
    exists f, rest, t'. split; [by eapply list_elem_of_lookup_2|]. done.
Qed.

End LoadDataset.

(** Two stored samples give a dataset of two elements; the second is made
    of the second sample, and its sizes, two and three, are the file's. *)
Lemma load_dataset_elements_witness :
  ∃ ds, load_dataset (Toy.world_of 2) "rgb_model_v1" false = Ok ds
        ∧ length ds = 2%nat
        ∧ ds !! 1%nat = Some ([1; 1], [1; 0; 1])
        ∧ ∀ e, e ∈ ds →
            ∃ first rest t,
              first :: rest ∈ Toy.stored_latents 2 ∧ t ∈ Toy.stored_targets 2
              ∧ length e.1 = length first ∧ length e.2 = length t.
Proof.
  destruct (load_dataset_elements (Toy.world_of 2) "rgb_model_v1"
              (Toy.stored_latents 2) (Toy.stored_targets 2) eq_refl)
    as (Hruns & Helems & _ & Hsizes).
  destruct (proj2 Hruns) as [ds Hds].
  { split; [reflexivity|]. by repeat constructor. }
  destruct (Helems ds Hds) as [Hlen Hith].
  exists ds. split; [exact Hds|]. split; [exact Hlen|]. split.
  - apply (Hith 1%nat [[float_of_int 1; float_of_int 1]]
             [float_of_int 1; float_of_int 0; float_of_int 1]); reflexivity.
  - intros e He. exact (Hsizes false ds e Hds He).
Defined.

(** C6 (as stated) fails: a stored file whose latents have five components
    and whose targets have two coordinates loads as it is, for a policy of
    two inputs; every element has five and two components, and [main]
    goes on to build its loaders from them. *)
Lemma load_dataset_any_shape :
  let W := Toy.world_shaped 4 5 2 in
  g_latent (Toy.args 1 1 false) = 2
  ∧ (∃ ds, load_dataset W "rgb_model_v1" false = Ok ds
           ∧ length ds = 4%nat
           ∧ Forall (λ e, length e.1 = 5%nat ∧ length e.2 = 2%nat) ds)
  ∧ exception_of (setup W (Toy.args 1 1 false) Toy.empty_disk).2 = None.
Proof.
  split; [reflexivity|]. split.
  - eexists. split; [by vm_compute|]. split; [reflexivity|].
    repeat constructor.
  - by vm_compute.
Qed.

(** Draws that are indices give a dataset of ten elements. *)
Lemma load_dataset_debug_in_range (W : World) (name : string) latents targets :
  np_load W (os_path_join (GIBSON_ROOT W)
               ["log"; name; "mujoco_latents/latents.pkl"])
    = Ok (latents, targets) →
  length latents = length targets →
  Forall (λ s, s ≠ []) latents →
  length (random_integers W 0 (Z.of_nat (length latents)) 10) = 10%nat →
  Forall (λ x, 0 ≤ x < Z.of_nat (length latents))
         (random_integers W 0 (Z.of_nat (length latents)) 10) →
  ∃ ds, load_dataset W name true = Ok ds ∧ length ds = 10%nat.
Proof.
  intros Hload Hlen Hne Hten Hrange.
  unfold load_dataset. rewrite Hload. simpl.
  rewrite (first_of_axis1_nonempty _ Hne). simpl. rewrite length_map.
  set (indices := random_integers W 0 (Z.of_nat (length latents)) 10) in *.
  assert (Htake : ∀ {A} (a : list A), length a = length latents →
            ∃ ys, np_take a indices = Ok ys ∧ length ys = 10%nat).
  { intros A a Ha.
    destruct (mapR_total (np_index a) (λ _, True) indices) as (ys & Hys & Hl & _).
    - eapply Forall_impl; [exact Hrange|]. intros x Hx. cbv beta in Hx |- *.
      destruct (lookup_lt_is_Some_2 a (Z.to_nat x)) as [y Hy]; [lia|].
      exists y. split; [|done].
      rewrite <- (Z2Nat.id x) by lia. by apply np_index_nat_Ok.
    - exists ys. split; [done|]. by rewrite Hl. }
  destruct (Htake _ (map (λ s, default [] (head s)) latents)) as (ls & Hls & Hl10);
    [by rewrite length_map|].
  destruct (Htake _ targets) as (ts & Hts & Ht10); [done|].
  rewrite Hls. simpl. rewrite Hts. simpl.
  unfold TensorDataset. rewrite bool_decide_true by (rewrite !length_map; lia).
  eexists. split; [done|]. rewrite length_zip, !length_map. lia.
Qed.

(** C8: with [--debug] the ten indices come from
    [np.random.random_integers(0, len(latents), 10)], whose upper bound is
    inclusive: the generator may return [len(latents)], which is not an
    index of the array. Here four samples are stored and every draw is 4:
    each draw is within the bounds the generator was given, and
    [load_dataset] raises [IndexError]. *)
Lemma debug_draw_out_of_range :
  let W := Toy.world_drawing 4 Toy.draw_high in
  length (Toy.stored_latents 4) = 4%nat
  ∧ random_integers W 0 4 10 = replicate 10 4
  ∧ Forall (λ x, 0 ≤ x ≤ 4) (random_integers W 0 4 10)
  ∧ load_dataset W "rgb_model_v1" true = Raise (Exn Library IndexError).
Proof.
  split; [reflexivity|]. split; [reflexivity|]. split.
  - simpl. repeat constructor; lia.
  - by vm_compute.
Qed.

(** ** The loss of a batch *)

Section Loss.
Variable W : World.
Variable vae : TrajectoryVAE (num W).

(** The graph [train_batch] builds computes the specified loss. *)
Lemma graph_loss (training : bool) (w : weights W) (latent_1 target : tensor2 (num W)) :
  rbind
    (rbind (policy_forward W training w latent_1) (λ latent_2,
     rbind (vae_decoder vae latent_2) (λ trajectories,
     rbind (vae_to_trajectory vae trajectories) (λ trajectories,
     rbind (last_of_axis2 trajectories) (λ end_joint_pose,
     rbind (end_effector_pose W (unnormalize W end_joint_pose)) (λ end_pose,
     rbind (mse_loss W end_pose target) (λ loss,
     Ok (latent_2, end_pose, loss))))))))
    (λ r, Ok r.2)
  = position_loss W vae training w latent_1 target.
Proof.
  unfold position_loss, decoded_position, last_of_axis2, unnormalize.
  destruct (policy_forward W training w latent_1) as [latent_2|]; simpl; [|done].
  destruct (vae_decoder vae latent_2) as [t|]; simpl; [|done].
  destruct (vae_to_trajectory vae t) as [t'|]; simpl; [|done].
  destruct (mapR _ t') as [p|]; simpl; [|done].
  destruct (end_effector_pose W _) as [q|]; simpl; [|done].
  destruct (mse_loss W q target); done.
Qed.

(** C2: for a batch the loader has fetched, the loss is the mean-squared
    error between the target and the position decoded from the policy
    output (trajectory decoding, last joint pose, unnormalisation, forward
    kinematics). In training that loss, as a function of the policy's
    weights, is what the optimiser steps on, and its value is appended to
    the recorded losses; in validation its value is appended to the
    recorded losses. When computing it raises, so does the batch. *)
Theorem batch_loss (loader : DataLoader W) (positions : list nat)
    (latent_1 target : tensor2 (num W)) :
  fetch_batch W loader positions = Ok (latent_1, target) →
  (∀ v : TrainVars W,
     match position_loss W vae true (tv_weights W v) latent_1 target with
     | Ok loss =>
         ∃ v' lossf,
           train_batch W vae loader v positions = Ok v'
           ∧ tv_train_losses W v' = tv_train_losses W v ++ [item W loss]
           ∧ (∀ w, lossf w = position_loss W vae true w latent_1 target)
           ∧ (tv_weights W v', tv_ostate W v')
             = backward_step W lossf (tv_weights W v) (tv_ostate W v)
     | Raise e => train_batch W vae loader v positions = Raise e
     end)
  ∧ (∀ (w : weights W) (v : ValVars W),
       match position_loss W vae false w latent_1 target with
       | Ok loss =>
           ∃ v', val_batch W vae w loader v positions = Ok v'
                 ∧ vv_val_losses W v' = vv_val_losses W v ++ [item W loss]
       | Raise e => val_batch W vae w loader v positions = Raise e
       end).
Proof.
  intros Hfetch. split.
  - intros v. unfold train_batch. rewrite Hfetch. cbn [rbind].
    rewrite <- (graph_loss true (tv_weights W v) latent_1 target).
    match goal with
    | |- match rbind ?g _ with _ => _ end =>
        destruct g as [[[latent_2 end_pose] loss]|e]
    end; cbn [rbind snd]; [|done].
    destruct (backward_step W _ (tv_weights W v) (tv_ostate W v))
      as [w' o'] eqn:Hstep.
    match type of Hstep with
    | backward_step _ ?F _ _ = _ => eexists _, F
    end.
    split; [reflexivity|]. cbn [tv_train_losses tv_weights tv_ostate].
    split; [done|]. split; [|by rewrite Hstep].
    intros w. apply graph_loss.
  - intros w v. unfold val_batch. rewrite Hfetch. cbn [rbind].
    unfold position_loss, decoded_position, last_of_axis2, unnormalize.
    destruct (policy_forward W false w latent_1) as [latent_2|]; simpl; [|done].
    destruct (vae_decoder vae latent_2) as [t|]; simpl; [|done].
    destruct (vae_to_trajectory vae t) as [t'|]; simpl; [|done].
    destruct (mapR _ t') as [p|]; simpl; [|done].
    destruct (end_effector_pose W _) as [q|]; simpl; [|done].
    destruct (mse_loss W q target); simpl; [|done].
    eexists. split; done.
Qed.

End Loss.

(** The first batch of a toy run: the recorded loss is 18. *)
Lemma batch_loss_witness :
  fetch_batch (Toy.world_of 4) Toy.loader [0; 1]%nat
    = Ok ([[0; 1]; [1; 1]], [[0; 0; 1]; [1; 0; 1]])
  ∧ (∃ v', train_batch (Toy.world_of 4) Toy.vae Toy.loader Toy.train_vars [0; 1]%nat
             = Ok v'
           ∧ tv_train_losses _ v' = [float_of_int 18])
  ∧ (∃ v', val_batch (Toy.world_of 4) Toy.vae 0 Toy.loader Toy.val_vars [0; 1]%nat
             = Ok v'
           ∧ vv_val_losses _ v' = [float_of_int 18]).
Proof.
  assert (Hfetch : fetch_batch (Toy.world_of 4) Toy.loader [0; 1]%nat
                   = Ok ([[0; 1]; [1; 1]], [[0; 0; 1]; [1; 0; 1]]))
    by reflexivity.
  split; [exact Hfetch|].
  destruct (batch_loss (Toy.world_of 4) Toy.vae Toy.loader [0; 1]%nat _ _ Hfetch)
    as [Htrain Hval].
  split.
  - destruct (Htrain Toy.train_vars) as (v' & _ & Hv' & Hlosses & _).
    exists v'. split; [exact Hv'|exact Hlosses].
  - destruct (Hval 0 Toy.val_vars) as (v' & Hv' & Hlosses).
    exists v'. split; [exact Hv'|exact Hlosses].
Defined.

(** ** The order of floats *)

Section FloatOrder.

Lemma f64_ltb_rank (a b : float) :
  f64_ltb a b = true ↔ ∃ ra rb, rank a = Some ra ∧ rank b = Some rb ∧ lex_lt ra rb.
Proof.
  unfold f64_ltb, SFltb, lex_lt.
  destruct a as [[]|[]| |[] ma ea], b as [[]|[]| |[] mb eb]; simpl;
    try (split; [discriminate|intros (ra & rb & Ha & Hb & H); simplify_eq; simpl in H; lia]);
    try (split; [intros _; eexists _, _; split; [done|]; split; [done|]; simpl; lia|done]).
  - change (PosDef.Pos.compare_cont Eq ma mb) with (Pos.compare ma mb).
    destruct (Z.compare_spec ea eb) as [He|He|He],
             (Pos.compare_spec ma mb) as [Hm|Hm|Hm]; simpl;
      (split;
       [first [discriminate
              |intros _; eexists _, _; split; [done|]; split; [done|]; simpl; lia]
       |first [done
              |intros (ra & rb & Ha & Hb & H); simplify_eq; simpl in H; lia]]).
  - change (PosDef.Pos.compare_cont Eq ma mb) with (Pos.compare ma mb).
    destruct (Z.compare_spec ea eb) as [He|He|He],
             (Pos.compare_spec ma mb) as [Hm|Hm|Hm]; simpl;
      (split;
       [first [discriminate
              |intros _; eexists _, _; split; [done|]; split; [done|]; simpl; lia]
       |first [done
              |intros (ra & rb & Ha & Hb & H); simplify_eq; simpl in H; lia]]).
Qed.

Lemma rank_nan (a : float) : rank a = None ↔ a = np_nan.
Proof. destruct a as [[]|[]| |[] ? ?]; simpl; split; done. Qed.

Lemma f64_ltb_trans (a b c : float) :
  f64_ltb a b = true → f64_ltb b c = true → f64_ltb a c = true.
Proof.
  rewrite !f64_ltb_rank. intros (ra & rb & Ha & Hb & Hab) (rb' & rc & Hb' & Hc & Hbc).
  simplify_eq. exists ra, rc. split; [done|]. split; [done|].
  unfold lex_lt in *. lia.
Qed.

(** [a < b] and [b <= c] (that is: [c] is a number not below [b]). *)
Lemma f64_ltb_le_trans (a b c : float) :
  f64_ltb a b = true → f64_ltb c b = false → c ≠ np_nan → f64_ltb a c = true.
Proof.
  intros Hab Hcb Hc.
  destruct (rank c) as [rc|] eqn:Erc; [|by apply rank_nan in Erc].
  apply f64_ltb_rank in Hab as (ra & rb & Ha & Hb & Hab).
  apply f64_ltb_rank. exists ra, rc. split; [done|]. split; [done|].
  assert (Hn : ¬ lex_lt rc rb).
  { intros Hlt. assert (f64_ltb c b = true); [|congruence].
    apply f64_ltb_rank. eauto. }
  unfold lex_lt in *. lia.
Qed.

Lemma f64_ltb_not_nan (a b : float) :
  f64_ltb a b = true → a ≠ np_nan ∧ b ≠ np_nan.
Proof.
  intros (ra & rb & Ha & Hb & _)%f64_ltb_rank.
  split; intros ->; done.
Qed.

Lemma running_best_snoc (ls : list float) (x : float) :
  running_best (ls ++ [x])
  = if f64_ltb x (running_best ls) then x else running_best ls.
Proof. unfold running_best. by rewrite fold_left_app. Qed.

(** A loss is below the running best exactly when it is below +infinity
    and below every earlier loss that is a number. *)
Lemma below_running_best (ls : list float) (l : float) :
  f64_ltb l (running_best ls) = true
  ↔ f64_ltb l np_inf = true
    ∧ ∀ l', l' ∈ ls → l' ≠ np_nan → f64_ltb l l' = true.
Proof.
  induction ls as [|x ls IH] using rev_ind.
  - split; [intros H; split; [done|]; by intros ? ?%elem_of_nil|by intros [? _]].
  - rewrite running_best_snoc.
    destruct (f64_ltb x (running_best ls)) eqn:Hx.
    + split.
      * intros Hl. assert (Hb : f64_ltb l (running_best ls) = true)
          by (by eapply f64_ltb_trans).
        apply IH in Hb as [Hinf Hall]. split; [done|].
        intros l' [Hin|Hin%list_elem_of_singleton]%elem_of_app Hnan;
          [auto|by subst l'].
      * intros [_ Hall]. apply Hall; [apply elem_of_app; right; by left|].
        by apply f64_ltb_not_nan in Hx as [? _].
    + rewrite IH. split.
      * intros [Hinf Hall]. split; [done|].
        intros l' [Hin|Hin%list_elem_of_singleton]%elem_of_app Hnan; [auto|].
        subst l'. eapply f64_ltb_le_trans; [|exact Hx|done]. apply IH. auto.
      * intros [Hinf Hall]. split; [done|].
        intros l' Hin. apply Hall. apply elem_of_app. by left.
Qed.

Lemma f64_ltb_irrefl (a : float) : f64_ltb a a = false.
Proof.
  destruct (f64_ltb a a) eqn:E; [|done].
  apply f64_ltb_rank in E as (ra & rb & Ha & Hb & Hlt).
  simplify_eq. unfold lex_lt in Hlt. lia.
Qed.

(** No loss is below the running best. *)
Lemma running_best_least (ls : list float) (l : float) :
  l ∈ ls → f64_ltb l (running_best ls) = false.
Proof.
  induction ls as [|x ls IH] using rev_ind; [by intros ?%elem_of_nil|].
  rewrite running_best_snoc.
  intros [Hin|Hin%list_elem_of_singleton]%elem_of_app.
  - specialize (IH Hin). destruct (f64_ltb x (running_best ls)) eqn:Hx; [|done].
    destruct (f64_ltb l x) eqn:Hl; [|done].
    by rewrite (f64_ltb_trans _ _ _ Hl Hx) in IH.
  - subst l. destruct (f64_ltb x (running_best ls)) eqn:Hx; [|done].
    apply f64_ltb_irrefl.
Qed.

End FloatOrder.

(** ** Paths *)

Section Paths.

Lemma append_inj_l (s a b : string) : s +:+ a = s +:+ b → a = b.
Proof. apply String.app_inj. Qed.

Lemma join_step_plain (dir name : string) :
  starts_with_sep name = false →
  ∃ prefix, ∀ name', starts_with_sep name' = false →
    join_step dir name' = prefix +:+ name'.
Proof.
  intros _. unfold join_step.
  destruct (bool_decide (dir = EmptyString) || ends_with_sep dir) eqn:E.
  - exists dir. by intros name' ->.
  - exists (dir +:+ "/"). intros name' ->.
    clear. induction dir as [|c dir IH]; [done|].
    change (String c (dir +:+ "/" +:+ name') = String c ((dir +:+ "/") +:+ name')).
    by f_equal.
Qed.

(** Two plain file names give two paths in a directory. *)
Lemma in_dir_inj (dir a b : string) :
  starts_with_sep a = false → starts_with_sep b = false →
  os_path_join dir [a] = os_path_join dir [b] → a = b.
Proof.
  intros Ha Hb. simpl. destruct (join_step_plain dir a Ha) as [prefix Hp].
  rewrite !Hp by done. apply append_inj_l.
Qed.

End Paths.

(** Decides that two paths in one directory differ. *)
Ltac paths_differ :=
  let H := fresh in
  intros H; apply in_dir_inj in H; [discriminate H|reflexivity|reflexivity].

(** ** What an epoch does *)

Section Epoch.
Variable W : World.
Implicit Types d : disk (weights W) (num W).

Lemma plot_scatter_inv (a b : tensor2 (num W)) path d d' u :
  plot_scatter W a b path d = (d', Ok u) →
  d' = with_file path (ScatterPng a b) d.
Proof.
  unfold plot_scatter. intros H.
  inv_step H as c1 E1. inv_step H as c2 E2. inv_step H as u1 E3.
  inv_step H as c3 E4. inv_step H as c4 E5. inv_step H as u2 E6.
  inv_step H as u3 E7.
  unfold write_file in H. by simplify_eq.
Qed.

Lemma plot_latent_distributions_inv (a : tensor2 (num W)) path d d' u :
  plot_latent_distributions W a path d = (d', Ok u) →
  ∃ columns, d' = with_file path (LatentsPng columns) d
             ∧ length columns = shape1 W a.
Proof.
  unfold plot_latent_distributions. intros H.
  destruct (shape1 W a) as [|[|k]] eqn:Ek; [discriminate..|].
  inv_step H as columns E. inv_step H as u1 E1.
  unfold write_file in H. simplify_eq. exists columns. split; [done|].
  apply mapR_Ok_inv in E. apply Forall2_length in E. by rewrite length_seq in E.
Qed.

Lemma plot_loss_inv (a b : list float) title path d d' u :
  plot_loss W a b title path d = (d', Ok u) →
  d' = with_file path (LossPng title a b) d.
Proof.
  unfold plot_loss. intros H.
  inv_step H as u1 E1. inv_bind H as u2 d1 E2.
  case_bool_decide; [|discriminate]. inv_lift E2 as E2'.
  inv_step H as u3 E3.
  unfold write_file in H. by simplify_eq.
Qed.

Lemma plot_loss_lengths (a b : list float) title path d d' u :
  plot_loss W a b title path d = (d', Ok u) → length b = length a.
Proof.
  unfold plot_loss. intros H.
  inv_step H as u1 E1. inv_bind H as u2 d1 E2.
  by case_bool_decide.
Qed.

(** The disk after an epoch that raised nothing. *)
Lemma epoch_body_inv su lv epoch d d' lv' :
  epoch_body W su lv epoch d = (d', Ok lv') →
  ∃ tv vv train_poses train_targets val_poses val_targets latents columns,
    foldR (train_batch W (su_action_vae W su) (su_train_loader W su))
          (loader_batches W epoch (su_train_loader W su))
          (Build_TrainVars W (lv_weights W lv) (lv_ostate W lv) [] [] [] [])
      = Ok tv
    ∧ foldR (val_batch W (su_action_vae W su) (tv_weights W tv)
                       (su_test_loader W su))
            (loader_batches W epoch (su_test_loader W su))
            (Build_ValVars W [] [] [] (tv_latents W tv))
      = Ok vv
    ∧ np_concatenate (tv_end_poses W tv) = Ok train_poses
    ∧ np_concatenate (tv_target_poses W tv) = Ok train_targets
    ∧ np_concatenate (vv_end_poses W vv) = Ok val_poses
    ∧ np_concatenate (vv_target_poses W vv) = Ok val_targets
    ∧ np_concatenate (vv_latents W vv) = Ok latents
    ∧ length columns = shape1 W latents
    ∧ let dir := su_save_path W su in
      let avg_train := lv_avg_train_losses W lv ++ [np_mean W (tv_train_losses W tv)] in
      let avg_val := np_mean W (vv_val_losses W vv) in
      let avg_vals := lv_avg_val_losses W lv ++ [avg_val] in
      let better := f64_ltb avg_val (lv_best_val W lv) in
      lv' = Build_LoopVars W (tv_weights W tv) (tv_ostate W tv)
              (if better then avg_val else lv_best_val W lv) avg_train avg_vals
      ∧ length (lv_avg_val_losses W lv) = length (lv_avg_train_losses W lv)
      ∧ d' =
        with_file (os_path_join dir ["avg_log_mse.png"])
          (LossPng "Avg mse in log scale"
             (map (np_log W) avg_train) (map (np_log W) avg_vals))
        (with_file (os_path_join dir ["avg_mse.png"])
          (LossPng "Avg mse" avg_train avg_vals)
        (with_file (os_path_join dir ["latents_distribution.png"])
          (LatentsPng columns)
        (with_file (os_path_join dir ["full_scatter.png"])
          (ScatterPng (train_poses ++ val_poses) (train_targets ++ val_targets))
        (with_file (os_path_join dir ["val_scatter.png"])
          (ScatterPng val_poses val_targets)
        (with_file (os_path_join dir ["train_scatter.png"])
          (ScatterPng train_poses train_targets)
        (if better
         then with_file (checkpoint_path dir) (Checkpoint (tv_weights W tv)) d
         else d)))))).
Proof.
  unfold epoch_body, train_pass, val_pass. intros H.
  inv_step H as tv Etv. inv_step H as train_poses Etp.
  inv_step H as train_targets Ett. inv_step H as vv Evv.
  inv_step H as val_poses Evp. inv_step H as val_targets Evt.
  inv_step H as latents Elat.
  inv_bind H as best d1 Hsave.
  inv_bind H as u1 d2 H1. apply plot_scatter_inv in H1 as ->.
  inv_bind H as u2 d2 H1. apply plot_scatter_inv in H1 as ->.
  inv_step H as poses Eposes. inv_step H as targets Etargets.
  inv_bind H as u3 d2 H1. apply plot_scatter_inv in H1 as ->.
  inv_bind H as u4 d2 H1.
  apply plot_latent_distributions_inv in H1 as (columns & -> & Hcols).
  inv_bind H as u5 d2 H1. pose proof H1 as Hlen. apply plot_loss_inv in H1 as ->.
  inv_bind H as u6 d2 H1. apply plot_loss_inv in H1 as ->.
  unfold ret in H. simplify_eq.
  simpl in Eposes, Etargets. simplify_eq. rewrite !app_nil_r.
  exists tv, vv, train_poses, train_targets, val_poses, val_targets, latents, columns.
  do 8 (split; [done|]). cbv zeta.
  assert (Hbest :
    best = (if f64_ltb (np_mean W (vv_val_losses W vv)) (lv_best_val W lv)
            then np_mean W (vv_val_losses W vv) else lv_best_val W lv)
    ∧ d1 = (if f64_ltb (np_mean W (vv_val_losses W vv)) (lv_best_val W lv)
            then with_file (checkpoint_path (su_save_path W su))
                   (Checkpoint (tv_weights W tv)) d
            else d)).
  { destruct (f64_ltb _ _).
    - inv_step Hsave as u8 Esave.
      inv_bind Hsave as u7 d3 Hw. unfold write_file in Hw.
      unfold ret in Hsave. by simplify_eq.
    - unfold ret in Hsave. by simplify_eq. }
  destruct Hbest as [-> ->]. split; [done|]. split; [|done].
  apply plot_loss_lengths in Hlen as Hl.
  rewrite !length_app in Hl. simpl in Hl. lia.
Qed.

End Epoch.

(** ** The validation pass *)

Section Validation.
Variable W : World.
Implicit Types d : disk (weights W) (num W).

Lemma np_concatenate_Ok {A} (l : list (list A)) (x : list A) :
  np_concatenate l = Ok x → x = concat l ∧ l ≠ [].
Proof. destruct l; [discriminate|]. by intros [= <-]. Qed.

Lemma fetch_batch_rows (dl : DataLoader W) positions latent_1 target :
  fetch_batch W dl positions = Ok (latent_1, target) →
  length latent_1 = length positions ∧ length target = length positions.
Proof.
  unfold fetch_batch. intros H. apply rbind_Ok_inv in H as (elems & He & H).
  injection H as <- <-. apply mapR_Ok_inv, Forall2_length in He.
  by rewrite !length_fmap.
Qed.

(** What one validation batch appends. *)
Lemma val_batch_inv vae w dl (v v' : ValVars W) positions :
  val_batch W vae w dl v positions = Ok v' →
  ∃ latent_1 target latent_2 end_pose loss,
    fetch_batch W dl positions = Ok (latent_1, target)
    ∧ policy_forward W false w latent_1 = Ok latent_2
    ∧ position_loss W vae false w latent_1 target = Ok loss
    ∧ decoded_position W vae false w latent_1 = Ok end_pose
    ∧ vv_val_losses W v' = vv_val_losses W v ++ [item W loss]
    ∧ vv_end_poses W v' = vv_end_poses W v ++ [end_pose; end_pose]
    ∧ vv_target_poses W v' = vv_target_poses W v ++ [target]
    ∧ vv_latents W v' = vv_latents W v ++ [latent_2].
Proof.
  unfold val_batch. intros H.
  apply rbind_Ok_inv in H as ([latent_1 target] & Hf & H).
  apply rbind_Ok_inv in H as (latent_2 & H2 & H).
  apply rbind_Ok_inv in H as (t & Ht & H).
  apply rbind_Ok_inv in H as (t' & Ht' & H).
  apply rbind_Ok_inv in H as (p & Hp & H).
  apply rbind_Ok_inv in H as (q & Hq & H).
  apply rbind_Ok_inv in H as (loss & Hl & H).
  injection H as <-. simpl.
  exists latent_1, target, latent_2, q, loss.
  assert (Hdec : decoded_position W vae false w latent_1 = Ok q).
  { unfold decoded_position. rewrite H2. simpl. rewrite Ht. simpl. rewrite Ht'.
    simpl. unfold last_of_axis2 in Hp. rewrite Hp. simpl. exact Hq. }
  repeat split; try done.
  - unfold position_loss. by rewrite Hdec.
  - by rewrite <- app_assoc.
Qed.

Lemma decoded_position_rows vae training w latent_1 p :
  rows_kept W vae → decoded_position W vae training w latent_1 = Ok p →
  length p = length latent_1.
Proof.
  intros Hk. unfold decoded_position. intros H.
  apply rbind_Ok_inv in H as (latent_2 & H2 & H).
  apply rbind_Ok_inv in H as (t & Ht & H).
  apply rbind_Ok_inv in H as (t' & Ht' & H).
  apply rbind_Ok_inv in H as (q & Hq & H).
  apply (rk_fk W vae Hk) in H. rewrite length_map in H.
  apply mapR_Ok_inv, Forall2_length in Hq.
  apply (rk_to_trajectory W vae Hk) in Ht'.
  apply (rk_decoder W vae Hk) in Ht.
  apply (rk_policy W vae Hk) in H2. congruence.
Qed.

(** What a validation pass appends: per batch, in the order of the
    batches, the loss of the batch, its decoded positions twice and its
    targets once. *)
Lemma val_batches_inv vae w dl batches (v v' : ValVars W) :
  foldR (val_batch W vae w dl) batches v = Ok v' →
  ∃ pairs losses,
    mapR (prediction_of W vae w dl) batches = Ok pairs
    ∧ mapR (batch_loss_of W vae false w dl) batches = Ok losses
    ∧ vv_val_losses W v' = vv_val_losses W v ++ losses
    ∧ vv_end_poses W v'
      = vv_end_poses W v ++ concat ((λ pt, [pt.1; pt.1]) <$> pairs)
    ∧ vv_target_poses W v' = vv_target_poses W v ++ pairs.*2.
Proof.
  revert v. induction batches as [|b batches IH]; intros v H; simpl in H.
  - injection H as <-. exists [], []. by rewrite !app_nil_r.
  - apply rbind_Ok_inv in H as (v1 & H1 & H).
    apply IH in H as (pairs & losses & Hp & Hl & E1 & E2 & E3).
    apply val_batch_inv in H1
      as (l1 & t & l2 & p & loss & Hf & _ & Hloss & Hdec & F1 & F2 & F3 & _).
    exists ((p, t) :: pairs), (item W loss :: losses).
    simpl. unfold prediction_of at 1, batch_loss_of at 1.
    rewrite Hf. simpl. rewrite Hdec, Hloss. simpl. rewrite Hp, Hl. simpl.
    rewrite E1, E2, E3, F1, F2, F3, <- !app_assoc. done.
Qed.

Lemma prediction_of_rows vae w dl positions p t :
  rows_kept W vae → prediction_of W vae w dl positions = Ok (p, t) →
  length p = length t.
Proof.
  intros Hk H. unfold prediction_of in H.
  apply rbind_Ok_inv in H as ([l1 t1] & Hf & H).
  apply rbind_Ok_inv in H as (q & Hdec & H). simpl in *. simplify_eq.
  apply fetch_batch_rows in Hf as [Hl1 Ht].
  apply (decoded_position_rows _ _ _ _ _ Hk) in Hdec. congruence.
Qed.

Lemma twice_as_many_rows (pairs : list (tensor2 (num W) * tensor2 (num W))) :
  Forall (λ pt, length pt.1 = length pt.2) pairs →
  length (concat (concat ((λ pt, [pt.1; pt.1]) <$> pairs)))
  = (2 * length (concat pairs.*2))%nat.
Proof.
  induction 1 as [|[p t] pairs Hpt _ IH]; [done|].
  rewrite !fmap_cons. cbn [concat app fst snd] in *.
  rewrite !length_app, IH, Hpt. lia.
Qed.

(** C9: a validation batch appends the positions decoded from its latents
    twice to the list of poses and its targets once to the list of
    targets. The arrays an epoch hands to [plot_scatter] for
    [val_scatter.png] are the concatenations of these lists over the
    batches of the test loader: each batch's positions, under the weights
    the epoch has trained, two times in a row, against each batch's
    targets one time. With models that give one pose per sample, the poses
    have twice as many rows as the targets. *)
Theorem validation_poses_twice su lv epoch d d' lv' :
  rows_kept W (su_action_vae W su) →
  epoch_body W su lv epoch d = (d', Ok lv') →
  (∀ w dl (v v' : ValVars W) positions,
     val_batch W (su_action_vae W su) w dl v positions = Ok v' →
     ∃ end_pose target,
       prediction_of W (su_action_vae W su) w dl positions = Ok (end_pose, target)
       ∧ vv_end_poses W v' = vv_end_poses W v ++ [end_pose; end_pose]
       ∧ vv_target_poses W v' = vv_target_poses W v ++ [target])
  ∧ ∃ pairs,
      mapR (prediction_of W (su_action_vae W su) (lv_weights W lv')
              (su_test_loader W su))
           (loader_batches W epoch (su_test_loader W su)) = Ok pairs
      ∧ let val_poses := concat (concat ((λ pt, [pt.1; pt.1]) <$> pairs)) in
        let val_targets := concat pairs.*2 in
        files d' !! os_path_join (su_save_path W su) ["val_scatter.png"]
          = Some (ScatterPng val_poses val_targets)
        ∧ length val_poses = (2 * length val_targets)%nat.
Proof.
  intros Hk H. split.
  - intros w dl v v' positions Hv.
    apply val_batch_inv in Hv
      as (l1 & t & l2 & p & loss & Hf & _ & _ & Hdec & _ & Hp & Ht & _).
    exists p, t. split; [|done].
    unfold prediction_of. rewrite Hf. simpl. by rewrite Hdec.
  - apply epoch_body_inv in H
      as (tv & vv & trp & trt & vp & vt & lat & cols & _ & Hvv & _ & _
          & Hvp & Hvt & _ & _ & -> & _ & ->).
    apply val_batches_inv in Hvv as (pairs & losses & Hpairs & _ & _ & Hp & Ht).
    simpl in Hp, Ht.
    apply np_concatenate_Ok in Hvp as [-> _].
    apply np_concatenate_Ok in Hvt as [-> _].
    exists pairs. split; [exact Hpairs|]. cbv zeta. split.
    + unfold with_file; simpl.
      rewrite lookup_insert_ne by paths_differ.
      rewrite lookup_insert_ne by paths_differ.
      rewrite lookup_insert_ne by paths_differ.
      rewrite lookup_insert_ne by paths_differ.
      by rewrite lookup_insert_eq, Hp, Ht.
    + apply twice_as_many_rows.
      apply mapR_Ok_inv in Hpairs. clear Hp Ht.
      induction Hpairs as [|b [p t] bs ps Hb _ IH]; constructor; [|exact IH].
      simpl. by eapply prediction_of_rows.
Qed.

End Validation.

Lemma toy_rows_kept load vae_load draws item_of :
  rows_kept (Toy.world load vae_load draws item_of) Toy.vae.
Proof.
  split; simpl.
  - intros _ w x y. destruct (Toy.rows_of 2 x); [|discriminate].
    intros [= <-]. apply length_map.
  - by intros x y [= <-].
  - intros x y [= <-]. apply length_map.
  - intros x y [= <-]. apply length_map.
Qed.

(** The first epoch of a toy run: the test loader yields one batch of two
    samples, and four poses are plotted against two targets. *)
Lemma validation_poses_twice_witness :
  ∃ d' lv',
    epoch_body (Toy.world_of 4) Toy.setup_of Toy.loop_vars 0 Toy.empty_disk
      = (d', Ok lv')
    ∧ ∃ pairs,
        mapR (prediction_of (Toy.world_of 4) Toy.vae (lv_weights _ lv')
                Toy.test_loader)
             (loader_batches (Toy.world_of 4) 0 Toy.test_loader) = Ok pairs
        ∧ files d' !! "../policy_log/toy/val_scatter.png"
          = Some (ScatterPng (concat (concat ((λ pt, [pt.1; pt.1]) <$> pairs)))
                             (concat pairs.*2))
        ∧ length (concat (concat ((λ pt, [pt.1; pt.1]) <$> pairs)))
          = (2 * length (concat pairs.*2))%nat.
Proof.
  assert (Hruns : exception_of
            (epoch_body (Toy.world_of 4) Toy.setup_of Toy.loop_vars 0
               Toy.empty_disk).2 = None) by (vm_compute; reflexivity).
  destruct (epoch_body (Toy.world_of 4) Toy.setup_of Toy.loop_vars 0 Toy.empty_disk)
    as [d' [lv'|e]] eqn:Hepoch; [|discriminate Hruns].
  exists d', lv'. split; [reflexivity|].
  eapply (validation_poses_twice (Toy.world_of 4) Toy.setup_of Toy.loop_vars 0
            Toy.empty_disk).
  - apply toy_rows_kept.
  - exact Hepoch.
Defined.

(** ** Checkpoints *)

Section Checkpoints.
Variable W : World.
Implicit Types d : disk (weights W) (num W).

Lemma run_epochs_S su n lv d :
  run_epochs W su (S n) lv d
  = match run_epochs W su n lv d with
    | (d1, Ok lv1) => epoch_body W su lv1 n d1
    | (d1, Raise e) => (d1, Raise e)
    end.
Proof.
  unfold run_epochs. rewrite seq_S, foldM_app. unfold bind at 1.
  destruct (foldM _ (seq 0 n) lv d) as [d1 [lv1|e]]; [|done].
  simpl. unfold bind, ret. by destruct (epoch_body W su lv1 n d1) as [d2 [lv2|e]].
Qed.

(** What was written during an epoch: the six plots, after the checkpoint
    when the loss improved. *)
Lemma epoch_writes su lv epoch d d' lv' :
  epoch_body W su lv epoch d = (d', Ok lv') →
  ∃ loss,
    let dir := su_save_path W su in
    let better := f64_ltb loss (lv_best_val W lv) in
    avg_val_loss W su (lv_weights W lv') epoch = Ok loss
    ∧ lv_avg_val_losses W lv' = lv_avg_val_losses W lv ++ [loss]
    ∧ lv_best_val W lv' = (if better then loss else lv_best_val W lv)
    ∧ writes_between d d'
      = [os_path_join dir ["avg_log_mse.png"]; os_path_join dir ["avg_mse.png"];
         os_path_join dir ["latents_distribution.png"];
         os_path_join dir ["full_scatter.png"];
         os_path_join dir ["val_scatter.png"];
         os_path_join dir ["train_scatter.png"]]
        ++ (if better then [checkpoint_path dir] else [])
    ∧ files d' !! checkpoint_path dir
      = (if better then Some (Checkpoint (lv_weights W lv'))
         else files d !! checkpoint_path dir)
    ∧ (∀ path, has_file d path → has_file d' path)
    ∧ Forall (has_file d')
        [os_path_join dir ["avg_log_mse.png"]; os_path_join dir ["avg_mse.png"];
         os_path_join dir ["latents_distribution.png"];
         os_path_join dir ["full_scatter.png"];
         os_path_join dir ["val_scatter.png"];
         os_path_join dir ["train_scatter.png"]].
Proof.
  intros H. apply epoch_body_inv in H
    as (tv & vv & trp & trt & vp & vt & lat & cols & _ & Hvv & _ & _ & _ & _ & _ & _
        & -> & _ & ->).
  exists (np_mean W (vv_val_losses W vv)). cbv zeta. simpl.
  split.
  { apply val_batches_inv in Hvv as (pairs & losses & _ & Hl & -> & _).
    unfold avg_val_loss. by rewrite Hl. }
  split; [done|]. split; [done|].
  set (better := f64_ltb _ _). unfold checkpoint_path.
  split; [|split; [|split]].
  - unfold writes_between, with_file. simpl.
    destruct better; simpl.
    + replace (S (S (S (S (S (S (S (length (written d)))))))) - length (written d))%nat
        with 7%nat by lia. done.
    + replace (S (S (S (S (S (S (length (written d))))))) - length (written d))%nat
        with 6%nat by lia. done.
  - unfold with_file. simpl.
    do 6 (rewrite lookup_insert_ne by paths_differ).
    destruct better; simpl; [by rewrite lookup_insert_eq|done].
  - intros path [f Hf]. unfold has_file, with_file. simpl.
    repeat (rewrite lookup_insert; case_decide; [by eexists|]).
    destruct better; simpl; [|by eexists].
    rewrite lookup_insert; case_decide; by eexists.
  - unfold has_file, with_file. simpl.
    repeat (constructor; [repeat (rewrite lookup_insert; case_decide; [by eexists|]); done|]).
    constructor.
Qed.

Lemma run_epochs_best su n lv0 d0 lv d :
  lv_best_val W lv0 = np_inf → lv_avg_val_losses W lv0 = [] →
  run_epochs W su n lv0 d0 = (d, Ok lv) →
  lv_best_val W lv = running_best (lv_avg_val_losses W lv)
  ∧ length (lv_avg_val_losses W lv) = n.
Proof.
  intros Hb Hl. revert lv d. induction n as [|n IH]; intros lv d H.
  - unfold run_epochs in H. simpl in H. injection H as <- <-.
    by rewrite Hb, Hl.
  - rewrite run_epochs_S in H.
    destruct (run_epochs W su n lv0 d0) as [d1 [lv1|e]]; [|discriminate].
    destruct (IH lv1 d1 eq_refl) as [IHb IHn].
    apply epoch_writes in H as (loss & _ & Hlosses & Hbest & _).
    rewrite Hlosses, running_best_snoc, Hbest, IHb, length_app. simpl.
    split; [done|lia].
Qed.

(** Every loss the loop has recorded is the average validation loss of
    its epoch, under the weights that epoch has trained. *)
Lemma run_epochs_losses su n lv0 d0 lv d :
  lv_avg_val_losses W lv0 = [] →
  run_epochs W su n lv0 d0 = (d, Ok lv) →
  length (lv_avg_val_losses W lv) = n
  ∧ ∀ k l, lv_avg_val_losses W lv !! k = Some l →
      ∃ dk lvk, run_epochs W su (S k) lv0 d0 = (dk, Ok lvk)
                ∧ avg_val_loss W su (lv_weights W lvk) k = Ok l.
Proof.
  intros Hl. revert lv d. induction n as [|n IH]; intros lv d H.
  - unfold run_epochs in H. simpl in H. injection H as <- <-.
    rewrite Hl. split; [done|]. intros k l Hk. by rewrite lookup_nil in Hk.
  - pose proof H as Hrun. rewrite run_epochs_S in H.
    destruct (run_epochs W su n lv0 d0) as [d1 [lv1|e]]; [|discriminate].
    destruct (IH lv1 d1 eq_refl) as [IHn IHl].
    apply epoch_writes in H as (loss & Hloss & Hlosses & _).
    rewrite Hlosses, length_app. simpl. split; [lia|].
    intros k l Hk. destruct (decide (k < n)%nat) as [Hlt|Hge].
    + rewrite lookup_app_l in Hk by lia. by apply IHl.
    + rewrite lookup_app_r in Hk by lia.
      destruct (k - length (lv_avg_val_losses W lv1))%nat as [|j] eqn:Ej;
        [|by rewrite lookup_cons, lookup_nil in Hk].
      injection Hk as <-. assert (k = n) as -> by lia.
      by exists d, lv.
Qed.

Lemma nan_or_number (l : float) : l = np_nan ∨ l ≠ np_nan.
Proof. destruct l; [by right|by right|by left|by right]. Qed.

(** The checkpoint after [n] epochs that raised nothing: as it was before
    them while no loss has been below +infinity, and else the weights of
    the first epoch whose loss is the running best. *)
Lemma run_epochs_checkpoint_file su n lv0 d0 lv d :
  lv_best_val W lv0 = np_inf → lv_avg_val_losses W lv0 = [] →
  run_epochs W su n lv0 d0 = (d, Ok lv) →
  let path := checkpoint_path (su_save_path W su) in
  let losses := lv_avg_val_losses W lv in
  let best := lv_best_val W lv in
  (best = np_inf ∧ files d !! path = files d0 !! path
   ∧ ∀ l, l ∈ losses → f64_ltb l np_inf = false)
  ∨ (∃ k dk lvk,
       run_epochs W su (S k) lv0 d0 = (dk, Ok lvk)
       ∧ losses !! k = Some best
       ∧ f64_ltb best np_inf = true
       ∧ (∀ j l, (j < k)%nat → losses !! j = Some l →
            l = np_nan ∨ f64_ltb best l = true)
       ∧ files d !! path = Some (Checkpoint (lv_weights W lvk))).
Proof.
  intros Hb Hl. revert lv d. induction n as [|n IH]; intros lv d Hrun path losses best.
  - unfold run_epochs in Hrun. simpl in Hrun. injection Hrun as <- <-.
    left. unfold losses. rewrite Hl. split; [done|]. split; [done|].
    by intros l ?%elem_of_nil.
  - pose proof Hrun as Hrun'. rewrite run_epochs_S in Hrun.
    destruct (run_epochs W su n lv0 d0) as [d1 [lv1|e]] eqn:Hprev; [|discriminate].
    destruct (run_epochs_best _ _ _ _ _ _ Hb Hl Hprev) as [Hrb Hlen].
    specialize (IH lv1 d1 eq_refl). cbv zeta in IH. fold path in IH.
    apply epoch_writes in Hrun as (loss & _ & Hlosses & Hbest & _ & Hfile & _).
    cbv zeta in Hbest, Hfile. fold path in Hfile.
    unfold losses, best. rewrite Hlosses, Hbest.
    destruct (f64_ltb loss (lv_best_val W lv1)) eqn:Hbetter.
    + right. exists n, d, lv. split; [done|].
      split; [by rewrite lookup_app_r, Hlen, Nat.sub_diag by lia|].
      rewrite Hrb in Hbetter. apply below_running_best in Hbetter as [Hinf Hall].
      split; [done|]. split; [|by rewrite Hfile].
      intros j l Hj Hjl. rewrite lookup_app_l in Hjl by lia.
      destruct (nan_or_number l) as [?|Hnum]; [by left|right].
      apply Hall; [|done]. by eapply list_elem_of_lookup_2.
    + destruct IH as [(Hinf & Hsame & Hnone)|(k & dk & lvk & Hk & Hlk & Hlt & Hfirst & Hf)].
      * left. split; [done|]. split; [by rewrite Hfile|].
        intros l [Hin|Hin%list_elem_of_singleton]%elem_of_app; [auto|].
        subst l. by rewrite <- Hinf.
      * right. exists k, dk, lvk. split; [done|].
        assert (k < n)%nat by (apply lookup_lt_Some in Hlk; lia).
        split; [by rewrite lookup_app_l by lia|]. split; [done|].
        split; [|by rewrite Hfile].
        intros j l Hj Hjl. rewrite lookup_app_l in Hjl by lia. by eapply Hfirst.
Qed.

(** C1 (as the code has it): the loss an epoch records is the mean of the
    losses of the batches of the test loader, under the weights the epoch
    has trained, and so is every loss recorded before it, each for its own
    epoch. The checkpoint is written in an epoch if and only if this
    average validation loss is strictly below the running best: below
    +infinity and below the average validation loss of every earlier epoch
    whose loss is a number (an epoch whose loss is NaN never becomes the
    best and is skipped by the comparison). The file then holds the
    policy's weights of that epoch; otherwise it is left as it was. *)
Theorem checkpoint_saved su lv0 d0 n lv d lv' d' :
  lv_best_val W lv0 = np_inf → lv_avg_val_losses W lv0 = [] →
  run_epochs W su n lv0 d0 = (d, Ok lv) →
  epoch_body W su lv n d = (d', Ok lv') →
  let path := checkpoint_path (su_save_path W su) in
  ∃ loss,
    avg_val_loss W su (lv_weights W lv') n = Ok loss
    ∧ lv_avg_val_losses W lv' = lv_avg_val_losses W lv ++ [loss]
    ∧ length (lv_avg_val_losses W lv) = n
    ∧ (∀ k l, lv_avg_val_losses W lv !! k = Some l →
         ∃ dk lvk, run_epochs W su (S k) lv0 d0 = (dk, Ok lvk)
                   ∧ avg_val_loss W su (lv_weights W lvk) k = Ok l)
    ∧ (saved_in d d' path
       ↔ f64_ltb loss np_inf = true
         ∧ ∀ l, l ∈ lv_avg_val_losses W lv → l ≠ np_nan → f64_ltb loss l = true)
    ∧ (saved_in d d' path → files d' !! path = Some (Checkpoint (lv_weights W lv')))
    ∧ (¬ saved_in d d' path → files d' !! path = files d !! path).
Proof.
  intros Hb Hl Hrun Hepoch path.
  destruct (run_epochs_best _ _ _ _ _ _ Hb Hl Hrun) as [Hbest Hn].
  destruct (run_epochs_losses _ _ _ _ _ _ Hl Hrun) as [_ Hpast].
  apply epoch_writes in Hepoch as (loss & Hloss & Hlosses & _ & Hw & Hfile & _).
  cbv zeta in Hw, Hfile. fold path in Hw, Hfile.
  exists loss. do 4 (split; [done|]).
  assert (Hsaved : saved_in d d' path ↔ f64_ltb loss (lv_best_val W lv) = true).
  { unfold saved_in. rewrite Hw. destruct (f64_ltb loss (lv_best_val W lv)).
    - split; [done|]. intros _. apply elem_of_app. right. by left.
    - split; [|done]. rewrite app_nil_r. intros Hin. exfalso.
      repeat (apply elem_of_cons in Hin as [Hin|Hin];
              [revert Hin; unfold path, checkpoint_path; paths_differ|]).
      by apply elem_of_nil in Hin. }
  split; [|split].
  - rewrite Hsaved, Hbest. apply below_running_best.
  - intros Hs. apply Hsaved in Hs. by rewrite Hfile, Hs.
  - intros Hs. destruct (f64_ltb loss (lv_best_val W lv)) eqn:E; [|done].
    exfalso. by apply Hs, Hsaved.
Qed.

End Checkpoints.

(** The second epoch of a toy run: its average validation loss, 98, is
    the mean of the loss of the one batch of the test loader; the first
    epoch had 50, so nothing is saved. *)
Lemma checkpoint_saved_witness :
  ∃ lv d lv' d',
    run_epochs (Toy.world_of 4) Toy.setup_of 1 Toy.loop_vars Toy.empty_disk
      = (d, Ok lv)
    ∧ epoch_body (Toy.world_of 4) Toy.setup_of lv 1 d = (d', Ok lv')
    ∧ ∃ loss,
        avg_val_loss (Toy.world_of 4) Toy.setup_of (lv_weights _ lv') 1 = Ok loss
        ∧ lv_avg_val_losses _ lv' = lv_avg_val_losses _ lv ++ [loss]
        ∧ (saved_in d d' "../policy_log/toy/model.pth.tar"
           ↔ f64_ltb loss np_inf = true
             ∧ ∀ l, l ∈ lv_avg_val_losses _ lv → l ≠ np_nan → f64_ltb loss l = true).
Proof.
  assert (Hruns : exception_of
            (run_epochs (Toy.world_of 4) Toy.setup_of 2 Toy.loop_vars
               Toy.empty_disk).2 = None) by (vm_compute; reflexivity).
  rewrite run_epochs_S in Hruns.
  destruct (run_epochs (Toy.world_of 4) Toy.setup_of 1 Toy.loop_vars Toy.empty_disk)
    as [d [lv|e]] eqn:Hrun; [|discriminate Hruns].
  destruct (epoch_body (Toy.world_of 4) Toy.setup_of lv 1 d)
    as [d' [lv'|e]] eqn:Hepoch; [|discriminate Hruns].
  exists lv, d, lv', d'. split; [reflexivity|]. split; [exact Hepoch|].
  destruct (checkpoint_saved (Toy.world_of 4) Toy.setup_of Toy.loop_vars
              Toy.empty_disk 1 lv d lv' d')
    as (loss & Hloss & Hlosses & _ & _ & Hsaved & _);
    [reflexivity|reflexivity|exact Hrun|exact Hepoch|].
  exists loss. split; [exact Hloss|]. split; [exact Hlosses|exact Hsaved].
Defined.

(** C1 (as stated) fails: when the first epoch's average validation loss is
    NaN, the second epoch, with loss 98, writes the checkpoint, although 98
    is not strictly smaller than the loss of every previous epoch: the
    comparison with NaN is false. *)
Lemma saved_after_nan :
  match setup (Toy.world_nan 4 50) (Toy.args 2 1 false) Toy.empty_disk with
  | (d0, Ok (su, lv0)) =>
      match run_epochs _ su 1 lv0 d0 with
      | (d1, Ok lv1) =>
          match epoch_body _ su lv1 1 d1 with
          | (d2, Ok lv2) =>
              lv_avg_val_losses _ lv2 = [np_nan; float_of_int 98]
              ∧ writes_between d0 d1
                = ["../policy_log/toy/avg_log_mse.png";
                   "../policy_log/toy/avg_mse.png";
                   "../policy_log/toy/latents_distribution.png";
                   "../policy_log/toy/full_scatter.png";
                   "../policy_log/toy/val_scatter.png";
                   "../policy_log/toy/train_scatter.png"]
              ∧ writes_between d1 d2
                = ["../policy_log/toy/avg_log_mse.png";
                   "../policy_log/toy/avg_mse.png";
                   "../policy_log/toy/latents_distribution.png";
                   "../policy_log/toy/full_scatter.png";
                   "../policy_log/toy/val_scatter.png";
                   "../policy_log/toy/train_scatter.png";
                   "../policy_log/toy/model.pth.tar"]
              ∧ f64_ltb (float_of_int 98) np_nan = false
          | _ => False
          end
      | _ => False
      end
  | _ => False
  end.
Proof. vm_compute. repeat split. Qed.

(** ** The files a run touches *)

Section Footprint.
Context {weights num : Type}.
Implicit Types d : disk weights num.
Implicit Types paths : list string.

Lemma extends_within_refl paths d : extends_within paths d d.
Proof. split; [by exists []|done]. Qed.

Lemma extends_within_trans paths d1 d2 d3 :
  extends_within paths d1 d2 → extends_within paths d2 d3 →
  extends_within paths d1 d3.
Proof.
  intros ((w1 & E1 & F1) & K1 & H1) ((w2 & E2 & F2) & K2 & H2).
  split; [|split].
  - exists (w2 ++ w1). rewrite E2, E1, app_assoc. split; [done|].
    by apply Forall_app.
  - intros p Hp. by rewrite K2, K1.
  - auto.
Qed.

Lemma extends_within_write paths path (f : file weights num) d :
  path ∈ paths → extends_within paths d (with_file path f d).
Proof.
  intros Hin. split; [|split]; simpl.
  - exists [path]. split; [done|]. by constructor.
  - intros p Hp. apply lookup_insert_ne. by intros ->.
  - intros p [g Hg]. unfold has_file. simpl.
    rewrite lookup_insert. case_decide; by eexists.
Qed.

Lemma extends_within_mono paths paths' d d' :
  (∀ p, p ∈ paths → p ∈ paths') →
  extends_within paths d d' → extends_within paths' d d'.
Proof.
  intros Hsub ((ws & E & F) & K & H). split; [|split; [|done]].
  - exists ws. split; [done|]. eapply Forall_impl; [exact F|]. auto.
  - intros p Hp. apply K. auto.
Qed.

Lemma touches_only_ret {A} paths (a : A) :
  touches_only paths (ret a : M weights num A).
Proof. intros d. apply extends_within_refl. Qed.

Lemma touches_only_raise {A} paths e :
  touches_only paths (raise e : M weights num A).
Proof. intros d. apply extends_within_refl. Qed.

Lemma touches_only_lift {A} paths (r : result A) :
  touches_only paths (lift r : M weights num A).
Proof. intros d. apply extends_within_refl. Qed.

Lemma touches_only_write paths path (f : file weights num) :
  path ∈ paths → touches_only paths (write_file path f).
Proof. intros Hin d. by apply extends_within_write. Qed.

Lemma touches_only_bind {A B} paths (m : M weights num A) (k : A → M weights num B) :
  touches_only paths m → (∀ a, touches_only paths (k a)) →
  touches_only paths (bind m k).
Proof.
  intros Hm Hk d. unfold bind. specialize (Hm d).
  destruct (m d) as [d1 [a|e]]; simpl in *; [|done].
  eapply extends_within_trans; [exact Hm|apply Hk].
Qed.

Lemma touches_only_foldM {A S} paths (f : S → A → M weights num S) (l : list A) (s : S) :
  (∀ s x, touches_only paths (f s x)) → touches_only paths (foldM f l s).
Proof.
  intros Hf. revert s. induction l as [|x l IH]; intros s; simpl.
  - apply touches_only_ret.
  - apply touches_only_bind; [apply Hf|]. intros s'. apply IH.
Qed.

End Footprint.

Ltac touches_step :=
  first [ apply touches_only_bind; [|intros ?]
        | apply touches_only_ret
        | apply touches_only_raise
        | apply touches_only_lift
        | apply touches_only_write ].

Section FootprintMain.
Variable W : World.
Implicit Types d : disk (weights W) (num W).

Lemma in_epoch_files dir name :
  name ∈ [ "model.pth.tar"; "train_scatter.png"; "val_scatter.png";
           "full_scatter.png"; "latents_distribution.png"; "avg_mse.png";
           "avg_log_mse.png" ] →
  os_path_join dir [name] ∈ epoch_files dir.
Proof.
  intros H. unfold epoch_files.
  by apply (list_elem_of_fmap_2 (λ n, os_path_join dir [n])).
Qed.

Lemma touches_only_plot_scatter paths (a b : tensor2 (num W)) path :
  path ∈ paths → touches_only paths (plot_scatter W a b path).
Proof. intros H. unfold plot_scatter. by repeat touches_step. Qed.

Lemma touches_only_plot_latents paths (a : tensor2 (num W)) path :
  path ∈ paths → touches_only paths (plot_latent_distributions W a path).
Proof.
  intros H. unfold plot_latent_distributions.
  destruct (shape1 W a) as [|[|k]]; by repeat touches_step.
Qed.

Lemma touches_only_plot_loss paths (a b : list float) title path :
  path ∈ paths → touches_only paths (plot_loss W a b title path).
Proof.
  intros H. unfold plot_loss. case_bool_decide; by repeat touches_step.
Qed.

Lemma touches_only_epoch_body su lv epoch :
  touches_only (epoch_files (su_save_path W su)) (epoch_body W su lv epoch).
Proof.
  unfold epoch_body, checkpoint_path.
  repeat first
    [ apply touches_only_plot_scatter
    | apply touches_only_plot_latents
    | apply touches_only_plot_loss
    | match goal with |- touches_only _ (if ?b then _ else _) => destruct b end
    | touches_step ];
    apply in_epoch_files; set_solver.
Qed.

Lemma touches_only_run_epochs su n lv :
  touches_only (epoch_files (su_save_path W su)) (run_epochs W su n lv).
Proof. apply touches_only_foldM. intros s x. apply touches_only_epoch_body. Qed.

Lemma arguments_not_epoch_file dir :
  os_path_join dir ["arguments.txt"] ∉ epoch_files dir.
Proof.
  unfold epoch_files. cbn [map]. rewrite !not_elem_of_cons.
  repeat split; try paths_differ. apply not_elem_of_nil.
Qed.

Lemma epoch_files_output dir p : p ∈ epoch_files dir → p ∈ output_files dir.
Proof. intros H. by right. Qed.

End FootprintMain.

(** ** The output directory *)

Section Output.
Variable W : World.
Implicit Types d : disk (weights W) (num W).

(** C5 (as the code has it): a completed run of [main] has written the
    arguments file first and then run [--num-epoch] epochs, recording for
    each the average validation loss of the test loader's batches under
    the weights that epoch has trained. The arguments file holds the
    arguments at the end. With [--num-epoch] at most zero nothing else was
    written. With at least one epoch the directory holds the six plots.
    The checkpoint: if some epoch's average validation loss was below
    +infinity, the file holds the weights of one of the epochs, the first
    whose loss is the least, NaN losses aside; if none was, the file is as
    it was before the run. *)
Theorem output_directory (args : Args) d d' lv :
  main W args d = (d', Ok lv) →
  let dir := save_dir args in
  let d0 := with_file (arguments_path args) (ArgumentsTxt (vars args)) d in
  let losses := lv_avg_val_losses W lv in
  ∃ su lv0,
    setup W args d = (d0, Ok (su, lv0))
    ∧ run_epochs W su (Z.to_nat (num_epoch args)) lv0 d0 = (d', Ok lv)
    ∧ files d' !! os_path_join dir ["arguments.txt"]
      = Some (ArgumentsTxt (vars args))
    ∧ length losses = Z.to_nat (num_epoch args)
    ∧ (∀ k l, losses !! k = Some l →
         ∃ dk lvk, run_epochs W su (S k) lv0 d0 = (dk, Ok lvk)
                   ∧ avg_val_loss W su (lv_weights W lvk) k = Ok l)
    ∧ (num_epoch args ≤ 0 → d' = d0)
    ∧ (1 ≤ num_epoch args →
       Forall (has_file d')
         [os_path_join dir ["avg_log_mse.png"]; os_path_join dir ["avg_mse.png"];
          os_path_join dir ["latents_distribution.png"];
          os_path_join dir ["full_scatter.png"];
          os_path_join dir ["val_scatter.png"];
          os_path_join dir ["train_scatter.png"]])
    ∧ ((∃ l, l ∈ losses ∧ f64_ltb l np_inf = true) →
       ∃ k dk lvk best,
         run_epochs W su (S k) lv0 d0 = (dk, Ok lvk)
         ∧ losses !! k = Some best
         ∧ (∀ j l, (j < k)%nat → losses !! j = Some l →
              l = np_nan ∨ f64_ltb best l = true)
         ∧ (∀ l, l ∈ losses → f64_ltb l best = false)
         ∧ files d' !! os_path_join dir ["model.pth.tar"]
           = Some (Checkpoint (lv_weights W lvk)))
    ∧ ((∀ l, l ∈ losses → f64_ltb l np_inf = false) →
       files d' !! os_path_join dir ["model.pth.tar"]
       = files d !! os_path_join dir ["model.pth.tar"]).
Proof.
  intros Hmain dir d0 losses. unfold main in Hmain.
  apply bind_Ok_inv in Hmain as ([su lv0] & d1 & Hsetup & Hrun).
  pose proof Hsetup as Hsu.
  apply setup_inv in Hsu as (_ & Hd1 & Hdir & _ & _ & _ & Hb & _ & Hl & _).
  change (d1 = d0) in Hd1. subst d1. fold dir in Hdir.
  exists su, lv0. split; [done|]. split; [done|].
  destruct (touches_only_run_epochs W su (Z.to_nat (num_epoch args)) lv0 d0)
    as (_ & Hkeep & _).
  rewrite Hrun, Hdir in Hkeep. simpl in Hkeep.
  destruct (run_epochs_losses _ _ _ _ _ _ _ Hl Hrun) as [Hlen Hpast].
  destruct (run_epochs_best _ _ _ _ _ _ _ Hb Hl Hrun) as [Hrb _].
  pose proof (run_epochs_checkpoint_file _ _ _ _ _ _ _ Hb Hl Hrun) as Hfile.
  cbv zeta in Hfile. unfold checkpoint_path in Hfile. rewrite Hdir in Hfile.
  fold losses in Hfile, Hrb.
  split; [|split; [done|split; [done|split; [|split; [|split]]]]].
  - rewrite Hkeep by apply arguments_not_epoch_file.
    apply lookup_insert_eq.
  - intros Hn. replace (Z.to_nat (num_epoch args)) with 0%nat in Hrun by lia.
    unfold run_epochs in Hrun. simpl in Hrun. by injection Hrun as <- _.
  - intros Hn. destruct (Z.to_nat (num_epoch args)) as [|n] eqn:En; [lia|].
    rewrite run_epochs_S in Hrun.
    destruct (run_epochs W su n lv0 _) as [d2 [lv2|e]]; [|discriminate].
    apply epoch_writes in Hrun as (loss & _ & _ & _ & _ & _ & _ & Hplots).
    cbv zeta in Hplots. by rewrite Hdir in Hplots.
  - intros (l & Hin & Hlt).
    destruct Hfile as [(_ & _ & Hnone)|(k & dk & lvk & Hk & Hlk & _ & Hfirst & Hf)].
    + apply Hnone in Hin. congruence.
    + exists k, dk, lvk, (lv_best_val W lv). do 3 (split; [done|]).
      split; [|done]. intros l' Hin'. rewrite Hrb. by apply running_best_least.
  - intros Hnone.
    destruct Hfile as [(_ & Hsame & _)|(k & dk & lvk & _ & Hlk & Hlt & _)].
    + rewrite Hsame. simpl. apply lookup_insert_ne.
      unfold arguments_path. fold dir. paths_differ.
    + apply list_elem_of_lookup_2 in Hlk. apply Hnone in Hlk. congruence.
Qed.

End Output.

(** A toy run of one epoch: the loss 50 is recorded, and the directory
    holds the arguments, the plots and the weights the epoch has
    trained. *)
Lemma output_directory_witness :
  ∃ d' lv,
    main (Toy.world_of 4) (Toy.args 1 1 false) Toy.empty_disk = (d', Ok lv)
    ∧ lv_avg_val_losses _ lv = [float_of_int 50]
    ∧ files d' !! "../policy_log/toy/arguments.txt"
      = Some (ArgumentsTxt (vars (Toy.args 1 1 false)))
    ∧ has_file d' "../policy_log/toy/train_scatter.png"
    ∧ files d' !! "../policy_log/toy/model.pth.tar"
      = Some (Checkpoint (lv_weights _ lv)).
Proof.
  assert (Hlosses : val_losses_of
            (main (Toy.world_of 4) (Toy.args 1 1 false) Toy.empty_disk).2
          = Some [float_of_int 50]) by (vm_compute; reflexivity).
  destruct (main (Toy.world_of 4) (Toy.args 1 1 false) Toy.empty_disk)
    as [d' [lv|e]] eqn:Hmain; [|discriminate Hlosses].
  simpl in Hlosses. injection Hlosses as Hlosses.
  exists d', lv. split; [reflexivity|]. split; [exact Hlosses|].
  destruct (output_directory (Toy.world_of 4) (Toy.args 1 1 false) Toy.empty_disk
              d' lv Hmain)
    as (su & lv0 & _ & Hrun & Hargs & _ & _ & _ & Hplots & Hckpt & _).
  split; [exact Hargs|]. split.
  - apply (proj1 (Forall_forall _ _) (Hplots ltac:(simpl; lia))). do 5 right. left.
  - destruct Hckpt as (k & dk & lvk & best & Hk & Hlk & _ & _ & Hf).
    { exists (float_of_int 50). rewrite Hlosses. split; [left|reflexivity]. }
    rewrite Hlosses in Hlk. destruct k as [|k]; [|by destruct k].
    change (Z.to_nat (num_epoch (Toy.args 1 1 false))) with 1%nat in Hrun.
    rewrite Hrun in Hk. injection Hk as _ <-. exact Hf.
Defined.

(** C5 (as stated) fails: a run with [--num-epoch 0] completes and leaves
    only the arguments file; and a run of one epoch whose validation loss
    is NaN completes and leaves the plots but no checkpoint. *)
Lemma run_without_checkpoint :
  (let r := main (Toy.world_of 4) (Toy.args 0 1 false) Toy.empty_disk in
   exception_of r.2 = None
   ∧ written r.1 = ["../policy_log/toy/arguments.txt"]
   ∧ files r.1 !! "../policy_log/toy/model.pth.tar" = None
   ∧ files r.1 !! "../policy_log/toy/train_scatter.png" = None)
  ∧ (let r := main (Toy.world_nan 4 50) (Toy.args 1 1 false) Toy.empty_disk in
     val_losses_of r.2 = Some [np_nan]
     ∧ is_Some (files r.1 !! "../policy_log/toy/train_scatter.png")
     ∧ files r.1 !! "../policy_log/toy/model.pth.tar" = None).
Proof. vm_compute. repeat split; by eexists. Qed.

(** ** Error handling *)

Section Errors.
Variable W : World.
Implicit Types d : disk (weights W) (num W).

Lemma run_epochs_Raise_mono su m n lv0 d0 d' e :
  (m ≤ n)%nat → run_epochs W su m lv0 d0 = (d', Raise e) →
  run_epochs W su n lv0 d0 = (d', Raise e).
Proof.
  intros Hmn H. induction Hmn as [|n _ IH]; [done|].
  by rewrite run_epochs_S, IH.
Qed.

(** An epoch that raises ends the loop with its exception. *)
Lemma run_epochs_Raise su k n lv0 d0 lv dk d' e :
  (k < n)%nat → run_epochs W su k lv0 d0 = (dk, Ok lv) →
  epoch_body W su lv k dk = (d', Raise e) →
  run_epochs W su n lv0 d0 = (d', Raise e).
Proof.
  intros Hkn Hk He. apply (run_epochs_Raise_mono su (S k)); [lia|].
  by rewrite run_epochs_S, Hk.
Qed.

Lemma train_batch_Raise vae dl (v : TrainVars W) positions e :
  batch_loss_of W vae true (tv_weights W v) dl positions = Raise e →
  train_batch W vae dl v positions = Raise e.
Proof.
  unfold batch_loss_of, train_batch.
  destruct (fetch_batch W dl positions) as [[latent_1 target]|e0];
    [|simpl; by intros [= ->]].
  cbn [rbind fst snd]. rewrite <- (graph_loss W vae true).
  match goal with
  | |- _ → rbind ?g _ = _ => destruct g as [[[latent_2 end_pose] loss]|e']
  end; cbn [rbind snd]; [discriminate|by intros [= ->]].
Qed.

Lemma val_batch_Raise vae w dl (v : ValVars W) positions e :
  batch_loss_of W vae false w dl positions = Raise e →
  val_batch W vae w dl v positions = Raise e.
Proof.
  unfold batch_loss_of, val_batch.
  destruct (fetch_batch W dl positions) as [[latent_1 target]|e0];
    [|simpl; by intros [= ->]].
  cbn [rbind fst snd].
  unfold position_loss, decoded_position, last_of_axis2, unnormalize.
  destruct (policy_forward W false w latent_1) as [latent_2|]; simpl;
    [|by intros [= ->]].
  destruct (vae_decoder vae latent_2) as [t|]; simpl; [|by intros [= ->]].
  destruct (vae_to_trajectory vae t) as [t'|]; simpl; [|by intros [= ->]].
  destruct (mapR _ t') as [p|]; simpl; [|by intros [= ->]].
  destruct (end_effector_pose W _) as [q|]; simpl; [|by intros [= ->]].
  destruct (mse_loss W q target); simpl; [discriminate|by intros [= ->]].
Qed.

(** A batch that fails after batches that did not ends the pass. *)
Lemma foldR_Raise {A S} (f : S → A → result S) (pre post : list A) (b : A)
    (s0 s : S) e :
  foldR f pre s0 = Ok s → f s b = Raise e →
  foldR f (pre ++ b :: post) s0 = Raise e.
Proof. intros Hpre Hb. rewrite foldR_app, Hpre. simpl. by rewrite Hb. Qed.

Lemma epoch_body_train_Raise su lv epoch d e :
  train_pass W su lv epoch = Raise e → epoch_body W su lv epoch d = (d, Raise e).
Proof.
  intros H. unfold epoch_body. erewrite bind_Raise; [done|].
  unfold lift. by rewrite H.
Qed.

Lemma epoch_body_val_Raise su lv epoch d tv e :
  train_pass W su lv epoch = Ok tv →
  tv_end_poses W tv ≠ [] → tv_target_poses W tv ≠ [] →
  val_pass W su tv epoch = Raise e → epoch_body W su lv epoch d = (d, Raise e).
Proof.
  intros Htv Hp Ht H. unfold epoch_body.
  erewrite bind_Ok; [|unfold lift; by rewrite Htv].
  destruct (tv_end_poses W tv) as [|p ps]; [done|].
  destruct (tv_target_poses W tv) as [|t ts]; [done|].
  erewrite bind_Ok; [|reflexivity].
  erewrite bind_Ok; [|reflexivity].
  erewrite bind_Raise; [done|]. unfold lift. by rewrite H.
Qed.

Lemma save_arguments_Raise (args : Args) (path : string) d e :
  os_makedirs W path = Raise e
  ∨ (os_makedirs W path = Ok tt
     ∧ open_write W (os_path_join path ["arguments.txt"]) = Raise e) →
  save_arguments W args path d = (d, Raise e).
Proof.
  unfold save_arguments, bind, lift. intros [->|[-> H]]; [done|].
  by rewrite H.
Qed.

(** What [setup] raises once the arguments are written and the model
    index is positive: the exception of the first library call that
    fails. *)
Lemma setup_model_Raise (args : Args) d e :
  arguments_writable W args → 0 < model_index args →
  vae_of W args = Raise e →
  setup W args d
  = (with_file (arguments_path args) (ArgumentsTxt (vars args)) d, Raise e).
Proof.
  intros [H1 H2] Hidx He. unfold setup.
  erewrite bind_Ok; [|apply save_arguments_Ok; [exact H1|exact H2]].
  replace (0 <? model_index args) with true by (symmetry; apply Z.ltb_lt; lia).
  erewrite bind_Ok; [|reflexivity].
  erewrite bind_Raise; [reflexivity|]. unfold lift. unfold vae_of in He.
  by rewrite He.
Qed.

Lemma setup_data_Raise (args : Args) d vae w o e :
  arguments_writable W args → 0 < model_index args →
  vae_of W args = Ok vae →
  Predictor W (g_latent args) (latent_dim args) = Ok w →
  Adam W w (lr args) = Ok o →
  load_dataset W (g_name args) (debug args) = Raise e →
  setup W args d
  = (with_file (arguments_path args) (ArgumentsTxt (vars args)) d, Raise e).
Proof.
  intros [H1 H2] Hidx Hvae Hw Ho He. unfold setup.
  erewrite bind_Ok; [|apply save_arguments_Ok; [exact H1|exact H2]].
  replace (0 <? model_index args) with true by (symmetry; apply Z.ltb_lt; lia).
  erewrite bind_Ok; [|reflexivity].
  erewrite bind_Ok; [|unfold lift; unfold vae_of in Hvae; by rewrite Hvae].
  erewrite bind_Ok; [|unfold lift; by rewrite Hw].
  erewrite bind_Ok; [|unfold lift; by rewrite Ho].
  erewrite bind_Raise; [reflexivity|]. unfold lift. by rewrite He.
Qed.


End Errors.



(** ** Running to the end *)

Section Chunks.
Context {A : Type}.

Lemma chunks_fuel_spec (fuel k : nat) (l : list A) :
  (0 < k)%nat → (length l ≤ fuel)%nat →
  Forall (λ c, c ≠ [] ∧ ∀ x, x ∈ c → x ∈ l) (chunks_fuel fuel k l)
  ∧ (l ≠ [] → chunks_fuel fuel k l ≠ []).
Proof.
  intros Hk. revert l. induction fuel as [|fuel IH]; intros l Hlen.
  - destruct l; simpl in *; [|lia]. split; [constructor|done].
  - destruct l as [|x l]; simpl; [split; [constructor|done]|].
    split; [|done]. constructor.
    + split.
      * destruct k; [lia|done].
      * intros y Hy. change (y ∈ take k (x :: l)) in Hy.
        by apply (subseteq_take k (x :: l)).
    + destruct (IH (drop k (x :: l))) as [Hall _].
      { rewrite length_drop. simpl in *. lia. }
      eapply Forall_impl; [exact Hall|]. intros c [Hc Hin]. split; [done|].
      intros y Hy. apply Hin in Hy. by apply (subseteq_drop k (x :: l)).
Qed.

Lemma chunks_spec (k : nat) (l : list A) :
  (0 < k)%nat → l ≠ [] →
  chunks k l ≠ [] ∧ Forall (λ c, c ≠ [] ∧ ∀ x, x ∈ c → x ∈ l) (chunks k l).
Proof.
  intros Hk Hl. destruct (chunks_fuel_spec (length l) k l Hk (le_n _)) as [H1 H2].
  split; [by apply H2|exact H1].
Qed.

End Chunks.

Section Progress.
Variable W : World.
Implicit Types d : disk (weights W) (num W).

Lemma column_total (a : tensor2 (num W)) (i : nat) :
  Forall (λ r, (i < length r)%nat) a → ∃ c, column W a (Z.of_nat i) = Ok c.
Proof.
  intros H. unfold column.
  destruct (mapR_total (λ row, np_index row (Z.of_nat i)) (λ _, True) a)
    as (c & Hc & _); [|eauto].
  eapply Forall_impl; [exact H|]. intros r Hr. simpl.
  destruct (lookup_lt_is_Some_2 r i Hr) as [x Hx].
  exists x. split; [|done]. by apply np_index_nat_Ok.
Qed.

Lemma column_length (a : tensor2 (num W)) (i : Z) c :
  column W a i = Ok c → length c = length a.
Proof. intros H. by apply mapR_Ok_inv, Forall2_length in H. Qed.

Lemma column_values (P : num W → Prop) (a : tensor2 (num W)) (i : Z) c :
  Forall (Forall P) a → column W a i = Ok c → Forall P c.
Proof.
  intros Ha H. apply mapR_Ok_inv in H.
  induction H as [|r x a' c' Hx _ IH]; [constructor|].
  apply Forall_cons in Ha as [Hr Ha]. constructor; [|by apply IH].
  apply np_index_elem in Hx. by apply (proj1 (Forall_forall _ _) Hr).
Qed.

Lemma plot_scatter_total (a b : tensor2 (num W)) path d :
  (∀ x y, length x = length y → plt_scatter W x y = Ok tt) →
  plt_savefig W path = Ok tt →
  wide W a → wide W b →
  plot_scatter W a b path d = (with_file path (ScatterPng a b) d, Ok tt).
Proof.
  intros Hsc Hsave Ha Hb. unfold plot_scatter.
  assert (H0 : ∀ x : tensor2 (num W), wide W x → ∃ c, column W x 0 = Ok c).
  { intros x Hx. apply (column_total x 0). eapply Forall_impl; [exact Hx|].
    simpl. lia. }
  assert (H1 : ∀ x : tensor2 (num W), wide W x → ∃ c, column W x 1 = Ok c).
  { intros x Hx. apply (column_total x 1). eapply Forall_impl; [exact Hx|].
    simpl. lia. }
  destruct (H0 b Hb) as [b0 E1], (H1 b Hb) as [b1 E2],
           (H0 a Ha) as [a0 E3], (H1 a Ha) as [a1 E4].
  unfold bind, lift. rewrite E1, E2.
  rewrite Hsc by (by rewrite (column_length _ _ _ E1), (column_length _ _ _ E2)).
  rewrite E3, E4.
  rewrite Hsc by (by rewrite (column_length _ _ _ E3), (column_length _ _ _ E4)).
  by rewrite Hsave.
Qed.

Lemma plot_latent_distributions_total L (P : num W → Prop) (a : tensor2 (num W))
    path :
  (∀ x, x ≠ [] → Forall P x → plt_hist W x = Ok tt) →
  plt_savefig W path = Ok tt →
  (2 ≤ L)%nat → latent_rows W L P a →
  ∃ columns, ∀ d,
    plot_latent_distributions W a path d
    = (with_file path (LatentsPng columns) d, Ok tt).
Proof.
  intros Hhist Hsave HL (Hne & Hrows & Hvals).
  assert (Hshape : shape1 W a = L).
  { destruct a as [|r a]; [done|]. simpl. by inversion Hrows. }
  destruct L as [|[|L]]; [lia..|].
  destruct (mapR_total
              (λ i, rbind (column W a (Z.of_nat i)) (λ batch,
                    rbind (plt_hist W batch) (λ _, Ok batch)))
              (λ _, True) (seq 0 (S (S L)))) as (cols & Hcols & _).
  { apply Forall_forall. intros i Hi%elem_of_seq.
    destruct (column_total a i) as [c Hc].
    { eapply Forall_impl; [exact Hrows|]. simpl. intros r ->. lia. }
    exists c. split; [|done]. rewrite Hc. simpl.
    rewrite Hhist; [done| |by eapply column_values].
    apply column_length in Hc. destruct c, a; simpl in *; done. }
  exists cols. intros d. unfold plot_latent_distributions.
  rewrite Hshape. unfold bind, lift. by rewrite Hcols, Hsave.
Qed.

Lemma plot_loss_total (a b : list float) title path d :
  (∀ x, plt_plot W x = Ok tt) → plt_savefig W path = Ok tt →
  length b = length a →
  plot_loss W a b title path d = (with_file path (LossPng title a b) d, Ok tt).
Proof.
  intros Hplot Hsave H. unfold plot_loss, bind, lift.
  rewrite bool_decide_true by done. by rewrite !Hplot, Hsave.
Qed.

Lemma last_of_axis2_total (t : tensor3 (num W)) :
  Forall (Forall (λ steps, steps ≠ [])) t → ∃ p, last_of_axis2 t = Ok p.
Proof.
  intros H. unfold last_of_axis2.
  destruct (mapR_total (mapR (λ steps : list (num W), np_index steps (-1)))
              (λ _, True) t) as (p & Hp & _); [|eauto].
  eapply Forall_impl; [exact H|]. intros joints Hj. simpl.
  destruct (mapR_total (λ steps : list (num W), np_index steps (-1))
              (λ _, True) joints) as (q & Hq & _); [|eauto].
  eapply Forall_impl; [exact Hj|]. intros steps Hs. simpl.
  destruct (np_index_last steps Hs) as [x Hx]. eauto.
Qed.

End Progress.

Section ProgressLoop.
Variable W : World.
Variable su : Setup W.
Variables G L : nat.
Variable P : num W → Prop.
Hypothesis Hready : loop_ready W su G L P.
Implicit Types d : disk (weights W) (num W).

(** What the models give of a batch they accept. *)
Lemma batch_total dl positions (training : bool) (w : weights W) :
  batch_ok W G dl positions →
  ∃ latent_1 target latent_2 tr tr' q end_pose loss,
    fetch_batch W dl positions = Ok (latent_1, target)
    ∧ policy_forward W training w latent_1 = Ok latent_2
    ∧ vae_decoder (su_action_vae W su) latent_2 = Ok tr
    ∧ vae_to_trajectory (su_action_vae W su) tr = Ok tr'
    ∧ last_of_axis2 tr' = Ok q
    ∧ end_effector_pose W (unnormalize W q) = Ok end_pose
    ∧ mse_loss W end_pose target = Ok loss
    ∧ rows W 3 end_pose ∧ rows W 3 target ∧ latent_rows W L P latent_2.
Proof.
  intros (l1 & t & Hf & Hne & Hrows & Hlen & Ht).
  pose proof (rd_models W su G L P Hready) as Hm.
  destruct (mo_policy W _ G L P Hm training w l1 Hne Hrows)
    as (l2 & H2 & Hl2 & Hr2 & Hp2).
  destruct (mo_pose W _ G L P Hm training w l1 Hne Hrows) as (p & Hp & Hlp & Hrp).
  unfold decoded_position in Hp. rewrite H2 in Hp. cbn [rbind] in Hp.
  apply rbind_Ok_inv in Hp as (tr & Htr & Hp).
  apply rbind_Ok_inv in Hp as (tr' & Htr' & Hp).
  apply rbind_Ok_inv in Hp as (q & Hq & Hp).
  assert (Hpne : p ≠ []) by (destruct p, l1; simpl in *; done).
  destruct (mo_mse W _ G L P Hm p t Hpne) as (loss & Hloss); [congruence|done|done|].
  exists l1, t, l2, tr, tr', q, p, loss.
  do 7 (split; [done|]). split; [done|]. split; [done|].
  split; [|done]. destruct l2, l1; simpl in *; done.
Qed.

Lemma train_batch_total dl v positions n :
  batch_ok W G dl positions →
  collected W L P (tv_end_poses W v) (tv_target_poses W v) (tv_latents W v) n →
  ∃ v', train_batch W (su_action_vae W su) dl v positions = Ok v'
        ∧ collected W L P (tv_end_poses W v') (tv_target_poses W v')
            (tv_latents W v') (S n).
Proof.
  intros Hb (He & Htg & Hla & Hn1 & Hn2 & Hn3).
  destruct (batch_total dl positions true (tv_weights W v) Hb)
    as (l1 & t & l2 & tr & tr' & q & p & loss
        & Hf & H2 & Htr & Htr' & Hq & Hp & Hloss & Hrp & Hrt & Hl2).
  unfold train_batch. rewrite Hf. cbn [rbind].
  rewrite H2. cbn [rbind]. rewrite Htr. cbn [rbind]. rewrite Htr'. cbn [rbind].
  rewrite Hq. cbn [rbind]. rewrite Hp. cbn [rbind]. rewrite Hloss. cbn [rbind].
  destruct (backward_step W _ _ _) as [w' o'].
  eexists. split; [done|]. simpl.
  do 3 (split; [apply Forall_app; split; [done|constructor; [done|constructor]]|]).
  rewrite !length_app; simpl; lia.
Qed.

Lemma val_batch_total dl w v positions n :
  batch_ok W G dl positions →
  collected W L P (vv_end_poses W v) (vv_target_poses W v) (vv_latents W v) n →
  ∃ v', val_batch W (su_action_vae W su) w dl v positions = Ok v'
        ∧ collected W L P (vv_end_poses W v') (vv_target_poses W v')
            (vv_latents W v') (S n).
Proof.
  intros Hb (He & Htg & Hla & Hn1 & Hn2 & Hn3).
  destruct (batch_total dl positions false w Hb)
    as (l1 & t & l2 & tr & tr' & q & p & loss
        & Hf & H2 & Htr & Htr' & Hq & Hp & Hloss & Hrp & Hrt & Hl2).
  unfold val_batch. rewrite Hf. cbn [rbind].
  rewrite H2. cbn [rbind]. rewrite Htr. cbn [rbind]. rewrite Htr'. cbn [rbind].
  rewrite Hq. cbn [rbind]. rewrite Hp. cbn [rbind]. rewrite Hloss. cbn [rbind].
  eexists. split; [done|]. simpl.
  split; [repeat (apply Forall_app; split); try done; by repeat constructor|].
  do 2 (split; [apply Forall_app; split; [done|constructor; [done|constructor]]|]).
  rewrite !length_app; simpl; lia.
Qed.

Lemma train_pass_total dl batches v n :
  Forall (batch_ok W G dl) batches →
  collected W L P (tv_end_poses W v) (tv_target_poses W v) (tv_latents W v) n →
  ∃ v', foldR (train_batch W (su_action_vae W su) dl) batches v = Ok v'
        ∧ collected W L P (tv_end_poses W v') (tv_target_poses W v')
            (tv_latents W v') (n + length batches).
Proof.
  intros Hb. revert v n. induction Hb as [|b batches Hb _ IH]; intros v n Hv; simpl.
  - exists v. by rewrite Nat.add_0_r.
  - destruct (train_batch_total dl v b n Hb Hv) as (v1 & H1 & Hv1).
    rewrite H1. simpl. destruct (IH v1 (S n) Hv1) as (v' & H' & Hv').
    exists v'. split; [done|]. by replace (n + S (length batches))%nat
      with (S n + length batches)%nat by lia.
Qed.

Lemma val_pass_total dl w batches v n :
  Forall (batch_ok W G dl) batches →
  collected W L P (vv_end_poses W v) (vv_target_poses W v) (vv_latents W v) n →
  ∃ v', foldR (val_batch W (su_action_vae W su) w dl) batches v = Ok v'
        ∧ collected W L P (vv_end_poses W v') (vv_target_poses W v')
            (vv_latents W v') (n + length batches).
Proof.
  intros Hb. revert v n. induction Hb as [|b batches Hb _ IH]; intros v n Hv; simpl.
  - exists v. by rewrite Nat.add_0_r.
  - destruct (val_batch_total dl w v b n Hb Hv) as (v1 & H1 & Hv1).
    rewrite H1. simpl. destruct (IH v1 (S n) Hv1) as (v' & H' & Hv').
    exists v'. split; [done|]. by replace (n + S (length batches))%nat
      with (S n + length batches)%nat by lia.
Qed.

Lemma np_concatenate_total {A} (l : list (list A)) :
  (1 ≤ length l)%nat → np_concatenate l = Ok (concat l).
Proof. destruct l; simpl; [lia|done]. Qed.

Lemma rows_wide (a : tensor2 (num W)) : rows W 3 a → wide W a.
Proof. intros H. eapply Forall_impl; [exact H|]. intros r Hr. simpl in *. lia. Qed.

Lemma wide_concat (l : list (tensor2 (num W))) :
  Forall (rows W 3) l → wide W (concat l).
Proof.
  intros H. unfold wide. apply Forall_concat.
  eapply Forall_impl; [exact H|]. apply rows_wide.
Qed.

Lemma latent_rows_concat (l : list (tensor2 (num W))) :
  (1 ≤ length l)%nat → Forall (latent_rows W L P) l → latent_rows W L P (concat l).
Proof.
  intros Hlen H. split; [|split].
  - destruct H as [|a l [Ha _] _]; simpl in *; [lia|]. by destruct a.
  - apply Forall_concat. eapply Forall_impl; [exact H|]. by intros a (_ & Ha & _).
  - apply Forall_concat. eapply Forall_impl; [exact H|]. by intros a (_ & _ & Ha).
Qed.

(** An epoch on a ready setup raises nothing and records one average
    loss of each kind. *)
Lemma epoch_body_total lv epoch d :
  length (lv_avg_val_losses W lv) = length (lv_avg_train_losses W lv) →
  ∃ d' lv', epoch_body W su lv epoch d = (d', Ok lv')
            ∧ length (lv_avg_train_losses W lv') = S (length (lv_avg_train_losses W lv))
            ∧ length (lv_avg_val_losses W lv') = S (length (lv_avg_val_losses W lv)).
Proof.
  intros Hlen.
  pose proof (rd_output W su G L P Hready) as Hout.
  pose proof (oo_scatter W _ P Hout) as Hsc.
  pose proof (oo_plot W _ P Hout) as Hplot.
  pose proof (oo_savefig W _ P Hout) as Hsave.
  destruct (rd_train W su G L P Hready epoch) as [Hne_tr Hb_tr].
  destruct (rd_test W su G L P Hready epoch) as [Hne_te Hb_te].
  destruct (train_pass_total (su_train_loader W su) _
              (Build_TrainVars W (lv_weights W lv) (lv_ostate W lv) [] [] [] []) 0 Hb_tr)
    as (tv & Htv & Hc1 & Hc2 & Hc3 & Hn1 & Hn2 & Hn3).
  { repeat split; simpl; try constructor; lia. }
  assert (1 ≤ length (loader_batches W epoch (su_train_loader W su)))%nat
    by (destruct (loader_batches W epoch (su_train_loader W su)); simpl; [done|lia]).
  destruct (val_pass_total (su_test_loader W su) (tv_weights W tv) _
              (Build_ValVars W [] [] [] (tv_latents W tv)) 0 Hb_te)
    as (vv & Hvv & Hd1 & Hd2 & Hd3 & Hm1 & Hm2 & Hm3).
  { repeat split; simpl; try constructor; try done; lia. }
  assert (1 ≤ length (loader_batches W epoch (su_test_loader W su)))%nat
    by (destruct (loader_batches W epoch (su_test_loader W su)); simpl; [done|lia]).
  destruct (plot_latent_distributions_total W L P (concat (vv_latents W vv))
              (os_path_join (su_save_path W su) ["latents_distribution.png"]))
    as (cols & Hcols).
  { apply (oo_hist W _ P Hout). }
  { apply Hsave. }
  { apply (rd_width W su G L P Hready). }
  { apply latent_rows_concat; [lia|done]. }
  assert (X1 : (1 ≤ length (tv_end_poses W tv))%nat) by lia.
  assert (X2 : (1 ≤ length (tv_target_poses W tv))%nat) by lia.
  assert (X3 : (1 ≤ length (vv_end_poses W vv))%nat) by lia.
  assert (X4 : (1 ≤ length (vv_target_poses W vv))%nat) by lia.
  assert (X5 : (1 ≤ length (vv_latents W vv))%nat) by lia.
  eexists _, _. split.
  - unfold epoch_body, train_pass, val_pass.
    erewrite bind_Ok; [cbv beta zeta|unfold lift; by rewrite Htv].
    erewrite bind_Ok;
      [cbv beta zeta|unfold lift; by rewrite np_concatenate_total by done].
    erewrite bind_Ok;
      [cbv beta zeta|unfold lift; by rewrite np_concatenate_total by done].
    erewrite bind_Ok; [cbv beta zeta|unfold lift; by rewrite Hvv].
    erewrite bind_Ok;
      [cbv beta zeta|unfold lift; by rewrite np_concatenate_total by done].
    erewrite bind_Ok;
      [cbv beta zeta|unfold lift; by rewrite np_concatenate_total by done].
    erewrite bind_Ok;
      [cbv beta zeta|unfold lift; by rewrite np_concatenate_total by done].
    erewrite (bind_Ok _ _ d
                (if f64_ltb (np_mean W (vv_val_losses W vv)) (lv_best_val W lv)
                 then with_file (checkpoint_path (su_save_path W su))
                        (Checkpoint (tv_weights W tv)) d
                 else d)
                (if f64_ltb (np_mean W (vv_val_losses W vv)) (lv_best_val W lv)
                 then np_mean W (vv_val_losses W vv) else lv_best_val W lv));
      [cbv beta zeta|].
    2:{ destruct (f64_ltb _ _); [|reflexivity].
        unfold bind, lift, checkpoint_path.
        by rewrite (oo_torch_save W _ P Hout). }
    erewrite bind_Ok;
      [cbv beta zeta|apply plot_scatter_total; try done; by apply wide_concat].
    erewrite bind_Ok;
      [cbv beta zeta|apply plot_scatter_total; try done; by apply wide_concat].
    erewrite bind_Ok; [cbv beta zeta|unfold lift; reflexivity].
    erewrite bind_Ok; [cbv beta zeta|unfold lift; reflexivity].
    erewrite bind_Ok; [cbv beta zeta|].
    2:{ cbn [concat]. rewrite !app_nil_r.
        apply plot_scatter_total; [exact Hsc|apply Hsave|..];
          apply Forall_app; split; by apply wide_concat. }
    erewrite bind_Ok; [cbv beta zeta|apply Hcols].
    erewrite bind_Ok; [cbv beta zeta|].
    2:{ apply plot_loss_total; try done. rewrite !length_app. simpl. lia. }
    erewrite bind_Ok; [cbv beta zeta|].
    2:{ apply plot_loss_total; try done.
        rewrite !length_map, !length_app. simpl. lia. }
    unfold ret. reflexivity.
  - simpl. rewrite !length_app. simpl. lia.
Qed.

Lemma run_epochs_total n lv d :
  length (lv_avg_val_losses W lv) = length (lv_avg_train_losses W lv) →
  ∃ d' lv', run_epochs W su n lv d = (d', Ok lv')
            ∧ length (lv_avg_train_losses W lv')
              = (length (lv_avg_train_losses W lv) + n)%nat
            ∧ length (lv_avg_val_losses W lv')
              = (length (lv_avg_val_losses W lv) + n)%nat.
Proof.
  intros Hlen. induction n as [|n (d1 & lv1 & H1 & Ht & Hv)].
  - exists d, lv. unfold run_epochs. simpl. unfold ret. split; [done|lia].
  - rewrite run_epochs_S, H1.
    destruct (epoch_body_total lv1 n d1) as (d' & lv' & H' & Ht' & Hv'); [lia|].
    exists d', lv'. split; [done|]. lia.
Qed.
End ProgressLoop.

Section ProgressSetup.
Variable W : World.
Hypothesis Hrand : random_ok W.
Implicit Types d : disk (weights W) (num W).

(** Positions within a subset of valid indices can be fetched. *)
Lemma fetch_batch_ok (G : nat) (dl : DataLoader W) (positions : list nat) :
  (∀ j, j ∈ sub_indices W (dl_subset W dl) →
        (j < length (sub_dataset W (dl_subset W dl)))%nat) →
  Forall (element_shape W G) (sub_dataset W (dl_subset W dl)) →
  positions ≠ [] →
  (∀ x, x ∈ positions → (x < subset_len W (dl_subset W dl))%nat) →
  batch_ok W G dl positions.
Proof.
  intros Hidx Hshape Hne Hpos.
  destruct (mapR_total (subset_get W (dl_subset W dl))
              (element_shape W G) positions) as (elems & He & Hlen & Hw).
  { apply Forall_forall. intros x Hx. apply Hpos in Hx.
    destruct (lookup_lt_is_Some_2 _ _ Hx) as [j Hj].
    assert (Hjlt : (j < length (sub_dataset W (dl_subset W dl)))%nat).
    { apply Hidx. by eapply list_elem_of_lookup_2. }
    destruct (lookup_lt_is_Some_2 _ _ Hjlt) as [e Hel].
    exists e. split.
    - unfold subset_get.
      rewrite (proj2 (np_index_nat_Ok _ _ _) Hj). simpl.
      by apply np_index_nat_Ok.
    - apply (proj1 (Forall_forall _ _) Hshape). by eapply list_elem_of_lookup_2. }
  exists (elems.*1), (elems.*2). unfold fetch_batch. rewrite He. simpl.
  split; [done|]. split; [|split; [|split]].
  - destruct elems, positions; simpl in *; done.
  - apply Forall_fmap. eapply Forall_impl; [exact Hw|]. by intros e [? _].
  - by rewrite !length_fmap.
  - apply Forall_fmap. eapply Forall_impl; [exact Hw|]. by intros e [_ ?].
Qed.

Lemma loader_ok_intro (G : nat) (dl : DataLoader W) :
  (0 < dl_batch_size W dl)%nat →
  (0 < subset_len W (dl_subset W dl))%nat →
  (∀ j, j ∈ sub_indices W (dl_subset W dl) →
        (j < length (sub_dataset W (dl_subset W dl)))%nat) →
  Forall (element_shape W G) (sub_dataset W (dl_subset W dl)) →
  loader_ok W G dl.
Proof.
  intros Hbs Hlen Hidx Hshape epoch. unfold loader_batches.
  set (n := subset_len W (dl_subset W dl)) in *.
  set (order := if dl_shuffle W dl then sampler_order W epoch n else seq 0 n).
  assert (Hperm : order ≡ₚ seq 0 n).
  { unfold order. destruct (dl_shuffle W dl); [|done].
    apply (sampler_order_perm W Hrand). }
  assert (Hne : order ≠ []).
  { intros E. rewrite E in Hperm. apply Permutation_length in Hperm.
    rewrite length_seq in Hperm. simpl in Hperm. lia. }
  destruct (chunks_spec (dl_batch_size W dl) order Hbs Hne) as [Hc1 Hc2].
  split; [done|]. eapply Forall_impl; [exact Hc2|].
  intros c [Hcne Hcin]. apply fetch_batch_ok; try done.
  intros x Hx. apply Hcin in Hx. rewrite Hperm in Hx.
  apply elem_of_seq in Hx. fold n. lia.
Qed.

Lemma load_dataset_plain (name : string) latents targets :
  np_load W (os_path_join (GIBSON_ROOT W)
               ["log"; name; "mujoco_latents/latents.pkl"])
    = Ok (latents, targets) →
  length latents = length targets →
  Forall (λ s, s ≠ []) latents →
  load_dataset W name false
  = Ok (zip (map (map (torch_Tensor W)) (map (λ s, default [] (head s)) latents))
            (map (map (torch_Tensor W)) targets)).
Proof.
  intros Hload Hlen Hne. unfold load_dataset. rewrite Hload. simpl.
  rewrite (first_of_axis1_nonempty _ Hne). simpl.
  unfold TensorDataset. by rewrite bool_decide_true by (by rewrite !length_map).
Qed.

Lemma stored_shape_nonempty (dim : nat) latents targets :
  stored_shape dim latents targets → Forall (λ s, s ≠ []) latents.
Proof.
  intros [H _]. eapply Forall_impl; [exact H|].
  by intros s (first & rest & -> & _).
Qed.

(** On a good fixture [main] reaches its loop, with loaders that yield
    fetchable batches in every epoch. *)
Lemma setup_total (args : Args) d :
  fixture_ok W args →
  ∃ d' su lv P,
    setup W args d = (d', Ok (su, lv))
    ∧ loop_ready W su (Z.to_nat (g_latent args)) (Z.to_nat (latent_dim args)) P
    ∧ lv_avg_train_losses W lv = [] ∧ lv_avg_val_losses W lv = [].
Proof.
  intros [_ Hidx Hbs Hnp Hdbg HL (vae & P & Hvae & Hmodels & Hout)
            (w & o & Hw & Ho)
            (latents & targets & Hload & Hlen & [Hn2 Hn48] & Hstored)].
  set (G := Z.to_nat (g_latent args)) in *.
  pose proof (stored_shape_nonempty _ _ _ Hstored) as Hne.
  assert (Hds : ∃ ds, load_dataset W (g_name args) false = Ok ds
                      ∧ length ds = length latents
                      ∧ Forall (element_shape W G) ds).
  { eexists. split; [by apply load_dataset_plain|]. split.
    - rewrite length_zip, !length_map. lia.
    - destruct Hstored as [Hlat Htar]. apply zip_shape.
      + apply Forall_fmap, Forall_fmap. eapply Forall_impl; [exact Hlat|].
        intros s (first & rest & -> & Hdim). simpl. by rewrite length_map.
      + apply Forall_fmap. eapply Forall_impl; [exact Htar|].
        intros t Ht. simpl. by rewrite length_map. }
  destruct Hds as (ds & Hds & Hdslen & Hdsshape).
  destruct (train_size_bounds (Z.of_nat (length ds))) as (k & Hk & Hklo & Hkhi);
    [lia|].
  assert (Hk1 : 1 ≤ k).
  { etrans; [|exact Hklo]. apply Z.div_le_lower_bound; lia. }
  assert (Hkn : k < Z.of_nat (length ds)).
  { eapply Z.le_lt_trans; [exact Hkhi|]. apply Z.div_lt_upper_bound; lia. }
  assert (Hk0n : 0 ≤ k ≤ Z.of_nat (length ds)) by lia.
  pose proof (random_split_spec W Hrand ds k Hk0n) as Hsplit.
  assert (Hperm : randperm W (length ds) ≡ₚ seq 0 (length ds))
    by apply (randperm_perm W Hrand).
  assert (Hplen : length (randperm W (length ds)) = length ds).
  { rewrite Hperm. apply length_seq. }
  assert (Hpidx : ∀ j, j ∈ randperm W (length ds) → (j < length ds)%nat).
  { intros j Hj. rewrite Hperm in Hj. apply elem_of_seq in Hj. lia. }
  set (trainset := Build_Subset W ds (take (Z.to_nat k) (randperm W (length ds)))) in *.
  set (testset := Build_Subset W ds (drop (Z.to_nat k) (randperm W (length ds)))) in *.
  assert (Htl : new_DataLoader W trainset (batch_size args) true (num_processes args)
                = Ok (Build_DataLoader W trainset (Z.to_nat (batch_size args)) true)).
  { unfold new_DataLoader.
    replace (num_processes args <? 0) with false by (symmetry; apply Z.ltb_ge; lia).
    replace (batch_size args <=? 0) with false by (symmetry; apply Z.leb_gt; lia).
    done. }
  assert (Htestlen : subset_len W testset = (length ds - Z.to_nat k)%nat).
  { unfold subset_len, testset. simpl. rewrite length_drop. lia. }
  assert (Hsl : new_DataLoader W testset (Z.of_nat (subset_len W testset)) false 0
                = Ok (Build_DataLoader W testset (subset_len W testset) false)).
  { unfold new_DataLoader. simpl.
    replace (Z.of_nat (subset_len W testset) <=? 0) with false
      by (symmetry; apply Z.leb_gt; lia).
    by rewrite Nat2Z.id. }
  eexists _, _, _, P. split.
  - unfold setup.
    erewrite bind_Ok; [cbv beta|].
    2:{ apply save_arguments_Ok; [apply (oo_makedirs W _ P Hout)|apply (oo_open W _ P Hout)]. }
    erewrite bind_Ok; [cbv beta|].
    2:{ replace (0 <? model_index args) with true by (symmetry; apply Z.ltb_lt; lia).
        unfold ret. reflexivity. }
    erewrite bind_Ok; [cbv beta|unfold lift; unfold vae_of in Hvae; by rewrite Hvae].
    erewrite bind_Ok; [cbv beta|unfold lift; by rewrite Hw].
    erewrite bind_Ok; [cbv beta|unfold lift; by rewrite Ho].
    erewrite bind_Ok; [cbv beta zeta|unfold lift; by rewrite Hdbg, Hds].
    erewrite bind_Ok; [cbv beta zeta|unfold lift; by rewrite Hk].
    erewrite bind_Ok; [|unfold lift; by rewrite Hsplit].
    cbv beta zeta iota.
    erewrite bind_Ok; [cbv beta zeta|unfold lift; by rewrite Htl].
    erewrite bind_Ok; [cbv beta zeta|unfold lift; by rewrite Hsl].
    unfold ret. reflexivity.
  - split; [|done]. split; simpl; [lia|done|done| |].
    + apply loader_ok_intro; simpl.
      * lia.
      * unfold subset_len. simpl. rewrite length_take. lia.
      * intros j Hj. apply Hpidx.
        by apply (subseteq_take (Z.to_nat k) (randperm W (length ds))).
      * done.
    + apply loader_ok_intro; simpl.
      * lia.
      * lia.
      * intros j Hj. apply Hpidx.
        by apply (subseteq_drop (Z.to_nat k) (randperm W (length ds))).
      * done.
Qed.

(** On a good fixture [main] runs its epochs to the end. *)
Lemma main_total (args : Args) d :
  fixture_ok W args →
  ∃ d' lv,
    main W args d = (d', Ok lv)
    ∧ length (lv_avg_train_losses W lv) = Z.to_nat (num_epoch args)
    ∧ length (lv_avg_val_losses W lv) = Z.to_nat (num_epoch args).
Proof.
  intros Hfx.
  destruct (setup_total args d Hfx) as (d1 & su & lv0 & P & Hsetup & Hready & Ht & Hv).
  destruct (run_epochs_total W su _ _ P Hready (Z.to_nat (num_epoch args)) lv0 d1)
    as (d' & lv & Hrun & Ht' & Hv'); [by rewrite Ht, Hv|].
  exists d', lv. split.
  - unfold main. erewrite bind_Ok; [|exact Hsetup]. exact Hrun.
  - rewrite Ht', Hv', Ht, Hv. done.
Qed.

End ProgressSetup.

(** ** The training loop *)


Lemma toy_rows_of (k : nat) (x : list (list Z)) :
  Forall (λ r, length r = k) x → Toy.rows_of k x = true.
Proof.
  intros H. unfold Toy.rows_of. apply forallb_forall. intros r Hr%list_elem_of_In.
  apply Nat.eqb_eq. by apply (proj1 (Forall_forall _ _) H).
Qed.

Lemma toy_same_shape (k : nat) (a b : list (list Z)) :
  length a = length b →
  Forall (λ r, length r = k) a → Forall (λ r, length r = k) b →
  Toy.same_shape a b = true.
Proof.
  intros Hlen Ha Hb. unfold Toy.same_shape. apply andb_true_intro. split.
  - by apply Nat.eqb_eq.
  - apply forallb_forall. intros [r r'] Hr%list_elem_of_In. simpl.
    apply Nat.eqb_eq.
    apply elem_of_zip_l in Hr as Hl. apply elem_of_zip_r in Hr as Hr'.
    rewrite (proj1 (Forall_forall _ _) Ha r Hl).
    by rewrite (proj1 (Forall_forall _ _) Hb r' Hr').
Qed.

Lemma toy_models_ok load vae_load draws item_of :
  models_ok (Toy.world load vae_load draws item_of) Toy.vae 2 2 (λ _, True).
Proof.
  assert (Hpolicy : ∀ w (x : list (list Z)),
            Forall (λ r, length r = 2%nat) (Toy.policy w x)).
  { intros w x. unfold Toy.policy. apply Forall_fmap, Forall_forall.
    intros row _. simpl. by destruct row as [|a [|b row]]. }
  split.
  - intros b w x _ Hx. simpl. rewrite (toy_rows_of 2 x Hx).
    eexists. split; [done|]. split; [apply length_map|]. split; [apply Hpolicy|].
    apply Forall_forall. intros r _. apply Forall_forall. done.
  - intros b w x _ Hx. unfold decoded_position. simpl.
    rewrite (toy_rows_of 2 x Hx). simpl.
    set (t := map (map (λ x, [x; x + 1])) (Toy.policy w x)).
    destruct (mapR_total (mapR (λ steps : list Z, np_index steps (-1)))
                (λ _, True) t) as (q & Hq & Hlq & _).
    { unfold t. apply Forall_fmap, Forall_forall. intros row _. simpl.
      destruct (mapR_total (λ steps : list Z, np_index steps (-1)) (λ _, True)
                  (map (λ x, [x; x + 1]) row)) as (r & Hr & _); [|eauto].
      apply Forall_fmap, Forall_forall. intros y _. simpl. by eexists. }
    rewrite Hq. simpl. eexists. split; [done|]. split.
    + rewrite !length_map, Hlq. unfold t, Toy.policy. by rewrite !length_map.
    + apply Forall_fmap, Forall_forall. by intros row _.
  - intros p t _ Hlen Hp Ht. simpl. rewrite (toy_same_shape 3 p t Hlen Hp Ht).
    by eexists.
Qed.

Lemma toy_output_ok load vae_load draws item_of (dir : string) :
  output_ok (Toy.world load vae_load draws item_of) dir (λ _, True).
Proof.
  split; simpl; try done.
  intros x y Hlen. by rewrite (proj2 (Nat.eqb_eq _ _) Hlen).
Qed.

Lemma toy_fixture_ok (epochs : Z) :
  fixture_ok (Toy.world_of 4) (Toy.args epochs 1 false).
Proof.
  split.
  - apply toy_random_ok.
  - simpl. lia.
  - simpl. lia.
  - simpl. lia.
  - done.
  - simpl. lia.
  - exists Toy.vae, (λ _, True). split; [done|].
    split; [apply toy_models_ok|apply toy_output_ok].
  - by exists 0, O.
  - exists (Toy.stored_latents 4), (Toy.stored_targets 4).
    split; [done|]. split; [done|]. split; [by vm_compute|].
    split; repeat constructor; by eexists _, _.
Qed.


